(** * spender: the spectrum autoencoder of [spender/model.py]

    A shallow embedding of [MLP], [SpeculatorActivation], [SpectrumEncoder],
    [SpectrumDecoder], [BaseAutoencoder] and [SpectrumAutoencoder].

    Conventions of the embedding.
    - Scalars are real numbers: tensor entries are [R], so rounding,
      overflow and NaN of the float32 arithmetic are not represented.
    - A batched tensor is a list over the batch axis; a 2-D tensor
      [(N, F)] is [list (list R)], a 3-D tensor [(N, C, L)] is
      [list (list (list R))].  Parameter tensors are index functions
      stored next to their declared sizes.
    - A Python exception is a value of [exn]; code that can raise returns
      [result].
    - Fresh randomness (parameter initialisation, dropout masks) is read
      from explicit oracles.
    - The mode set by [train()] and [eval()] is one flag [training] for the
      whole model, passed to every forward function.
    - The layers of [torch.nn] are modelled from their documentation; the
      interpolation routine of [torchinterp1d] and the instrument are
      parameters.
    - A list over the batch axis does not carry the other dimensions of a
      tensor that holds no sample: [[]] stands for the batch of size 0
      whose remaining dimensions fit the layer that receives it.  What the
      code does on a batch of size 0 with other dimensions is not
      represented, and statements about errors are made for batches of at
      least one sample. *)

From Stdlib Require Import Reals Lra Lia List Bool ZArith Permutation PeanoNat.
Import ListNotations.

Open Scope R_scope.

(** ** Exceptions and the error monad *)

Inductive exn : Type :=
| AssertionError
| AttributeError
| TypeError
| IndexError
| ValueError
| RuntimeError.

Inductive result (A : Type) : Type :=
| Ok (a : A)
| Raise (e : exn).
Arguments Ok {A} a.
Arguments Raise {A} e.

Definition bind {A B} (m : result A) (k : A -> result B) : result B :=
  match m with
  | Ok a => k a
  | Raise e => Raise e
  end.

Notation "x <- m ;; k" := (bind m (fun x => k))
  (at level 61, m at next level, right associativity).
Notation "' pat <- m ;; k" := (bind m (fun x => match x with pat => k end))
  (at level 61, pat pattern, m at next level, right associativity).

Definition is_ok {A} (r : result A) : Prop := exists a, r = Ok a.
Definition raises {A} (r : result A) : Prop := exists e, r = Raise e.

Definition fmap {A B} (f : A -> B) (r : result A) : result B :=
  a <- r ;; Ok (f a).

(** [imapM_from k f l] runs [f (k+j) l_j] for every element, left to
    right, and stops at the first exception. *)
Fixpoint imapM_from {A B} (k : nat) (f : nat -> A -> result B) (l : list A)
  : result (list B) :=
  match l with
  | [] => Ok []
  | a :: l' =>
      b <- f k a ;;
      bs <- imapM_from (S k) f l' ;;
      Ok (b :: bs)
  end.

Definition imapM {A B} (f : nat -> A -> result B) (l : list A) := imapM_from 0 f l.
Definition mapM {A B} (f : A -> result B) (l : list A) := imapM (fun _ => f) l.

Fixpoint imap_from {A B} (k : nat) (f : nat -> A -> B) (l : list A) : list B :=
  match l with
  | [] => []
  | a :: l' => f k a :: imap_from (S k) f l'
  end.
Definition imap {A B} (f : nat -> A -> B) (l : list A) := imap_from 0 f l.

(** ** Python values used by the optional arguments *)

(** An argument that the code tests with [is None] and [is False]. *)
Inductive pyopt (A : Type) : Type :=
| PyNone
| PyFalse
| PyObj (a : A).
Arguments PyNone {A}.
Arguments PyFalse {A}.
Arguments PyObj {A} a.

(** [~b] on a Python [bool] is the integer bitwise complement:
    [~True = -2] and [~False = -1]. *)
Definition py_invert (b : bool) : Z := Z.lnot (Z.b2z b).

(** Truth value of a Python [int]. *)
Definition py_truthy (z : Z) : bool := negb (Z.eqb z 0).

(** ** Tensors *)

Abbreviation tensor1 := (list R).
Abbreviation tensor2 := (list (list R)).
Abbreviation tensor3 := (list (list (list R))).

Definition Rsum (l : list R) : R := fold_right Rplus 0 l.

(** [x.shape[1]] of a 2-D tensor. *)
Definition shape1 (x : tensor2) : nat := length (hd [] x).

(** [Σ_{i<n} f i]. *)
Definition sum_upto (n : nat) (f : nat -> R) : R := Rsum (map f (seq 0 n)).

(** Broadcasting a binary operation along one axis, as torch does: the
    sizes agree, or one of them is 1. *)
Definition bzip {A B C} (f : A -> B -> result C) (a : list A) (b : list B)
  : result (list C) :=
  if Nat.eqb (length a) (length b) then
    mapM (fun '(x, y) => f x y) (combine a b)
  else
    match a, b with
    | [x], _ => mapM (fun y => f x y) b
    | _, [y] => mapM (fun x => f x y) a
    | _, _ => Raise RuntimeError
    end.

Definition t1_binop (f : R -> R -> R) (a b : tensor1) : result tensor1 :=
  bzip (fun x y => Ok (f x y)) a b.
Definition t2_binop (f : R -> R -> R) (a b : tensor2) : result tensor2 :=
  bzip (t1_binop f) a b.

(** ** The layers of [torch.nn] the module uses

    Modelled from the documentation of PyTorch: these classes are not part
    of the repository. *)

Module nn.

(** Uniform draws in [0,1) for the dropout masks, indexed by the dropout
    site, the sample, the channel and the position. *)
Definition noise := nat -> nat -> nat -> nat -> R.

(** [nn.Linear(in_features, out_features)]. *)
Record Linear := mkLinear {
  in_features : nat;
  out_features : nat;
  lin_weight : nat -> nat -> R;
  lin_bias : nat -> R
}.

Definition linear_row (l : Linear) (v : tensor1) : result tensor1 :=
  if Nat.eqb (length v) (in_features l) then
    Ok (map (fun o => lin_bias l o
                      + sum_upto (in_features l) (fun i => lin_weight l o i * nth i v 0))
            (seq 0 (out_features l)))
  else Raise RuntimeError.

(** The layer on a batch: every row must have [in_features] entries.  A
    batch of no rows does not carry its width (see the conventions): it
    stands for the empty batch of the width the layer expects, which the
    layer maps to an empty batch. *)
Definition Linear_forward (l : Linear) (x : tensor2) : result tensor2 :=
  mapM (linear_row l) x.

(** The activation modules that can sit in an [act] list. *)
Inductive Activation :=
| LeakyReLU (negative_slope : R)
| PReLU (num_parameters : nat) (weight : nat -> R)
| Identity
| SpeculatorActivation (num_parameters : nat) (beta gamma : nat -> R) (plus_one : bool).

Definition leaky (slope x : R) : R := Rmax 0 x + slope * Rmin 0 x.

(** [nn.PReLU(num_parameters)] on the channels [v] of one sample: one
    shared slope, or one slope per channel. *)
Definition prelu_channels {A} (scale : R -> A -> A) (num_parameters : nat)
           (weight : nat -> R) (v : list A) : result (list A) :=
  if Nat.eqb num_parameters 1 then Ok (map (scale (weight 0%nat)) v)
  else if Nat.eqb num_parameters (length v) then Ok (imap (fun c => scale (weight c)) v)
  else Raise RuntimeError.

Definition sigmoid (t : R) : R := 1 / (1 + exp (- t)).

(** [nn.Dropout(p)] on one entry, [u] being its uniform draw. *)
Definition dropout_entry (p : R) (training : bool) (u x : R) : R :=
  if training then (if Rlt_dec u p then 0 else x * / (1 - p)) else x.

Definition Dropout_forward2 (p : R) (training : bool) (u : nat -> nat -> R)
           (x : tensor2) : tensor2 :=
  imap (fun j => imap (fun k => dropout_entry p training (u j k))) x.

Definition Dropout_forward3 (p : R) (training : bool) (u : nat -> nat -> nat -> R)
           (x : tensor3) : tensor3 :=
  imap (fun j => imap (fun c => imap (fun t => dropout_entry p training (u j c t)))) x.

(** [nn.Conv1d(in_channels, out_channels, kernel_size, padding)],
    stride 1, zero padding on both sides. *)
Record Conv1d := mkConv1d {
  in_channels : nat;
  out_channels : nat;
  kernel_size : nat;
  padding : nat;
  conv_weight : nat -> nat -> nat -> R;
  conv_bias : nat -> R
}.

(** Entry [t] of a row after zero padding by [p] on both sides. *)
Definition padded (p : nat) (row : tensor1) (t : nat) : R :=
  if Nat.ltb t p then 0 else nth (t - p) row 0.

(** Number of positions of one sample [(C, L)]. *)
Definition positions (x : list tensor1) : nat := length (hd [] x).

Definition conv1d_sample (c : Conv1d) (x : list tensor1) : result (list tensor1) :=
  if negb (Nat.eqb (length x) (in_channels c)) then Raise RuntimeError
  else if Nat.ltb (positions x + 2 * padding c) (kernel_size c) then Raise RuntimeError
  else
    Ok (map (fun o =>
               map (fun t =>
                      conv_bias c o
                      + sum_upto (in_channels c) (fun i =>
                          sum_upto (kernel_size c) (fun j =>
                            conv_weight c o i j * padded (padding c) (nth i x []) (t + j))))
                   (seq 0 (positions x + 2 * padding c - kernel_size c + 1)))
            (seq 0 (out_channels c))).

Definition Conv1d_forward (c : Conv1d) (x : tensor3) : result tensor3 :=
  mapM (conv1d_sample c) x.

(** [nn.InstanceNorm1d(num_features)]: no affine parameters, no running
    statistics, so each channel of each sample is normalised by its own
    mean and (biased) variance in both modes.  A single position per
    channel is refused. *)
Record InstanceNorm1d := mkInstanceNorm1d {
  num_features : nat;
  eps : R
}.

Definition norm_row (eps : R) (row : tensor1) : tensor1 :=
  let n := INR (length row) in
  let mean := Rsum row / n in
  let var := Rsum (map (fun v => (v - mean) * (v - mean)) row) / n in
  map (fun v => (v - mean) / sqrt (var + eps)) row.

Definition instance_norm_sample (m : InstanceNorm1d) (x : list tensor1)
  : result (list tensor1) :=
  if Nat.eqb (positions x) 1 then Raise ValueError
  else Ok (map (norm_row (eps m)) x).

Definition InstanceNorm1d_forward (m : InstanceNorm1d) (x : tensor3) : result tensor3 :=
  mapM (instance_norm_sample m) x.

(** [nn.MaxPool1d(kernel_size, padding=...)]: the stride is the kernel
    size and the padding counts as minus infinity, so a window is the
    maximum of the entries of the row that it covers. *)
Record MaxPool1d := mkMaxPool1d {
  pool_kernel : nat;
  pool_padding : nat
}.

Definition window (s p : nat) (row : tensor1) (j : nat) : list R :=
  flat_map (fun k =>
              let t := (j * s + k)%nat in
              if Nat.leb p t then
                match nth_error row (t - p) with
                | Some v => [v]
                | None => []
                end
              else [])
           (seq 0 s).

Definition Rmax_list (w : list R) : R :=
  match w with
  | [] => 0
  | v :: w' => fold_left Rmax w' v
  end.

Definition pooled_length (s p L : nat) : nat := ((L + 2 * p - s) / s + 1)%nat.

Definition maxpool_sample (m : MaxPool1d) (x : list tensor1) : result (list tensor1) :=
  let s := pool_kernel m in
  let p := pool_padding m in
  if Nat.ltb (positions x + 2 * p) s then Raise RuntimeError
  else
    Ok (map (fun row =>
               map (fun j => Rmax_list (window s p row j))
                   (seq 0 (pooled_length s p (positions x))))
            x).

Definition MaxPool1d_forward (m : MaxPool1d) (x : tensor3) : result tensor3 :=
  mapM (maxpool_sample m) x.

(** [nn.Softmax(dim=-1)] on one row. *)
Definition softmax_row (row : tensor1) : tensor1 :=
  let e := map exp row in
  map (fun v => v / Rsum e) e.

Definition Softmax_forward (x : tensor3) : tensor3 :=
  map (map softmax_row) x.

(** [nn.PReLU] on a 3-D tensor: the slopes run over the channel axis. *)
Definition PReLU_forward3 (num_parameters : nat) (weight : nat -> R) (x : tensor3)
  : result tensor3 :=
  mapM (prelu_channels (fun a row => map (leaky a) row) num_parameters weight) x.

End nn.

(** ** SpeculatorActivation (model.py, lines 30-42) *)

Module SpeculatorActivation.

(** Line 39 on one entry, followed by lines 40-42. *)
Definition entry (beta gamma : R) (plus_one : bool) (x : R) : R :=
  let x := (gamma + (1 - gamma) * nn.sigmoid (beta * x)) * x in
  if plus_one then x + 1 else x.

(** [forward] on one sample. [beta] and [gamma] have [num_parameters]
    entries and are broadcast against the feature axis. *)
Definition forward_row (num_parameters : nat) (beta gamma : nat -> R)
           (plus_one : bool) (v : tensor1) : result tensor1 :=
  if Nat.eqb (length v) num_parameters then
    Ok (imap (fun i => entry (beta i) (gamma i) plus_one) v)
  else if Nat.eqb num_parameters 1 then
    Ok (map (entry (beta 0%nat) (gamma 0%nat) plus_one) v)
  else
    match v with
    | [x] => Ok (map (fun i => entry (beta i) (gamma i) plus_one x) (seq 0 num_parameters))
    | _ => Raise RuntimeError
    end.

End SpeculatorActivation.

(** ** Construction of modules

    A constructor draws the initial value of every parameter tensor it
    allocates from the generator; [allocated] counts the parameter tensors
    created so far. *)

Record Generator := mkGen {
  draw : nat -> nat -> nat -> nat -> R;
  allocated : nat
}.

Definition Ctor (A : Type) : Type := Generator -> Generator * result A.

Definition cret {A} (a : A) : Ctor A := fun g => (g, Ok a).
Definition craise {A} (e : exn) : Ctor A := fun g => (g, Raise e).
Definition cbind {A B} (m : Ctor A) (k : A -> Ctor B) : Ctor B :=
  fun g => match m g with
           | (g', Ok a) => k a g'
           | (g', Raise e) => (g', Raise e)
           end.

Notation "x <~ m ;; k" := (cbind m (fun x => k))
  (at level 61, m at next level, right associativity).

(** Allocation of one parameter tensor with up to three axes. *)
Definition new_parameter : Ctor (nat -> nat -> nat -> R) :=
  fun g => (mkGen (draw g) (S (allocated g)), Ok (draw g (allocated g))).

Definition py_assert (b : bool) : Ctor unit :=
  if b then cret tt else craise AssertionError.

Definition new_Linear (n_in n_out : nat) : Ctor nn.Linear :=
  w <~ new_parameter ;;
  b <~ new_parameter ;;
  cret (nn.mkLinear n_in n_out (fun o i => w o i 0%nat) (fun o => b o 0%nat 0%nat)).

Definition new_PReLU (n : nat) : Ctor nn.Activation :=
  w <~ new_parameter ;;
  cret (nn.PReLU n (fun c => w c 0%nat 0%nat)).

(** [nn.Dropout(p)]: the constructor refuses a probability outside
    [0, 1] ([if p < 0 or p > 1: raise ValueError]); it creates no
    parameter tensor. *)
Definition new_Dropout (p : R) : Ctor R :=
  if Rlt_dec p 0 then craise ValueError
  else if Rlt_dec 1 p then craise ValueError
  else cret p.

(** ** MLP (model.py, lines 7-26) *)

Module MLP.

(** A member of the [nn.Sequential] that [MLP] extends. *)
Inductive Layer :=
| Lin (l : nn.Linear)
| Act (a : nn.Activation)
| Drop (p : R).

Definition t := list Layer.

(** Lines 21-24, the loop over [range(len(n_)-1)]. *)
Fixpoint loop (n_ : list nat) (act : list nn.Activation) (dropout : R)
         (range : list nat) (layer : list Layer) : Ctor (list Layer) :=
  match range with
  | [] => cret layer
  | i :: range' =>
      lin <~ new_Linear (nth i n_ 0%nat) (nth (i + 1) n_ 0%nat) ;;
      a <~ (match nth_error act i with
            | Some a => cret a
            | None => craise IndexError
            end) ;;
      drop <~ new_Dropout dropout ;;
      loop n_ act dropout range' (layer ++ [Lin lin; Act a; Drop drop])
  end.

Definition __init__ (n_in n_out : nat) (n_hidden : list nat)
           (act : option (list nn.Activation)) (dropout : R) : Ctor t :=
  let act := match act with
             | None => repeat (nn.LeakyReLU (1 / 100)) (length n_hidden + 1)
             | Some act => act
             end in
  _ <~ py_assert (Nat.eqb (length act) (length n_hidden + 1)) ;;
  let layer := [] in
  let n_ := [n_in] ++ n_hidden ++ [n_out] in
  loop n_ act dropout (seq 0 (length n_ - 1)) layer.

Definition activation_row (a : nn.Activation) (v : tensor1) : result tensor1 :=
  match a with
  | nn.LeakyReLU slope => Ok (map (nn.leaky slope) v)
  | nn.PReLU n w => nn.prelu_channels (fun a x => nn.leaky a x) n w v
  | nn.Identity => Ok v
  | nn.SpeculatorActivation n beta gamma plus_one =>
      SpeculatorActivation.forward_row n beta gamma plus_one v
  end.

Definition layer_forward (training : bool) (u : nat -> nat -> R)
           (l : Layer) (x : tensor2) : result tensor2 :=
  match l with
  | Lin l => nn.Linear_forward l x
  | Act a => mapM (activation_row a) x
  | Drop p => Ok (nn.Dropout_forward2 p training u x)
  end.

(** [nn.Sequential.forward]: the layers in order; the layer at index
    [site] reads the dropout draws [u site]. *)
Fixpoint forward_from (site : nat) (training : bool) (u : nat -> nat -> nat -> R)
         (m : t) (x : tensor2) : result tensor2 :=
  match m with
  | [] => Ok x
  | l :: m' =>
      x <- layer_forward training (u site) l x ;;
      forward_from (S site) training u m' x
  end.

Definition forward := forward_from 0.

End MLP.

(** ** External collaborators *)

(** A tensor of shape [(batch, 1, bins)], given by the single channel of
    each sample. *)
Record one_channel := mkOneChannel { channel : tensor2 }.

(** Modelled from the spec: the [Instrument] class is not in the module.
    It exposes the observed-frame wavelength grid, optionally a
    line-spread operator that takes a [(batch, 1, bins)] tensor and
    returns a tensor of the same shape, and optionally a calibration
    function of the observed grid and the spectrum. *)
Record Instrument := mkInstrument {
  wave_obs : tensor1;
  lsf : option (one_channel -> result one_channel);
  calibration : option (tensor1 -> tensor2 -> result tensor2)
}.

(** The call [Interp1d()(x, y, xnew)] of the third-party package
    [torchinterp1d], taken as a parameter of the embedding. *)
Definition Interp1d_t := tensor2 -> tensor2 -> tensor1 -> result tensor2.

(** The redshift argument: a Python number or a tensor with one entry per
    sample. *)
Inductive redshift :=
| ZNumber (z : R)
| ZTensor (z : tensor1).

(** [x.unsqueeze(1)] on a 2-D tensor. *)
Definition unsqueeze1 (x : tensor2) : tensor3 := map (fun row => [row]) x.

(** [x.unsqueeze(1)] and [x.squeeze(1)] around the line-spread operator
    of an instrument: from [(batch, bins)] to [(batch, 1, bins)] and
    back, the channel axis of the operator's result having size 1. *)
Definition unsqueeze1_lsf (x : tensor2) : one_channel := mkOneChannel x.
Definition squeeze1 (x : one_channel) : tensor2 := channel x.

(** ** SpectrumEncoder (model.py, lines 46-139) *)

Module SpectrumEncoder.

(** One [nn.Sequential(conv, norm, act, drop)] of [_conv_blocks]. *)
Record ConvBlock := mkConvBlock {
  conv : nn.Conv1d;
  norm : nn.InstanceNorm1d;
  act_parameters : nat;
  act_weight : nat -> R;
  drop : R
}.

Record t := mk {
  instrument : pyopt Instrument;
  n_latent : nat;
  n_aux : nat;
  conv1 : ConvBlock;
  conv2 : ConvBlock;
  conv3 : ConvBlock;
  n_feature : nat;
  pool1 : nn.MaxPool1d;
  pool2 : nn.MaxPool1d;
  mlp : MLP.t
}.

Definition new_Conv1d (f_in f s p : nat) : Ctor nn.Conv1d :=
  w <~ new_parameter ;;
  b <~ new_parameter ;;
  cret (nn.mkConv1d f_in f s p w (fun o => b o 0%nat 0%nat)).

(** Lines 79-92, the loop over [range(len(filters))]. *)
Fixpoint _conv_blocks_loop (filters sizes : list nat) (dropout : R)
         (range : list nat) (convs : list ConvBlock) : Ctor (list ConvBlock) :=
  match range with
  | [] => cret convs
  | i :: range' =>
      let f_in := if Nat.eqb i 0 then 1%nat else nth (i - 1) filters 0%nat in
      let f := nth i filters 0%nat in
      let s := nth i sizes 0%nat in
      let p := (s / 2)%nat in
      conv <~ new_Conv1d f_in f s p ;;
      let norm := nn.mkInstanceNorm1d f (1 / 100000) in
      w <~ new_parameter ;;
      drop <~ new_Dropout dropout ;;
      _conv_blocks_loop filters sizes dropout range'
        (convs ++ [mkConvBlock conv norm f (fun c => w c 0%nat 0%nat) drop])
  end.

Definition _conv_blocks (filters sizes : list nat) (dropout : R) : Ctor (list ConvBlock) :=
  _conv_blocks_loop filters sizes dropout (seq 0 (length filters)) [].

(** The comprehension [[nn.PReLU(n) for n in n_hidden]]. *)
Fixpoint default_act (n_hidden : list nat) : Ctor (list nn.Activation) :=
  match n_hidden with
  | [] => cret []
  | n :: rest =>
      a <~ new_PReLU n ;;
      acts <~ default_act rest ;;
      cret (a :: acts)
  end.

Definition __init__ (instrument : pyopt Instrument) (n_latent : nat) (n_hidden : list nat)
           (act : option (list nn.Activation)) (n_aux : nat) (dropout : R) : Ctor t :=
  let filters := [128; 256; 512]%nat in
  let sizes := [5; 11; 21]%nat in
  convs <~ _conv_blocks filters sizes dropout ;;
  match convs, map (fun s => nn.mkMaxPool1d s (s / 2)) (firstn 2 sizes) with
  | [conv1; conv2; conv3], [pool1; pool2] =>
      let n_feature := (last filters 0 / 2)%nat in
      act <~ (match act with
              | None =>
                  act <~ default_act n_hidden ;;
                  cret (act ++ [nn.Identity])
              | Some act => cret act
              end) ;;
      mlp <~ MLP.__init__ (n_feature + n_aux) n_latent n_hidden (Some act) dropout ;;
      cret (mk instrument n_latent n_aux conv1 conv2 conv3 n_feature pool1 pool2 mlp)
  | _, _ => craise ValueError
  end.

(** [nn.Sequential.forward] of one convolutional block. *)
Definition block_forward (training : bool) (u : nat -> nat -> nat -> R)
           (b : ConvBlock) (x : tensor3) : result tensor3 :=
  x <- nn.Conv1d_forward (conv b) x ;;
  x <- nn.InstanceNorm1d_forward (norm b) x ;;
  x <- nn.PReLU_forward3 (act_parameters b) (act_weight b) x ;;
  Ok (nn.Dropout_forward3 (drop b) training u x).

(** [torch.split(x, [C, C], dim=1)]. *)
Definition split_channels (C : nat) (x : tensor3) : result (tensor3 * tensor3) :=
  xs <- mapM (fun s => if Nat.eqb (length s) (C + C)
                       then Ok (firstn C s, skipn C s)
                       else Raise RuntimeError) x ;;
  Ok (map fst xs, map snd xs).

Definition _downsample (e : t) (training : bool) (u : nn.noise) (x : tensor2)
  : result (tensor3 * tensor3) :=
  let x := unsqueeze1 x in
  x <- block_forward training (u 0%nat) (conv1 e) x ;;
  x <- nn.MaxPool1d_forward (pool1 e) x ;;
  x <- block_forward training (u 1%nat) (conv2 e) x ;;
  x <- nn.MaxPool1d_forward (pool2 e) x ;;
  x <- block_forward training (u 2%nat) (conv3 e) x ;;
  let C := (length (hd [] x) / 2)%nat in
  split_channels C x.

(** What a forward call leaves behind apart from its value: the
    attention weights and whether [_attention_hook] was registered on
    them. *)
Record Trace := mkTrace {
  attention : tensor3;
  hook_registered : bool
}.

(** [torch.cat((x, aux), dim=-1)]. *)
Definition cat_last (x aux : tensor2) : result tensor2 :=
  if Nat.eqb (length x) (length aux)
  then Ok (map (fun '(r, a) => r ++ a) (combine x aux))
  else Raise RuntimeError.

(** [h * a] followed by [torch.sum(..., dim=2)]. *)
Definition attend (h a : tensor3) : result tensor2 :=
  ha <- bzip (t2_binop Rmult) h a ;;
  Ok (map (map Rsum) ha).

Definition forward_trace (e : t) (training requires_grad : bool) (u : nn.noise)
           (x : tensor2) (aux : pyopt tensor2) : result (tensor2 * Trace) :=
  '(h, a) <- _downsample e training u x ;;
  let a := nn.Softmax_forward a in
  let hook := andb (py_truthy (py_invert training)) (Bool.eqb requires_grad true) in
  x <- attend h a ;;
  x <- (match aux with
        | PyObj aux => cat_last x aux
        | _ => Ok x
        end) ;;
  x <- MLP.forward training (fun i j k => u (3 + i)%nat j k 0%nat) (mlp e) x ;;
  Ok (x, mkTrace a hook).

Definition forward (e : t) (training requires_grad : bool) (u : nn.noise)
           (x : tensor2) (aux : pyopt tensor2) : result tensor2 :=
  fmap fst (forward_trace e training requires_grad u x aux).

(** The mutable attribute [_attention_grad], absent until the hook runs. *)
Definition _attention_hook (grad : tensor3) (_attention_grad : option tensor3)
  : option tensor3 := Some grad.

Definition attention_grad (_attention_grad : option tensor3) : option tensor3 :=
  _attention_grad.

(** The backward pass reaching the attention weights with gradient
    [grad] calls the hook when one was registered. *)
Definition backward_attention (tr : Trace) (grad : tensor3)
           (_attention_grad : option tensor3) : option tensor3 :=
  if hook_registered tr then _attention_hook grad _attention_grad else _attention_grad.

End SpectrumEncoder.

(** ** SpectrumDecoder (model.py, lines 144-201) *)

Module SpectrumDecoder.

Record t := mk {
  mlp : MLP.t;
  n_latent : nat;
  wave_rest : tensor1
}.

Definition __init__ (wave_rest : tensor1) (n_latent : nat) (n_hidden : list nat)
           (act : option (list nn.Activation)) (dropout : R) : Ctor t :=
  mlp <~ MLP.__init__ n_latent (length wave_rest) n_hidden act dropout ;;
  cret (mk mlp n_latent wave_rest).

Definition decode (d : t) (training : bool) (u : nat -> nat -> nat -> R) (s : tensor2)
  : result tensor2 :=
  MLP.forward training u (mlp d) s.

Definition transform (interp : Interp1d_t) (d : t) (spectrum_restframe : tensor2)
           (instrument : pyopt Instrument) (z : option redshift) : result tensor2 :=
  wave_redshifted <-
    (match z with
     | None => Raise TypeError
     | Some (ZNumber z) => Ok [map (fun w => w * (1 + z)) (wave_rest d)]
     | Some (ZTensor z) => Ok (map (fun zi => map (fun w => w * (1 + zi)) (wave_rest d)) z)
     end) ;;
  let wave_obs := match instrument with
                  | PyObj i => wave_obs i
                  | _ => wave_rest d
                  end in
  spectrum <- interp wave_redshifted spectrum_restframe wave_obs ;;
  (* convolve with LSF *)
  spectrum <-
    (match instrument with
     | PyObj i =>
         match lsf i with
         | Some f => s <- f (unsqueeze1_lsf spectrum) ;; Ok (squeeze1 s)
         | None => Ok spectrum
         end
     | _ => Raise AttributeError
     end) ;;
  (* apply calibration function to observed spectrum *)
  match instrument with
  | PyNone => Ok spectrum
  | PyFalse => Raise AttributeError
  | PyObj i =>
      match calibration i with
      | Some f => f wave_obs spectrum
      | None => Ok spectrum
      end
  end.

Definition forward (interp : Interp1d_t) (d : t) (training : bool)
           (u : nat -> nat -> nat -> R) (s : tensor2)
           (instrument : pyopt Instrument) (z : option redshift) : result tensor2 :=
  spectrum <- decode d training u s ;;
  match instrument, z with
  | PyNone, None => Ok spectrum
  | _, _ => transform interp d spectrum instrument z
  end.

End SpectrumDecoder.

(** ** BaseAutoencoder (model.py, lines 205-267) *)

Module BaseAutoencoder.

Record t := mk {
  encoder : SpectrumEncoder.t;
  decoder : SpectrumDecoder.t
}.

Definition __init__ (encoder : SpectrumEncoder.t) (decoder : SpectrumDecoder.t) : Ctor t :=
  _ <~ py_assert (Nat.eqb (SpectrumEncoder.n_latent encoder)
                          (SpectrumDecoder.n_latent decoder)) ;;
  cret (mk encoder decoder).

(** The dropout sites of the decoder follow those of the encoder. *)
Definition decoder_noise (m : t) (u : nn.noise) : nat -> nat -> nat -> R :=
  fun i j k => u (3 + length (SpectrumEncoder.mlp (encoder m)) + i)%nat j k 0%nat.

Definition encode (m : t) (training requires_grad : bool) (u : nn.noise)
           (x : tensor2) (aux : pyopt tensor2) : result tensor2 :=
  SpectrumEncoder.forward (encoder m) training requires_grad u x aux.

Definition decode (interp : Interp1d_t) (m : t) (training : bool) (u : nn.noise)
           (x : tensor2) : result tensor2 :=
  SpectrumDecoder.forward interp (decoder m) training (decoder_noise m u) x PyNone None.

Definition _forward (interp : Interp1d_t) (m : t) (training requires_grad : bool)
           (u : nn.noise) (x : tensor2) (instrument : pyopt Instrument)
           (z : option redshift) (s : option tensor2) (aux : pyopt tensor2)
  : result (tensor2 * tensor2 * tensor2) :=
  s <- (match s with
        | None => encode m training requires_grad u x aux
        | Some s => Ok s
        end) ;;
  let instrument := match instrument with
                    | PyNone => SpectrumEncoder.instrument (encoder m)
                    | _ => instrument
                    end in
  spectrum_restframe <- decode interp m training u s ;;
  spectrum_observed <-
    SpectrumDecoder.transform interp (decoder m) spectrum_restframe instrument z ;;
  Ok (s, spectrum_restframe, spectrum_observed).

Definition forward (interp : Interp1d_t) (m : t) (training requires_grad : bool)
           (u : nn.noise) (x : tensor2) (instrument : pyopt Instrument)
           (z : option redshift) (s : option tensor2) (aux : pyopt tensor2)
  : result tensor2 :=
  '(s, spectrum_restframe, spectrum_observed) <-
    _forward interp m training requires_grad u x instrument z s aux ;;
  Ok spectrum_observed.

(** The value of [loss]: the per-sample vector or its sum. *)
Inductive loss_value :=
| PerSample (loss_ind : tensor1)
| Summed (total : R).

Definition _loss (x w spectrum_observed : tensor2) (individual : bool)
  : result loss_value :=
  let half_w := map (map (Rmult (1 / 2))) w in
  d <- t2_binop Rminus x spectrum_observed ;;
  let d2 := map (map (fun v => v * v)) d in
  p <- t2_binop Rmult half_w d2 ;;
  let loss_ind := map (fun row => Rsum row / INR (shape1 x)) p in
  if individual then Ok (PerSample loss_ind)
  else Ok (Summed (Rsum loss_ind)).

Definition loss (interp : Interp1d_t) (m : t) (training requires_grad : bool)
           (u : nn.noise) (x w : tensor2) (instrument : pyopt Instrument)
           (z : option redshift) (s : option tensor2) (aux : pyopt tensor2)
           (individual : bool) : result loss_value :=
  spectrum_observed <- forward interp m training requires_grad u x instrument z s aux ;;
  _loss x w spectrum_observed individual.

End BaseAutoencoder.

(** ** SpectrumAutoencoder (model.py, lines 269-291) *)

Module SpectrumAutoencoder.

Definition __init__ (instrument : pyopt Instrument) (wave_rest : tensor1) (n_latent n_aux : nat)
           (n_hidden : list nat) (act : option (list nn.Activation))
  : Ctor BaseAutoencoder.t :=
  encoder <~ SpectrumEncoder.__init__ instrument n_latent [128; 64; 32]%nat None n_aux 0 ;;
  decoder <~ SpectrumDecoder.__init__ wave_rest n_latent n_hidden act 0 ;;
  BaseAutoencoder.__init__ encoder decoder.

End SpectrumAutoencoder.

(** ** The layers that [MLP.__init__] builds, as a function of the generator *)

(** The activations that [MLP.__init__] uses: the given list, or
    [len(n_hidden) + 1] copies of [LeakyReLU()]. *)
Definition act_of (n_hidden : list nat) (act : option (list nn.Activation)) :=
  match act with
  | None => repeat (nn.LeakyReLU (1 / 100)) (length n_hidden + 1)
  | Some act => act
  end.


(** The [Linear, act[i], Dropout] triples for the indices of [range], the
    first parameter tensor being number [k]. *)
Fixpoint built_layers (draw : nat -> nat -> nat -> nat -> R) (n_ : list nat)
         (act : list nn.Activation) (dropout : R) (k : nat) (range : list nat)
  : list MLP.Layer :=
  match range with
  | [] => []
  | i :: range' =>
      [MLP.Lin (nn.mkLinear (nth i n_ 0%nat) (nth (i + 1) n_ 0%nat)
                            (fun o j => draw k o j 0%nat)
                            (fun o => draw (S k) o 0%nat 0%nat));
       MLP.Act (nth i act nn.Identity);
       MLP.Drop dropout]
      ++ built_layers draw n_ act dropout (S (S k)) range'
  end.

(** ** The encoder that [SpectrumEncoder.__init__] builds *)

(** The block of [_conv_blocks] whose first parameter tensor is number [k]. *)
Definition conv_block_of (draw : nat -> nat -> nat -> nat -> R) (k f_in f s : nat)
           (dropout : R) : SpectrumEncoder.ConvBlock :=
  SpectrumEncoder.mkConvBlock
    (nn.mkConv1d f_in f s (s / 2) (draw k) (fun o => draw (S k) o 0%nat 0%nat))
    (nn.mkInstanceNorm1d f (1 / 100000))
    f
    (fun c => draw (S (S k)) c 0%nat 0%nat)
    dropout.

(** [[nn.PReLU(n) for n in n_hidden]], the first slope tensor being
    number [k]. *)
Definition default_act_of (draw : nat -> nat -> nat -> nat -> R) (k : nat)
           (n_hidden : list nat) : list nn.Activation :=
  imap_from k (fun k n => nn.PReLU n (fun c => draw k c 0%nat 0%nat)) n_hidden.

(** The activation list of the encoder's dense block and the number of
    parameter tensors that making it allocates. *)
Definition encoder_act (draw : nat -> nat -> nat -> nat -> R) (k : nat)
           (n_hidden : list nat) (act : option (list nn.Activation)) :=
  match act with
  | None => default_act_of draw k n_hidden ++ [nn.Identity]
  | Some act => act
  end.

Definition encoder_act_tensors (n_hidden : list nat) (act : option (list nn.Activation)) :=
  match act with
  | None => length n_hidden
  | Some _ => 0%nat
  end.

Definition encoder_of (g : Generator) (instrument : pyopt Instrument)
           (n_latent : nat) (n_hidden : list nat) (act : option (list nn.Activation))
           (n_aux : nat) (dropout : R) : SpectrumEncoder.t :=
  let k := allocated g in
  SpectrumEncoder.mk instrument n_latent n_aux
    (conv_block_of (draw g) k 1 128 5 dropout)
    (conv_block_of (draw g) (k + 3) 128 256 11 dropout)
    (conv_block_of (draw g) (k + 6) 256 512 21 dropout)
    256
    (nn.mkMaxPool1d 5 2)
    (nn.mkMaxPool1d 11 5)
    (built_layers (draw g) ([256 + n_aux] ++ n_hidden ++ [n_latent])%nat
                  (encoder_act (draw g) (k + 9) n_hidden act) dropout
                  (k + 9 + encoder_act_tensors n_hidden act)
                  (seq 0 (length n_hidden + 1))).

(** ** The loss in the words of the spec *)

(** One bin: [0.5 * weight * (input - reconstruction)^2]. *)
Definition weighted_square (x w r : R) : R := 1 / 2 * w * (x - r) ^ 2.

Definition zip3 {A B} (f : A -> A -> A -> B) (xs ws rs : list A) : list B :=
  map (fun '(x, w, r) => f x w r) (combine (combine xs ws) rs).

(** One sample: the sum over its bins divided by the number of bins [L]. *)
Definition per_sample_loss (L : nat) (x w r : tensor1) : R :=
  Rsum (zip3 weighted_square x w r) / INR L.

Definition loss_ind_spec (L : nat) (x w r : tensor2) : tensor1 :=
  zip3 (per_sample_loss L) x w r.

(** ** Permutations of the batch axis *)

(** [x[p]]: the samples of [x] at the indices [p], in that order. *)
Definition permute {A} (p : list nat) (l : list A) : list A :=
  flat_map (fun i => match nth_error l i with
                     | Some a => [a]
                     | None => []
                     end) p.

(** The dropout draws of the permuted batch: sample [j] of the permuted
    batch is sample [p_j] of the original one. *)
Definition permute_noise (p : list nat) (u : nn.noise) : nn.noise :=
  fun site j c t => u site (nth j p 0%nat) c t.

Definition permute_aux (p : list nat) (aux : pyopt tensor2) : pyopt tensor2 :=
  match aux with
  | PyObj a => PyObj (permute p a)
  | PyFalse => PyFalse
  | PyNone => PyNone
  end.

Definition permute_loss (p : list nat) (v : BaseAutoencoder.loss_value)
  : BaseAutoencoder.loss_value :=
  match v with
  | BaseAutoencoder.PerSample loss_ind => BaseAutoencoder.PerSample (permute p loss_ind)
  | BaseAutoencoder.Summed total => BaseAutoencoder.Summed total
  end.

(** [r'] is the outcome [r] seen through the action [act] on results:
    the same value up to [act], or an exception on both sides. *)
Definition equi {B} (act : B -> B) (valid : B -> Prop) (r r' : result B) : Prop :=
  match r with
  | Ok y => valid y /\ r' = Ok (act y)
  | Raise _ => raises r'
  end.

(** ** The decoder that [SpectrumDecoder.__init__] builds *)

Definition decoder_of (g : Generator) (wave_rest : tensor1) (n_latent : nat)
           (n_hidden : list nat) (act : option (list nn.Activation)) (dropout : R)
  : SpectrumDecoder.t :=
  SpectrumDecoder.mk
    (built_layers (draw g) ([n_latent] ++ n_hidden ++ [length wave_rest])
                  (act_of n_hidden act) dropout (allocated g)
                  (seq 0 (length n_hidden + 1)))
    n_latent wave_rest.

(** ** Shapes and side conditions *)

(** A sample with [C] channels of [L] positions each. *)
Definition shaped (C L : nat) (s : list tensor1) : Prop :=
  length s = C /\ Forall (fun row => length row = L) s.

Definition shaped3 (C L : nat) (x : tensor3) : Prop := Forall (shaped C L) x.

(** A sample with [C] channels whose rows all have one length, at least 1. *)
Definition channels (C : nat) (s : list tensor1) : Prop :=
  exists L, (0 < L)%nat /\ shaped C L s.

(** An activation that accepts rows of width [w] and keeps the width. *)
Definition act_ok (a : nn.Activation) (w : nat) : Prop :=
  match a with
  | nn.PReLU n _ => n = 1%nat \/ n = w
  | nn.SpeculatorActivation n _ _ _ => n = w \/ n = 1%nat
  | _ => True
  end.

(** The number of positions left after the two pooling layers. *)
Definition downsampled_length (L : nat) : nat :=
  nn.pooled_length 11 5 (nn.pooled_length 5 2 L).

(** Auxiliary features that fit an encoder with [n_aux] of them on a
    batch of [N] samples. *)
Definition aux_ok (n_aux N : nat) (aux : pyopt tensor2) : Prop :=
  match aux with
  | PyObj a => length a = N /\ Forall (fun row => length row = n_aux) a
  | _ => n_aux = 0%nat
  end.

(** Activations that fit the widths of a dense block. *)
Definition acts_ok (acts : list nn.Activation) (n_hidden : list nat) (n_out : nat) : Prop :=
  forall i, (i <= length n_hidden)%nat ->
            act_ok (nth i acts nn.Identity) (nth i (n_hidden ++ [n_out]) 0%nat).

(** The layers of a dense block with the dropout layers left out. *)
Fixpoint without_dropout (m : MLP.t) (x : tensor2) : result tensor2 :=
  match m with
  | [] => Ok x
  | MLP.Drop _ :: m' => without_dropout m' x
  | l :: m' => x <- MLP.layer_forward false (fun _ _ => 0) l x ;; without_dropout m' x
  end.

(** One convolutional block with its dropout layer left out. *)
Definition block_without_dropout (b : SpectrumEncoder.ConvBlock) (x : tensor3)
  : result tensor3 :=
  x <- nn.Conv1d_forward (SpectrumEncoder.conv b) x ;;
  x <- nn.InstanceNorm1d_forward (SpectrumEncoder.norm b) x ;;
  nn.PReLU_forward3 (SpectrumEncoder.act_parameters b) (SpectrumEncoder.act_weight b) x.

(** The action of the permutation on the two halves of the feature map. *)
Definition permute_pair (p : list nat) (ha : tensor3 * tensor3) : tensor3 * tensor3 :=
  (permute p (fst ha), permute p (snd ha)).

(** The action of the permutation on a latent batch and its trace. *)
Definition permute_traced (p : list nat) (yt : tensor2 * SpectrumEncoder.Trace) :=
  (permute p (fst yt),
   SpectrumEncoder.mkTrace (permute p (SpectrumEncoder.attention (snd yt)))
                           (SpectrumEncoder.hook_registered (snd yt))).

(** ** Concrete instances *)

(** A generator whose draws are all zero, dropout draws that are all
    zero, and a spectrum of [L] zero fluxes. *)
Definition zero_generator : Generator := mkGen (fun _ _ _ _ => 0) 0.
Definition zero_noise : nn.noise := fun _ _ _ _ => 0.
Definition flat_spectrum (L : nat) : tensor1 := repeat 0 L.

(** A resampling for the examples.  Like the routine of [torchinterp1d]
    called with a 1-D new grid, it returns one row for each row of the
    source grid [x], so a single row when the redshift is a number; row
    [j] holds the first flux of spectrum [j] on the whole new grid. *)
Definition hold_first : Interp1d_t :=
  fun x y xnew => Ok (imap (fun j _ => map (fun _ => hd 0 (nth j y [])) xnew) x).

(** An instrument with 56 bins, no line-spread function and no
    calibration, and the autoencoder
    [BaseAutoencoder(SpectrumEncoder(instrument, 2, n_hidden=(3,), n_aux=0),
                     SpectrumDecoder(wave_rest, 2, n_hidden=(4,)))]. *)
Definition plain_instrument : Instrument := mkInstrument (flat_spectrum 56) None None.


(** [SpectrumEncoder(None, 2, n_hidden=(3,), n_aux=n_aux)]. *)
Definition small_encoder (n_aux : nat) : SpectrumEncoder.t :=
  encoder_of zero_generator PyNone 2 [3]%nat None n_aux 0.

(** ** Trainable parameters (model.py, lines 127-129, 199-201, 257-259)

    [n_parameters] sums [numel()] over the parameters that require a
    gradient.  Every parameter of these modules is created requiring one:
    the weight and bias of [nn.Linear] and [nn.Conv1d], the slopes of
    [nn.PReLU], [beta] and [gamma] of [SpeculatorActivation];
    [nn.InstanceNorm1d] is created without affine parameters, and the
    wavelength grid of the decoder is a buffer.  The modules of an [act]
    list are taken to be distinct objects. *)

Definition Zsum (l : list Z) : Z := fold_right Z.add 0%Z l.

Definition numel_Linear (l : nn.Linear) : Z :=
  (Z.of_nat (nn.out_features l) * Z.of_nat (nn.in_features l)
   + Z.of_nat (nn.out_features l))%Z.

Definition numel_Activation (a : nn.Activation) : Z :=
  match a with
  | nn.PReLU n _ => Z.of_nat n
  | nn.SpeculatorActivation n _ _ _ => (Z.of_nat n + Z.of_nat n)%Z
  | _ => 0%Z
  end.

Definition numel_Layer (l : MLP.Layer) : Z :=
  match l with
  | MLP.Lin l => numel_Linear l
  | MLP.Act a => numel_Activation a
  | MLP.Drop _ => 0%Z
  end.

Definition MLP_n_parameters (m : MLP.t) : Z := Zsum (map numel_Layer m).

Definition numel_Conv1d (c : nn.Conv1d) : Z :=
  (Z.of_nat (nn.out_channels c) * Z.of_nat (nn.in_channels c) * Z.of_nat (nn.kernel_size c)
   + Z.of_nat (nn.out_channels c))%Z.

Definition numel_ConvBlock (b : SpectrumEncoder.ConvBlock) : Z :=
  (numel_Conv1d (SpectrumEncoder.conv b) + Z.of_nat (SpectrumEncoder.act_parameters b))%Z.

(** [SpectrumEncoder.n_parameters]. *)
Definition encoder_n_parameters (e : SpectrumEncoder.t) : Z :=
  (numel_ConvBlock (SpectrumEncoder.conv1 e)
   + numel_ConvBlock (SpectrumEncoder.conv2 e)
   + numel_ConvBlock (SpectrumEncoder.conv3 e)
   + MLP_n_parameters (SpectrumEncoder.mlp e))%Z.

(** [SpectrumDecoder.n_parameters]. *)
Definition decoder_n_parameters (d : SpectrumDecoder.t) : Z :=
  MLP_n_parameters (SpectrumDecoder.mlp d).

(** [BaseAutoencoder.n_parameter]. *)
Definition autoencoder_n_parameter (m : BaseAutoencoder.t) : Z :=
  (encoder_n_parameters (BaseAutoencoder.encoder m)
   + decoder_n_parameters (BaseAutoencoder.decoder m))%Z.

(** The entries of the affine layers that map [n_in] inputs through the
    given widths: a weight matrix and a bias per layer. *)
Fixpoint affine_parameters (n_in : nat) (widths : list nat) : Z :=
  match widths with
  | [] => 0%Z
  | w :: rest =>
      (Z.of_nat w * Z.of_nat n_in + Z.of_nat w + affine_parameters w rest)%Z
  end.

(** ** Properties of the wavelength grids (model.py, lines 261-267) *)

(** [BaseAutoencoder.wave_obs]: the grid of the encoder's instrument. *)
Definition autoencoder_wave_obs (m : BaseAutoencoder.t) : result tensor1 :=
  match SpectrumEncoder.instrument (BaseAutoencoder.encoder m) with
  | PyObj i => Ok (wave_obs i)
  | _ => Raise AttributeError
  end.

(** [BaseAutoencoder.wave_rest]. *)
Definition autoencoder_wave_rest (m : BaseAutoencoder.t) : tensor1 :=
  SpectrumDecoder.wave_rest (BaseAutoencoder.decoder m).

(** ** Side conditions of the further properties *)

(** The offset that [plus_one] adds. *)
Definition plus_one_offset (plus_one : bool) : R := if plus_one then 1 else 0.

(** Two batches (of the shape of the weights) that differ only in bins
    of weight zero. *)
Definition agree_where_weighted (x x' w : tensor2) : Prop :=
  Forall (fun '(xr, xr', wr) =>
            Forall (fun '(a, a', b) => b = 0 \/ a = a') (combine (combine xr xr') wr))
         (combine (combine x x') w).

(** An interpolation that returns the given values when it is asked for
    them on the grid of their own knots. *)
Definition exact_at_knots (interp : Interp1d_t) (grid : tensor1) : Prop :=
  forall y, Forall (fun row => length row = length grid) y -> interp [grid] y grid = Ok y.

(** An interpolation that returns a single spectrum unchanged when it is
    asked for it on the grid of its own knots. *)
Definition exact_at_knots_of_one (interp : Interp1d_t) (grid : tensor1) : Prop :=
  forall row, length row = length grid -> interp [grid] [row] grid = Ok [row].

(** A resampling for the examples that hands on, unchanged, the spectrum
    of each row of the source grid [x]: the first spectrum only when the
    grid has one row. *)
Definition pass_through : Interp1d_t := fun x y xnew => Ok (firstn (length x) y).


(** * Properties *)

(** ** The error monad on lists *)

Lemma bind_Ok {A B} (m : result A) (k : A -> result B) (b : B) :
  bind m k = Ok b -> exists a, m = Ok a /\ k a = Ok b.
Proof. destruct m as [a|e]; cbn; [eauto | discriminate]. Qed.

Ltac inv_bind H :=
  let a := fresh "v" in
  let Ha := fresh "Hv" in
  apply bind_Ok in H; destruct H as (a & Ha & H).

Lemma imapM_from_Forall2 {A B} (f : nat -> A -> result B) l :
  forall k bs,
    imapM_from k f l = Ok bs ->
    Forall2 (fun a b => exists i, f i a = Ok b) l bs.
Proof.
  induction l as [|a l IH]; intros k bs H; cbn in H.
  - injection H as <-. constructor.
  - inv_bind H. inv_bind H. injection H as <-.
    constructor; eauto.
Qed.

Lemma mapM_Forall2 {A B} (f : A -> result B) l bs :
  mapM f l = Ok bs -> Forall2 (fun a b => f a = Ok b) l bs.
Proof.
  intros H. apply imapM_from_Forall2 in H.
  induction H as [|a b l bs [i Hab] _ IH]; constructor; assumption.
Qed.

Lemma imapM_from_length {A B} (f : nat -> A -> result B) l k bs :
  imapM_from k f l = Ok bs -> length bs = length l.
Proof.
  intros H. apply imapM_from_Forall2 in H. symmetry. eapply Forall2_length; eauto.
Qed.

Lemma mapM_length {A B} (f : A -> result B) l bs :
  mapM f l = Ok bs -> length bs = length l.
Proof. apply imapM_from_length. Qed.

Lemma imapM_from_total {A B} (f : nat -> A -> result B) (P : A -> Prop) (Q : B -> Prop) l :
  (forall i a, P a -> exists b, f i a = Ok b /\ Q b) ->
  Forall P l ->
  forall k, exists bs, imapM_from k f l = Ok bs /\ Forall Q bs /\ length bs = length l.
Proof.
  intros Hf. induction 1 as [|a l Ha _ IH]; intros k.
  - exists []. cbn. auto.
  - destruct (Hf k a Ha) as (b & Hb & Qb). destruct (IH (S k)) as (bs & Hbs & Qbs & Hlen).
    exists (b :: bs). cbn. rewrite Hb. cbn. rewrite Hbs. cbn.
    repeat split; auto.
Qed.

Lemma mapM_total {A B} (f : A -> result B) (P : A -> Prop) (Q : B -> Prop) l :
  (forall a, P a -> exists b, f a = Ok b /\ Q b) ->
  Forall P l ->
  exists bs, mapM f l = Ok bs /\ Forall Q bs /\ length bs = length l.
Proof. intros Hf Hl. apply (imapM_from_total (fun _ => f) P Q); auto. Qed.

(** What a successful [mapM] says about each result. *)
Lemma mapM_Forall {A B} (f : A -> result B) (Q : B -> Prop) l bs :
  (forall a b, f a = Ok b -> Q b) ->
  mapM f l = Ok bs -> Forall Q bs.
Proof.
  intros Hf H. apply mapM_Forall2 in H.
  induction H; constructor; eauto.
Qed.

Lemma imap_from_length {A B} (f : nat -> A -> B) l : forall k, length (imap_from k f l) = length l.
Proof. induction l as [|a l IH]; intros k; cbn; [reflexivity | now rewrite IH]. Qed.

Lemma imap_length {A B} (f : nat -> A -> B) l : length (imap f l) = length l.
Proof. apply imap_from_length. Qed.

Lemma imap_from_Forall {A B} (f : nat -> A -> B) (P : A -> Prop) (Q : B -> Prop) l :
  (forall i a, P a -> Q (f i a)) ->
  Forall P l -> forall k, Forall Q (imap_from k f l).
Proof. intros Hf. induction 1; intros k; cbn; constructor; auto. Qed.

Lemma imap_Forall {A B} (f : nat -> A -> B) (P : A -> Prop) (Q : B -> Prop) l :
  (forall i a, P a -> Q (f i a)) -> Forall P l -> Forall Q (imap f l).
Proof. intros Hf Hl. now apply imap_from_Forall with (P := P). Qed.

Lemma Forall_map_iff {A B} (f : A -> B) (Q : B -> Prop) l :
  Forall Q (map f l) <-> Forall (fun a => Q (f a)) l.
Proof. apply Forall_map. Qed.

(** ** Shapes through the layers *)

Lemma positions_shaped C L s : shaped C L s -> (0 < C)%nat -> nn.positions s = L.
Proof.
  intros [Hlen Hrows] HC. destruct s as [|row s]; cbn in *; [lia|].
  now inversion Hrows.
Qed.

Lemma shaped_map_seq C L (f : nat -> nat -> R) :
  shaped C L (map (fun o => map (f o) (seq 0 L)) (seq 0 C)).
Proof.
  split.
  - now rewrite length_map, length_seq.
  - apply Forall_map. apply Forall_forall. intros o _.
    now rewrite length_map, length_seq.
Qed.

Lemma conv1d_sample_shape c s y :
  nn.conv1d_sample c s = Ok y ->
  shaped (nn.out_channels c) (nn.positions s + 2 * nn.padding c - nn.kernel_size c + 1) y.
Proof.
  unfold nn.conv1d_sample.
  destruct (negb _); [discriminate|]. destruct (Nat.ltb _ _); [discriminate|].
  intros H. injection H as <-. apply shaped_map_seq.
Qed.

Lemma conv1d_sample_ok c s C L :
  shaped C L s -> (0 < C)%nat -> C = nn.in_channels c ->
  (nn.kernel_size c <= L + 2 * nn.padding c)%nat ->
  exists y, nn.conv1d_sample c s = Ok y
            /\ shaped (nn.out_channels c) (L + 2 * nn.padding c - nn.kernel_size c + 1) y.
Proof.
  intros Hs HC -> Hk.
  pose proof (positions_shaped _ _ _ Hs HC) as Hpos.
  unfold nn.conv1d_sample. destruct Hs as [Hlen _].
  rewrite Hlen, Nat.eqb_refl. cbn [negb]. rewrite Hpos.
  destruct (Nat.ltb_spec (L + 2 * nn.padding c) (nn.kernel_size c)); [lia|].
  eexists. split; [reflexivity|]. apply shaped_map_seq.
Qed.

Lemma norm_row_length e row : length (nn.norm_row e row) = length row.
Proof. unfold nn.norm_row. now rewrite length_map. Qed.

Lemma instance_norm_sample_shape m s y C L :
  nn.instance_norm_sample m s = Ok y -> shaped C L s -> shaped C L y.
Proof.
  unfold nn.instance_norm_sample. destruct (Nat.eqb _ _); [discriminate|].
  intros H [Hlen Hrows]. injection H as <-. split.
  - now rewrite length_map.
  - apply Forall_map. eapply Forall_impl; [|exact Hrows].
    intros row Hrow. now rewrite norm_row_length.
Qed.

Lemma instance_norm_sample_ok m s C L :
  shaped C L s -> (0 < C)%nat -> L <> 1%nat ->
  exists y, nn.instance_norm_sample m s = Ok y /\ shaped C L y.
Proof.
  intros Hs HC HL. pose proof (positions_shaped _ _ _ Hs HC) as Hpos.
  unfold nn.instance_norm_sample. rewrite Hpos.
  destruct (Nat.eqb_spec L 1); [contradiction|].
  eexists. split; [reflexivity|].
  eapply instance_norm_sample_shape; [|exact Hs].
  unfold nn.instance_norm_sample. rewrite Hpos.
  destruct (Nat.eqb_spec L 1); [contradiction|reflexivity].
Qed.

Lemma prelu_channels_length {A} (scale : R -> A -> A) n w v y :
  nn.prelu_channels scale n w v = Ok y -> length y = length v.
Proof.
  unfold nn.prelu_channels.
  destruct (Nat.eqb n 1); [|destruct (Nat.eqb n (length v))]; intros H;
    try discriminate; injection H as <-.
  - apply length_map.
  - apply imap_length.
Qed.

Lemma prelu3_sample_shape n w s y C L :
  nn.prelu_channels (fun a row => map (nn.leaky a) row) n w s = Ok y ->
  shaped C L s -> shaped C L y.
Proof.
  intros H [Hlen Hrows]. split.
  - apply prelu_channels_length in H. congruence.
  - unfold nn.prelu_channels in H.
    destruct (Nat.eqb n 1); [|destruct (Nat.eqb n (length s))];
      try discriminate; injection H as <-.
    + apply Forall_map. eapply Forall_impl; [|exact Hrows].
      intros row Hrow. now rewrite length_map.
    + eapply imap_Forall; [|exact Hrows].
      intros i row Hrow. cbn. now rewrite length_map.
Qed.

Lemma prelu3_sample_ok n w s C L :
  shaped C L s -> n = C ->
  exists y, nn.prelu_channels (fun a row => map (nn.leaky a) row) n w s = Ok y
            /\ shaped C L y.
Proof.
  intros Hs ->.
  assert (exists y, nn.prelu_channels (fun a row => map (nn.leaky a) row) C w s = Ok y)
    as [y Hy].
  { unfold nn.prelu_channels. destruct (Nat.eqb C 1); [eauto|].
    destruct Hs as [-> _]. rewrite Nat.eqb_refl. eauto. }
  exists y. split; [exact Hy|]. eapply prelu3_sample_shape; eauto.
Qed.

Lemma dropout3_sample_shape p training (u : nat -> nat -> R) s C L :
  shaped C L s ->
  shaped C L (imap (fun c => imap (fun t => nn.dropout_entry p training (u c t))) s).
Proof.
  intros [Hlen Hrows]. split.
  - now rewrite imap_length.
  - eapply imap_Forall; [|exact Hrows]. intros i row Hrow. cbn.
    now rewrite imap_length.
Qed.

Lemma maxpool_sample_shape m s y C L :
  nn.maxpool_sample m s = Ok y -> shaped C L s -> (0 < C)%nat ->
  shaped C (nn.pooled_length (nn.pool_kernel m) (nn.pool_padding m) L) y.
Proof.
  unfold nn.maxpool_sample. destruct (Nat.ltb _ _); [discriminate|].
  intros H Hs HC. rewrite (positions_shaped _ _ _ Hs HC) in H.
  destruct Hs as [Hlen Hrows]. injection H as <-. split.
  - now rewrite length_map.
  - apply Forall_map. apply Forall_forall. intros row _.
    now rewrite length_map, length_seq.
Qed.

Lemma maxpool_sample_ok m s C L :
  shaped C L s -> (0 < C)%nat ->
  (nn.pool_kernel m <= L + 2 * nn.pool_padding m)%nat ->
  exists y, nn.maxpool_sample m s = Ok y
            /\ shaped C (nn.pooled_length (nn.pool_kernel m) (nn.pool_padding m) L) y.
Proof.
  intros Hs HC Hk.
  assert (exists y, nn.maxpool_sample m s = Ok y) as [y Hy].
  { unfold nn.maxpool_sample. rewrite (positions_shaped _ _ _ Hs HC).
    destruct (Nat.ltb_spec (L + 2 * nn.pool_padding m) (nn.pool_kernel m)); [lia|eauto]. }
  exists y. split; [exact Hy|]. eapply maxpool_sample_shape; eauto.
Qed.

Lemma mapM_Forall_pres {A B} (f : A -> result B) (P : A -> Prop) (Q : B -> Prop) l bs :
  (forall a b, P a -> f a = Ok b -> Q b) ->
  Forall P l -> mapM f l = Ok bs -> Forall Q bs.
Proof.
  intros Hf Hl H. apply mapM_Forall2 in H.
  induction H as [|a b l bs Hab _ IH]; constructor; inversion Hl; subst; eauto.
Qed.

Lemma dropout3_shape p training u x C L :
  shaped3 C L x -> shaped3 C L (nn.Dropout_forward3 p training u x).
Proof.
  intros Hx. unfold nn.Dropout_forward3.
  eapply imap_Forall; [|exact Hx]. intros j s Hs. now apply dropout3_sample_shape.
Qed.

Lemma dropout3_channels p training u x C :
  Forall (channels C) x -> Forall (channels C) (nn.Dropout_forward3 p training u x).
Proof.
  intros Hx. unfold nn.Dropout_forward3.
  eapply imap_Forall; [|exact Hx]. intros j s (L & HL & Hs). exists L. split; [exact HL|].
  now apply dropout3_sample_shape.
Qed.

Lemma dropout3_length p training u x : length (nn.Dropout_forward3 p training u x) = length x.
Proof. apply imap_length. Qed.

(** A block that returns has produced, for every sample, as many channels
    as the convolution has filters, each with at least one position. *)
Lemma block_forward_channels training u b x y :
  SpectrumEncoder.block_forward training u b x = Ok y ->
  Forall (channels (nn.out_channels (SpectrumEncoder.conv b))) y /\ length y = length x.
Proof.
  unfold SpectrumEncoder.block_forward. intros H.
  inv_bind H. inv_bind H. inv_bind H. injection H as <-.
  set (C := nn.out_channels (SpectrumEncoder.conv b)).
  assert (Forall (channels C) v) as Hc.
  { eapply mapM_Forall; [|exact Hv].
    intros s y Hy. apply conv1d_sample_shape in Hy. eexists. split; [|exact Hy]. lia. }
  assert (Forall (channels C) v0) as Hc0.
  { eapply (mapM_Forall_pres _ (channels C)); [|exact Hc|exact Hv0].
    intros s y (L & HL & Hs) Hy. exists L. split; [exact HL|].
    exact (instance_norm_sample_shape _ _ _ _ _ Hy Hs). }
  assert (Forall (channels C) v1) as Hc1.
  { eapply (mapM_Forall_pres _ (channels C)); [|exact Hc0|exact Hv1].
    intros s y (L & HL & Hs) Hy. exists L. split; [exact HL|].
    exact (prelu3_sample_shape _ _ _ _ _ _ Hy Hs). }
  split.
  - apply dropout3_channels. exact Hc1.
  - rewrite dropout3_length.
    apply mapM_length in Hv, Hv0, Hv1. congruence.
Qed.

Lemma block_forward_ok training u b x C L :
  shaped3 C L x -> (0 < C)%nat ->
  C = nn.in_channels (SpectrumEncoder.conv b) ->
  (nn.kernel_size (SpectrumEncoder.conv b) <= L + 2 * nn.padding (SpectrumEncoder.conv b))%nat ->
  (L + 2 * nn.padding (SpectrumEncoder.conv b) - nn.kernel_size (SpectrumEncoder.conv b) + 1
   <> 1)%nat ->
  (0 < nn.out_channels (SpectrumEncoder.conv b))%nat ->
  SpectrumEncoder.act_parameters b = nn.out_channels (SpectrumEncoder.conv b) ->
  exists y,
    SpectrumEncoder.block_forward training u b x = Ok y
    /\ shaped3 (nn.out_channels (SpectrumEncoder.conv b))
               (L + 2 * nn.padding (SpectrumEncoder.conv b)
                - nn.kernel_size (SpectrumEncoder.conv b) + 1) y
    /\ length y = length x.
Proof.
  intros Hx HC HCin Hk HL Hout Hact. unfold SpectrumEncoder.block_forward.
  destruct (mapM_total (nn.conv1d_sample (SpectrumEncoder.conv b)) _ _ x
              (fun s Hs => conv1d_sample_ok _ s C L Hs HC HCin Hk) Hx)
    as (x1 & H1 & Hx1 & Hlen1).
  unfold nn.Conv1d_forward. rewrite H1. cbn [bind].
  destruct (mapM_total (nn.instance_norm_sample (SpectrumEncoder.norm b)) _ _ x1
              (fun s Hs => instance_norm_sample_ok _ s _ _ Hs Hout HL) Hx1)
    as (x2 & H2 & Hx2 & Hlen2).
  unfold nn.InstanceNorm1d_forward. rewrite H2. cbn [bind].
  destruct (mapM_total
              (nn.prelu_channels (fun a row => map (nn.leaky a) row)
                                 (SpectrumEncoder.act_parameters b)
                                 (SpectrumEncoder.act_weight b)) _ _ x2
              (fun s Hs => prelu3_sample_ok _ (SpectrumEncoder.act_weight b) s _ _ Hs Hact) Hx2)
    as (x3 & H3 & Hx3 & Hlen3).
  unfold nn.PReLU_forward3. rewrite H3. cbn [bind].
  eexists. split; [reflexivity|]. split.
  - apply dropout3_shape. exact Hx3.
  - rewrite dropout3_length. congruence.
Qed.

Lemma maxpool_forward_ok m x C L :
  shaped3 C L x -> (0 < C)%nat ->
  (nn.pool_kernel m <= L + 2 * nn.pool_padding m)%nat ->
  exists y, nn.MaxPool1d_forward m x = Ok y
            /\ shaped3 C (nn.pooled_length (nn.pool_kernel m) (nn.pool_padding m) L) y
            /\ length y = length x.
Proof.
  intros Hx HC Hk.
  exact (mapM_total (nn.maxpool_sample m) _ _ x
           (fun s Hs => maxpool_sample_ok m s C L Hs HC Hk) Hx).
Qed.

(** ** MLP construction *)

Lemma new_Dropout_ok p g : 0 <= p <= 1 -> new_Dropout p g = (g, Ok p).
Proof.
  intros [H0 H1]. unfold new_Dropout.
  destruct (Rlt_dec p 0); [lra|]. destruct (Rlt_dec 1 p); [lra|]. reflexivity.
Qed.

Lemma new_Dropout_refuses p g : ~ 0 <= p <= 1 -> new_Dropout p g = (g, Raise ValueError).
Proof.
  intros H. unfold new_Dropout.
  destruct (Rlt_dec p 0); [reflexivity|]. destruct (Rlt_dec 1 p); [reflexivity|].
  exfalso. apply H. lra.
Qed.

Lemma loop_built n_ act dropout range :
  0 <= dropout <= 1 ->
  forall layer g,
    Forall (fun i => (i < length act)%nat) range ->
    MLP.loop n_ act dropout range layer g =
      (mkGen (draw g) (allocated g + 2 * length range),
       Ok (layer ++ built_layers (draw g) n_ act dropout (allocated g) range)).
Proof.
  intros Hp.
  induction range as [|i range IH]; intros layer g Hall.
  - cbn. rewrite app_nil_r, Nat.add_0_r. destruct g; reflexivity.
  - inversion Hall as [|? ? Hi Hrest]; subst.
    destruct (nth_error act i) as [a|] eqn:Ha.
    2:{ apply nth_error_None in Ha. lia. }
    cbn [MLP.loop]. unfold cbind at 1. unfold new_Linear, cbind, new_parameter, cret.
    cbn [draw allocated]. rewrite Ha. rewrite (new_Dropout_ok dropout _ Hp).
    rewrite IH by assumption. cbn [draw allocated length built_layers].
    f_equal.
    + f_equal. lia.
    + rewrite <- app_assoc. cbn [app]. do 3 f_equal.
      rewrite (nth_error_nth _ _ nn.Identity Ha). reflexivity.
Qed.

Lemma length_built_layers draw n_ act dropout range :
  forall k, length (built_layers draw n_ act dropout k range) = (3 * length range)%nat.
Proof.
  induction range as [|i range IH]; intros k; cbn [built_layers length app].
  - reflexivity.
  - rewrite IH. lia.
Qed.

Lemma MLP_init_ok n_in n_out n_hidden act dropout g :
  0 <= dropout <= 1 ->
  length (act_of n_hidden act) = (length n_hidden + 1)%nat ->
  MLP.__init__ n_in n_out n_hidden act dropout g =
    (mkGen (draw g) (allocated g + 2 * (length n_hidden + 1)),
     Ok (built_layers (draw g) ([n_in] ++ n_hidden ++ [n_out]) (act_of n_hidden act)
                      dropout (allocated g) (seq 0 (length n_hidden + 1)))).
Proof.
  intros Hp Hlen. unfold MLP.__init__. fold (act_of n_hidden act).
  rewrite Hlen, Nat.eqb_refl. unfold py_assert, cbind at 1, cret.
  replace (length ([n_in] ++ n_hidden ++ [n_out]) - 1)%nat with (length n_hidden + 1)%nat
    by (cbn; rewrite length_app; cbn; lia).
  rewrite loop_built.
  - rewrite length_seq. reflexivity.
  - exact Hp.
  - rewrite Hlen. apply Forall_forall. intros i Hi. apply in_seq in Hi. lia.
Qed.

Lemma MLP_init_mismatch n_in n_out n_hidden act dropout g :
  length act <> (length n_hidden + 1)%nat ->
  MLP.__init__ n_in n_out n_hidden (Some act) dropout g = (g, Raise AssertionError).
Proof.
  intros Hlen. unfold MLP.__init__.
  apply Nat.eqb_neq in Hlen. rewrite Hlen. reflexivity.
Qed.

Lemma built_layers_act draw n_ act dropout range :
  Forall (fun i => (i < length act)%nat) range ->
  forall k i a,
    nth_error (built_layers draw n_ act dropout k range) i = Some (MLP.Act a) ->
    In a act.
Proof.
  induction 1 as [|j range Hj Hrest IH]; intros k i a Hi.
  - destruct i; discriminate.
  - cbn [built_layers app] in Hi.
    destruct i as [|[|[|i]]]; cbn [nth_error] in Hi; try discriminate.
    + injection Hi as <-. apply nth_In. exact Hj.
    + eapply IH. exact Hi.
Qed.

Lemma MLP_init_refuses_dropout n_in n_out n_hidden act dropout g :
  ~ 0 <= dropout <= 1 ->
  length (act_of n_hidden act) = (length n_hidden + 1)%nat ->
  MLP.__init__ n_in n_out n_hidden act dropout g =
    (mkGen (draw g) (allocated g + 2), Raise ValueError).
Proof.
  intros Hp Hlen. unfold MLP.__init__. fold (act_of n_hidden act).
  rewrite Hlen, Nat.eqb_refl. unfold py_assert, cbind at 1, cret.
  replace (length ([n_in] ++ n_hidden ++ [n_out]) - 1)%nat with (S (length n_hidden))
    by (cbn; rewrite length_app; cbn; lia).
  cbn [seq MLP.loop]. unfold cbind at 1. unfold new_Linear, cbind, new_parameter, cret.
  cbn [draw allocated].
  destruct (nth_error (act_of n_hidden act) 0) as [a|] eqn:Ha.
  2:{ apply nth_error_None in Ha. lia. }
  rewrite (new_Dropout_refuses dropout _ Hp).
  replace (S (S (allocated g))) with (allocated g + 2)%nat by lia. reflexivity.
Qed.

(** C5: [MLP.__init__] raises its assertion, with no parameter tensor
    created, exactly when an explicit [act] list does not have
    [len(n_hidden) + 1] entries. With a list of that length, or with no
    list (every layer then gets [LeakyReLU()]), it returns the
    [Linear, activation, Dropout] triples for every dropout probability
    in [0, 1]; a probability outside [0, 1] is refused with [ValueError]
    by the first [nn.Dropout], after the two parameter tensors of the
    first affine layer have been created. *)
Theorem MLP_init_contract :
  forall n_in n_out n_hidden act dropout g,
    let returns m :=
      MLP.__init__ n_in n_out n_hidden act dropout g =
        (mkGen (draw g) (allocated g + 2 * (length n_hidden + 1)), Ok m)
      /\ length m = (3 * (length n_hidden + 1))%nat in
    let refused :=
      MLP.__init__ n_in n_out n_hidden act dropout g =
        (mkGen (draw g) (allocated g + 2), Raise ValueError) in
    match act with
    | Some l =>
        if Nat.eqb (length l) (length n_hidden + 1)
        then (0 <= dropout <= 1 -> exists m, returns m)
             /\ (~ 0 <= dropout <= 1 -> refused)
        else MLP.__init__ n_in n_out n_hidden act dropout g = (g, Raise AssertionError)
    | None =>
        (0 <= dropout <= 1 ->
         exists m,
           returns m
           /\ forall i a, nth_error m i = Some (MLP.Act a) -> a = nn.LeakyReLU (1 / 100))
        /\ (~ 0 <= dropout <= 1 -> refused)
    end.
Proof.
  intros n_in n_out n_hidden act dropout g returns refused. subst returns refused.
  destruct act as [l|].
  - destruct (Nat.eqb (length l) (length n_hidden + 1)) eqn:E.
    + apply Nat.eqb_eq in E. split.
      * intros Hp. eexists. split.
        -- apply MLP_init_ok; [exact Hp|exact E].
        -- rewrite length_built_layers, length_seq. reflexivity.
      * intros Hp. apply MLP_init_refuses_dropout; [exact Hp|exact E].
    + apply Nat.eqb_neq in E. apply MLP_init_mismatch. exact E.
  - assert (length (act_of n_hidden None) = (length n_hidden + 1)%nat) as E
        by (cbn; apply repeat_length).
    split.
    + intros Hp. eexists. split; [split|].
      * apply MLP_init_ok; [exact Hp|exact E].
      * rewrite length_built_layers, length_seq. reflexivity.
      * intros i a Hi. apply built_layers_act in Hi.
        -- cbn [act_of] in Hi. apply repeat_spec in Hi. exact Hi.
        -- cbn [act_of]. rewrite repeat_length. apply Forall_forall.
           intros j Hj. apply in_seq in Hj. lia.
    + intros Hp. apply MLP_init_refuses_dropout; [exact Hp|exact E].
Qed.

Lemma MLP_init_contract_witness :
  (exists m,
      MLP.__init__ 2 3 [4]%nat None 0 zero_generator = (mkGen (draw zero_generator) 4, Ok m)
      /\ length m = 6%nat)
  /\ MLP.__init__ 2 3 [4]%nat None (3 / 2) zero_generator
     = (mkGen (draw zero_generator) 2, Raise ValueError).
Proof.
  split.
  - destruct (proj1 (MLP_init_contract 2 3 [4]%nat None 0 zero_generator)) as (m & Hm & _);
      [lra|].
    exists m. exact Hm.
  - apply (proj2 (MLP_init_contract 2 3 [4]%nat None (3 / 2) zero_generator)). lra.
Defined.

(** ** Encoder construction *)

Lemma conv_blocks_step filters sizes dropout i range convs g :
  0 <= dropout <= 1 ->
  SpectrumEncoder._conv_blocks_loop filters sizes dropout (i :: range) convs g =
    SpectrumEncoder._conv_blocks_loop filters sizes dropout range
      (convs ++ [conv_block_of (draw g) (allocated g)
                               (if Nat.eqb i 0 then 1%nat else nth (i - 1) filters 0%nat)
                               (nth i filters 0%nat) (nth i sizes 0%nat) dropout])
      (mkGen (draw g) (allocated g + 3)).
Proof.
  intros Hp. cbn [SpectrumEncoder._conv_blocks_loop].
  unfold cbind at 1. unfold SpectrumEncoder.new_Conv1d, cbind at 1.
  unfold new_parameter at 1. unfold cbind at 1. unfold new_parameter at 1.
  unfold cret at 1. unfold cbind at 1. unfold new_parameter at 1.
  cbn [draw allocated]. unfold cbind at 1. rewrite (new_Dropout_ok dropout _ Hp).
  replace (S (S (S (allocated g)))) with (allocated g + 3)%nat by lia.
  reflexivity.
Qed.

Lemma conv_blocks_eval dropout g :
  0 <= dropout <= 1 ->
  SpectrumEncoder._conv_blocks [128; 256; 512]%nat [5; 11; 21]%nat dropout g =
    (mkGen (draw g) (allocated g + 9),
     Ok [conv_block_of (draw g) (allocated g) 1 128 5 dropout;
         conv_block_of (draw g) (allocated g + 3) 128 256 11 dropout;
         conv_block_of (draw g) (allocated g + 6) 256 512 21 dropout]).
Proof.
  intros Hp. unfold SpectrumEncoder._conv_blocks. cbn [length seq].
  rewrite !conv_blocks_step by exact Hp.
  cbn [SpectrumEncoder._conv_blocks_loop draw allocated app Nat.eqb Nat.sub nth].
  unfold cret.
  replace (allocated g + 3 + 3)%nat with (allocated g + 6)%nat by lia.
  replace (allocated g + 6 + 3)%nat with (allocated g + 9)%nat by lia.
  reflexivity.
Qed.

Lemma conv_blocks_refuse dropout g :
  ~ 0 <= dropout <= 1 ->
  SpectrumEncoder._conv_blocks [128; 256; 512]%nat [5; 11; 21]%nat dropout g =
    (mkGen (draw g) (allocated g + 3), Raise ValueError).
Proof.
  intros Hp. unfold SpectrumEncoder._conv_blocks. cbn [length seq].
  cbn [SpectrumEncoder._conv_blocks_loop].
  unfold cbind at 1. unfold SpectrumEncoder.new_Conv1d, cbind at 1.
  unfold new_parameter at 1. unfold cbind at 1. unfold new_parameter at 1.
  unfold cret at 1. unfold cbind at 1. unfold new_parameter at 1.
  cbn [draw allocated]. unfold cbind at 1. rewrite (new_Dropout_refuses dropout _ Hp).
  replace (S (S (S (allocated g)))) with (allocated g + 3)%nat by lia.
  reflexivity.
Qed.

Lemma default_act_eval n_hidden :
  forall g,
    SpectrumEncoder.default_act n_hidden g =
      (mkGen (draw g) (allocated g + length n_hidden),
       Ok (default_act_of (draw g) (allocated g) n_hidden)).
Proof.
  induction n_hidden as [|n rest IH]; intros g.
  - cbn. rewrite Nat.add_0_r. destruct g; reflexivity.
  - cbn [SpectrumEncoder.default_act]. unfold cbind at 1.
    unfold new_PReLU, cbind at 1, new_parameter, cret at 1.
    unfold cbind. rewrite IH. cbn [draw allocated length]. unfold cret.
    replace (S (allocated g) + length rest)%nat with (allocated g + S (length rest))%nat by lia.
    reflexivity.
Qed.

Lemma encoder_act_eval n_hidden act g :
  match act with
  | Some act0 => cret act0
  | None => act0 <~ SpectrumEncoder.default_act n_hidden ;; cret (act0 ++ [nn.Identity])
  end g =
    (mkGen (draw g) (allocated g + encoder_act_tensors n_hidden act),
     Ok (encoder_act (draw g) (allocated g) n_hidden act)).
Proof.
  destruct act as [l|]; cbn [encoder_act encoder_act_tensors].
  - unfold cret. rewrite Nat.add_0_r. destruct g; reflexivity.
  - unfold cbind. rewrite default_act_eval. reflexivity.
Qed.

Lemma SpectrumEncoder_init_ok instrument n_latent n_hidden act n_aux dropout g :
  0 <= dropout <= 1 ->
  length (encoder_act (draw g) (allocated g + 9) n_hidden act) = (length n_hidden + 1)%nat ->
  SpectrumEncoder.__init__ instrument n_latent n_hidden act n_aux dropout g =
    (mkGen (draw g)
           (allocated g + 9 + encoder_act_tensors n_hidden act + 2 * (length n_hidden + 1)),
     Ok (encoder_of g instrument n_latent n_hidden act n_aux dropout)).
Proof.
  intros Hp Hlen. unfold SpectrumEncoder.__init__.
  unfold cbind at 1. rewrite conv_blocks_eval by exact Hp.
  cbn [map firstn last].
  change (512 / 2)%nat with 256%nat. change (5 / 2)%nat with 2%nat.
  change (11 / 2)%nat with 5%nat.
  unfold cbind at 1. rewrite encoder_act_eval. cbn [draw allocated].
  unfold cbind at 1.
  rewrite (MLP_init_ok _ _ _ (Some _)) by (try exact Hp; cbn [act_of]; exact Hlen).
  cbn [draw allocated act_of]. unfold cret. reflexivity.
Qed.

Lemma SpectrumEncoder_init_default instrument n_latent n_hidden n_aux dropout g :
  0 <= dropout <= 1 ->
  SpectrumEncoder.__init__ instrument n_latent n_hidden None n_aux dropout g =
    (mkGen (draw g) (allocated g + 9 + length n_hidden + 2 * (length n_hidden + 1)),
     Ok (encoder_of g instrument n_latent n_hidden None n_aux dropout)).
Proof.
  intros Hp. apply (SpectrumEncoder_init_ok instrument n_latent n_hidden None); [exact Hp|].
  cbn [encoder_act]. unfold default_act_of.
  rewrite length_app, imap_from_length. reflexivity.
Qed.

Lemma SpectrumEncoder_init_mismatch instrument n_latent n_hidden act n_aux dropout g :
  0 <= dropout <= 1 ->
  length (encoder_act (draw g) (allocated g + 9) n_hidden act) <> (length n_hidden + 1)%nat ->
  snd (SpectrumEncoder.__init__ instrument n_latent n_hidden act n_aux dropout g)
  = Raise AssertionError.
Proof.
  intros Hp Hlen. unfold SpectrumEncoder.__init__.
  unfold cbind at 1. rewrite conv_blocks_eval by exact Hp.
  cbn [map firstn last].
  unfold cbind at 1. rewrite encoder_act_eval. cbn [draw allocated].
  unfold cbind at 1.
  rewrite MLP_init_mismatch by exact Hlen. reflexivity.
Qed.

(** A dropout probability outside [0, 1] is refused by the [nn.Dropout]
    of the first convolutional block, after the three parameter tensors
    of that block have been created. *)
Lemma SpectrumEncoder_init_refuses_dropout instrument n_latent n_hidden act n_aux dropout g :
  ~ 0 <= dropout <= 1 ->
  SpectrumEncoder.__init__ instrument n_latent n_hidden act n_aux dropout g =
    (mkGen (draw g) (allocated g + 3), Raise ValueError).
Proof.
  intros Hp. unfold SpectrumEncoder.__init__.
  unfold cbind at 1. now rewrite conv_blocks_refuse by exact Hp.
Qed.

Lemma dropout_range_dec (p : R) : {0 <= p <= 1} + {~ 0 <= p <= 1}.
Proof.
  destruct (Rle_dec 0 p) as [H0|H0]; [|right; intros [H _]; exact (H0 H)].
  destruct (Rle_dec p 1) as [H1|H1]; [left; now split|right; intros [_ H]; exact (H1 H)].
Qed.

(** Every encoder that the constructor returns is [encoder_of] of the
    generator and the arguments, and its dropout probability is in
    [0, 1]. *)
Lemma SpectrumEncoder_init_range instrument n_latent n_hidden act n_aux dropout g g' e :
  SpectrumEncoder.__init__ instrument n_latent n_hidden act n_aux dropout g = (g', Ok e) ->
  0 <= dropout <= 1.
Proof.
  intros H. destruct (dropout_range_dec dropout) as [Hp|Hp]; [exact Hp|].
  rewrite SpectrumEncoder_init_refuses_dropout in H by exact Hp. discriminate.
Qed.

Lemma SpectrumEncoder_init_inv instrument n_latent n_hidden act n_aux dropout g g' e :
  SpectrumEncoder.__init__ instrument n_latent n_hidden act n_aux dropout g = (g', Ok e) ->
  e = encoder_of g instrument n_latent n_hidden act n_aux dropout.
Proof.
  intros H. pose proof (SpectrumEncoder_init_range _ _ _ _ _ _ _ _ _ H) as Hp.
  destruct (Nat.eq_dec (length (encoder_act (draw g) (allocated g + 9) n_hidden act))
                       (length n_hidden + 1)) as [Hlen|Hlen].
  - rewrite SpectrumEncoder_init_ok in H by assumption. now injection H as _ <-.
  - apply (SpectrumEncoder_init_mismatch instrument n_latent n_hidden act n_aux dropout g Hp)
      in Hlen.
    rewrite H in Hlen. discriminate.
Qed.

(** ** The attention weights *)

Lemma Rsum_nil : Rsum [] = 0.
Proof. reflexivity. Qed.

Lemma Rsum_cons v l : Rsum (v :: l) = v + Rsum l.
Proof. reflexivity. Qed.

Lemma Rsum_scale (c : R) l : Rsum (map (fun v => v / c) l) = Rsum l / c.
Proof.
  induction l as [|v l IH]; cbn [map]; rewrite ?Rsum_nil, ?Rsum_cons.
  - unfold Rdiv. now rewrite Rmult_0_l.
  - rewrite IH. unfold Rdiv. ring.
Qed.

Lemma Rsum_exp_pos l : l <> [] -> 0 < Rsum (map exp l).
Proof.
  intros Hl. destruct l as [|v l]; [contradiction|]. clear Hl.
  cbn [map]. rewrite Rsum_cons.
  assert (0 <= Rsum (map exp l)) as H.
  { induction l as [|w l IH]; cbn [map]; rewrite ?Rsum_nil, ?Rsum_cons; [lra|].
    pose proof (exp_pos w). lra. }
  pose proof (exp_pos v). lra.
Qed.

Lemma softmax_row_sum row : row <> [] -> Rsum (nn.softmax_row row) = 1.
Proof.
  intros Hrow. unfold nn.softmax_row. rewrite Rsum_scale.
  pose proof (Rsum_exp_pos row Hrow). field. lra.
Qed.

Lemma softmax_row_length row : length (nn.softmax_row row) = length row.
Proof. unfold nn.softmax_row. now rewrite !length_map. Qed.

Lemma Forall_firstn_skipn {A} (P : A -> Prop) n l :
  Forall P l -> Forall P (firstn n l) /\ Forall P (skipn n l).
Proof.
  intros H. rewrite <- (firstn_skipn n l) in H. now apply Forall_app in H.
Qed.

Lemma split_channels_halves C x h a :
  SpectrumEncoder.split_channels C x = Ok (h, a) ->
  Forall (channels (C + C)) x ->
  Forall (channels C) h /\ Forall (channels C) a
  /\ length h = length x /\ length a = length x.
Proof.
  unfold SpectrumEncoder.split_channels. intros H Hx. inv_bind H. injection H as <- <-.
  assert (Forall (fun p => channels C (fst p) /\ channels C (snd p)) v) as Hv'.
  { eapply (mapM_Forall_pres _ (channels (C + C))); [|exact Hx|exact Hv].
    intros s [h a] (L & HL & Hlen & Hrows) Hs. cbn beta in Hs.
    destruct (Nat.eqb _ _); [|discriminate]. injection Hs as <- <-. cbn [fst snd].
    split; exists L; (split; [exact HL|]); split.
    - rewrite length_firstn. lia.
    - now apply Forall_firstn_skipn.
    - rewrite length_skipn. lia.
    - now apply Forall_firstn_skipn. }
  apply mapM_length in Hv. rewrite !length_map.
  repeat split; try exact Hv; apply Forall_map; eapply Forall_impl; try exact Hv';
    cbn beta; intros p Hp; apply Hp.
Qed.

Lemma hd_channels C (x : tensor3) : Forall (channels C) x -> x <> [] -> length (hd [] x) = C.
Proof.
  intros Hx Hne. destruct x as [|s x]; [contradiction|].
  apply Forall_inv in Hx. destruct Hx as (L & _ & Hlen & _). exact Hlen.
Qed.

(** [_downsample] of a constructed encoder: both halves have 256
    channels per sample, and every channel has at least one position. *)
Lemma downsample_channels e training u x h a :
  nn.out_channels (SpectrumEncoder.conv (SpectrumEncoder.conv3 e)) = 512%nat ->
  SpectrumEncoder._downsample e training u x = Ok (h, a) ->
  Forall (channels 256) h /\ Forall (channels 256) a
  /\ length h = length x /\ length a = length x.
Proof.
  intros H512 H. unfold SpectrumEncoder._downsample in H.
  inv_bind H. inv_bind H. inv_bind H. inv_bind H. inv_bind H.
  apply block_forward_channels in Hv, Hv1, Hv3.
  apply mapM_length in Hv0, Hv2.
  destruct Hv as [_ Hl], Hv1 as [_ Hl1], Hv3 as [Hc Hl3].
  rewrite H512 in Hc.
  assert (length v3 = length x) as Hlen.
  { unfold unsqueeze1 in Hl. rewrite length_map in Hl. congruence. }
  destruct v3 as [|s v3].
  - cbn in H. injection H as <- <-. destruct x; [|discriminate]. repeat split; constructor.
  - rewrite (hd_channels 512 _ Hc) in H by discriminate.
    change (512 / 2)%nat with 256%nat in H.
    apply split_channels_halves in H; [|exact Hc].
    rewrite <- Hlen. exact H.
Qed.

Lemma softmax_channels C a :
  Forall (channels C) a ->
  Forall (fun s => length s = C /\ Forall (fun row => Rsum row = 1) s) (nn.Softmax_forward a).
Proof.
  intros Ha. unfold nn.Softmax_forward. apply Forall_map.
  eapply Forall_impl; [|exact Ha]. cbn beta.
  intros s (L & HL & Hlen & Hrows). split.
  - now rewrite length_map.
  - apply Forall_map. eapply Forall_impl; [|exact Hrows]. cbn beta.
    intros row Hrow. apply softmax_row_sum. destruct row; [cbn in Hrow; lia|discriminate].
Qed.

Lemma forward_trace_attention e training grad u x aux y tr :
  SpectrumEncoder.forward_trace e training grad u x aux = Ok (y, tr) ->
  exists h a, SpectrumEncoder._downsample e training u x = Ok (h, a)
              /\ SpectrumEncoder.attention tr = nn.Softmax_forward a
              /\ SpectrumEncoder.hook_registered tr
                 = andb (py_truthy (py_invert training)) (Bool.eqb grad true).
Proof.
  unfold SpectrumEncoder.forward_trace. intros H.
  inv_bind H. destruct v as [h a]. inv_bind H. inv_bind H. inv_bind H.
  injection H as <- <-. exists h, a. cbn. auto.
Qed.

(** ** Elementwise operations on tensors of one shape *)

Lemma mapM_pure {A B} (g : A -> B) l : mapM (fun a => Ok (g a)) l = Ok (map g l).
Proof.
  unfold mapM, imapM. generalize 0%nat.
  induction l as [|a l IH]; intros k; cbn; [reflexivity|]. now rewrite IH.
Qed.

Lemma imapM_from_ext {A B} (f g : nat -> A -> result B) l :
  (forall i a, f i a = g i a) -> forall k, imapM_from k f l = imapM_from k g l.
Proof.
  intros H. induction l as [|a l IH]; intros k; cbn; [reflexivity|].
  now rewrite H, IH.
Qed.

Lemma mapM_ext {A B} (f g : A -> result B) l :
  (forall a, f a = g a) -> mapM f l = mapM g l.
Proof. intros H. apply imapM_from_ext. intros _. exact H. Qed.

Lemma bzip_same_length {A B C} (f : A -> B -> result C) a b :
  length a = length b ->
  bzip f a b = mapM (fun '(x, y) => f x y) (combine a b).
Proof. intros H. unfold bzip. now rewrite H, Nat.eqb_refl. Qed.

Lemma Forall_combine {A B} (P : A -> Prop) (Q : B -> Prop) a :
  forall b, Forall P a -> Forall Q b ->
            Forall (fun p => P (fst p) /\ Q (snd p)) (combine a b).
Proof.
  induction a as [|x a IH]; intros [|y b] Ha Hb; cbn; try constructor.
  - split; [now inversion Ha | now inversion Hb].
  - apply IH; [now inversion Ha | now inversion Hb].
Qed.

Lemma t1_binop_same_length f a b :
  length a = length b ->
  t1_binop f a b = Ok (map (fun '(x, y) => f x y) (combine a b)).
Proof.
  intros H. unfold t1_binop. rewrite bzip_same_length by exact H.
  rewrite <- mapM_pure. apply mapM_ext. now intros [x y].
Qed.

Lemma t1_binop_ok f L a b :
  length a = L -> length b = L ->
  exists y, t1_binop f a b = Ok y /\ length y = L.
Proof.
  intros Ha Hb. rewrite t1_binop_same_length by congruence.
  eexists. split; [reflexivity|].
  rewrite length_map, length_combine. lia.
Qed.

Lemma t2_binop_ok f C L a b :
  shaped C L a -> shaped C L b ->
  exists y, t2_binop f a b = Ok y /\ shaped C L y.
Proof.
  intros [Ha Hra] [Hb Hrb]. unfold t2_binop.
  rewrite bzip_same_length by congruence.
  destruct (mapM_total (fun '(x, y) => t1_binop f x y)
              (fun p => length (fst p) = L /\ length (snd p) = L)
              (fun r => length r = L) (combine a b)) as (y & Hy & Hry & Hlen).
  - intros [x y] [Hx Hy]. now apply t1_binop_ok.
  - exact (Forall_combine _ _ _ _ Hra Hrb).
  - exists y. split; [exact Hy|]. split; [|exact Hry].
    rewrite Hlen, length_combine. lia.
Qed.

Lemma attend_ok C L h a :
  shaped3 C L h -> shaped3 C L a -> length h = length a ->
  exists y, SpectrumEncoder.attend h a = Ok y
            /\ Forall (fun row => length row = C) y /\ length y = length h.
Proof.
  intros Hh Ha Hlen. unfold SpectrumEncoder.attend.
  rewrite bzip_same_length by exact Hlen.
  destruct (mapM_total (fun '(x, y) => t2_binop Rmult x y)
              (fun p => shaped C L (fst p) /\ shaped C L (snd p))
              (shaped C L) (combine h a)) as (y & Hy & Hry & Hl).
  - intros [x y] [Hx Hy]. now apply t2_binop_ok.
  - exact (Forall_combine _ _ _ _ Hh Ha).
  - rewrite Hy. cbn [bind]. eexists. split; [reflexivity|]. split.
    + apply Forall_map. eapply Forall_impl; [|exact Hry].
      intros s [Hs _]. now rewrite length_map.
    + rewrite length_map, Hl, length_combine. lia.
Qed.

Lemma cat_last_ok C K x aux :
  Forall (fun row => length row = C) x ->
  Forall (fun row => length row = K) aux ->
  length x = length aux ->
  exists y, SpectrumEncoder.cat_last x aux = Ok y
            /\ Forall (fun row => length row = (C + K)%nat) y /\ length y = length x.
Proof.
  intros Hx Haux Hlen. unfold SpectrumEncoder.cat_last.
  rewrite Hlen, Nat.eqb_refl. eexists. split; [reflexivity|]. split.
  - apply Forall_map.
    eapply Forall_impl; [|exact (Forall_combine _ _ _ _ Hx Haux)].
    intros [r a] [Hr Ha]. cbn in *. rewrite length_app. lia.
  - rewrite length_map, length_combine. lia.
Qed.

(** ** The dense block on rows of the right width *)

Lemma linear_row_ok l v :
  length v = nn.in_features l ->
  exists y, nn.linear_row l v = Ok y /\ length y = nn.out_features l.
Proof.
  intros H. unfold nn.linear_row. rewrite H, Nat.eqb_refl.
  eexists. split; [reflexivity|]. now rewrite length_map, length_seq.
Qed.

Lemma linear_row_mismatch l v :
  length v <> nn.in_features l -> nn.linear_row l v = Raise RuntimeError.
Proof.
  intros H. unfold nn.linear_row. apply Nat.eqb_neq in H. now rewrite H.
Qed.

Lemma activation_row_ok a v :
  act_ok a (length v) ->
  exists y, MLP.activation_row a v = Ok y /\ length y = length v.
Proof.
  destruct a as [slope|n w| |n beta gamma plus_one]; cbn [act_ok MLP.activation_row].
  - intros _. eexists. split; [reflexivity|]. apply length_map.
  - intros Hn. unfold nn.prelu_channels.
    destruct (Nat.eqb_spec n 1).
    + eexists. split; [reflexivity|]. apply length_map.
    + destruct Hn as [Hn|Hn]; [contradiction|]. rewrite Hn, Nat.eqb_refl.
      eexists. split; [reflexivity|]. apply imap_length.
  - intros _. eauto.
  - intros Hn. unfold SpeculatorActivation.forward_row.
    destruct (Nat.eqb_spec (length v) n).
    + eexists. split; [reflexivity|]. apply imap_length.
    + destruct Hn as [Hn|Hn]; [congruence|]. subst n. cbn [Nat.eqb].
      eexists. split; [reflexivity|]. apply length_map.
Qed.

Lemma dropout2_rows p training u x w :
  Forall (fun row => length row = w) x ->
  Forall (fun row => length row = w) (nn.Dropout_forward2 p training u x).
Proof.
  intros Hx. unfold nn.Dropout_forward2. eapply imap_Forall; [|exact Hx].
  intros j row Hrow. cbn. now rewrite imap_length.
Qed.

Lemma MLP_forward_built draw n_ act dropout training u m :
  forall a k site x,
    Forall (fun row => length row = nth a n_ 0%nat) x ->
    (forall i, (a <= i < a + m)%nat -> act_ok (nth i act nn.Identity) (nth (i + 1) n_ 0%nat)) ->
    exists y,
      MLP.forward_from site training u (built_layers draw n_ act dropout k (seq a m)) x = Ok y
      /\ Forall (fun row => length row = nth (a + m) n_ 0%nat) y
      /\ length y = length x.
Proof.
  induction m as [|m IH]; intros a k site x Hx Hact.
  - cbn. rewrite Nat.add_0_r. eauto.
  - cbn [seq built_layers app MLP.forward_from MLP.layer_forward].
    destruct (mapM_total
                (nn.linear_row
                   (nn.mkLinear (nth a n_ 0%nat) (nth (a + 1) n_ 0%nat)
                                (fun o j => draw k o j 0%nat)
                                (fun o => draw (S k) o 0%nat 0%nat)))
                _ (fun row => length row = nth (a + 1) n_ 0%nat) x
                (fun v Hv => linear_row_ok _ v Hv) Hx) as (x1 & H1 & Hx1 & Hl1).
    unfold nn.Linear_forward. rewrite H1. cbn [bind].
    destruct (mapM_total (MLP.activation_row (nth a act nn.Identity))
                (fun row => length row = nth (a + 1) n_ 0%nat)
                (fun row => length row = nth (a + 1) n_ 0%nat) x1) as (x2 & H2 & Hx2 & Hl2).
    { intros v Hv. destruct (activation_row_ok (nth a act nn.Identity) v) as (y & Hy & Hly).
      - rewrite Hv. apply Hact. lia.
      - exists y. split; [exact Hy|]. congruence. }
    { exact Hx1. }
    rewrite H2. cbn [bind].
    destruct (IH (S a) (S (S k)) (S (S (S site)))
                 (nn.Dropout_forward2 dropout training (u (S (S site))) x2))
      as (y & Hy & Hry & Hly).
    + replace (S a) with (a + 1)%nat by lia. now apply dropout2_rows.
    + intros i Hi. apply Hact. lia.
    + exists y. split; [exact Hy|]. split.
      * replace (a + S m)%nat with (S a + m)%nat by lia. exact Hry.
      * rewrite Hly. unfold nn.Dropout_forward2. rewrite imap_length. congruence.
Qed.

(** ** The encoder on spectra that are long enough *)

Lemma split_channels_ok C L x :
  shaped3 (C + C) L x ->
  exists h a, SpectrumEncoder.split_channels C x = Ok (h, a)
              /\ shaped3 C L h /\ shaped3 C L a
              /\ length h = length x /\ length a = length x.
Proof.
  intros Hx. unfold SpectrumEncoder.split_channels.
  destruct (mapM_total
              (fun s : tensor2 => if Nat.eqb (length s) (C + C)
                                  then Ok (firstn C s, skipn C s)
                                  else Raise RuntimeError)
              (shaped (C + C) L)
              (fun p => shaped C L (fst p) /\ shaped C L (snd p)) x) as (v & Hv & Hp & Hlen).
  - intros s [Hs Hrows]. rewrite Hs, Nat.eqb_refl. eexists. split; [reflexivity|].
    cbn [fst snd]. destruct (Forall_firstn_skipn _ C s Hrows) as [Hf Hk].
    repeat split; try assumption.
    + rewrite length_firstn. lia.
    + rewrite length_skipn. lia.
  - exact Hx.
  - rewrite Hv. cbn [bind]. do 2 eexists. split; [reflexivity|].
    rewrite !length_map.
    repeat split; try exact Hlen; apply Forall_map; eapply Forall_impl; try exact Hp;
      cbn beta; intros p Hq; apply Hq.
Qed.

Lemma hd_shaped3 C L (x : tensor3) : shaped3 C L x -> x <> [] -> length (hd [] x) = C.
Proof.
  intros Hx Hne. destruct x as [|s x]; [contradiction|].
  apply Forall_inv in Hx. apply Hx.
Qed.

Lemma unsqueeze1_shaped L x :
  Forall (fun row => length row = L) x -> shaped3 1 L (unsqueeze1 x).
Proof.
  intros Hx. unfold unsqueeze1. apply Forall_map.
  eapply Forall_impl; [|exact Hx]. intros row Hrow. split; [reflexivity|].
  now constructor.
Qed.

Lemma downsample_ok g instrument n_latent n_hidden act n_aux dropout training u x L :
  Forall (fun row => length row = L) x -> (56 <= L)%nat ->
  exists h a,
    SpectrumEncoder._downsample
      (encoder_of g instrument n_latent n_hidden act n_aux dropout) training u x = Ok (h, a)
    /\ shaped3 256 (downsampled_length L) h /\ shaped3 256 (downsampled_length L) a
    /\ length h = length x /\ length a = length x.
Proof.
  intros Hx HL. unfold SpectrumEncoder._downsample, encoder_of.
  cbn [SpectrumEncoder.conv1 SpectrumEncoder.conv2 SpectrumEncoder.conv3
       SpectrumEncoder.pool1 SpectrumEncoder.pool2].
  pose proof (unsqueeze1_shaped L x Hx) as H0.
  assert (length (unsqueeze1 x) = length x) as Hl0 by apply length_map.
  destruct (block_forward_ok training (u 0%nat)
              (conv_block_of (draw g) (allocated g) 1 128 5 dropout) _ 1 L H0)
    as (x1 & H1 & Hs1 & Hl1); [cbn; lia ..|].
  rewrite H1. cbn [bind]. cbn in Hs1.
  replace (L + 4 - 5 + 1)%nat with L in Hs1 by lia.
  destruct (maxpool_forward_ok (nn.mkMaxPool1d 5 2) x1 128 L Hs1)
    as (x2 & H2 & Hs2 & Hl2); [cbn; lia ..|].
  rewrite H2. cbn [bind]. cbn [nn.pool_kernel nn.pool_padding] in Hs2.
  unfold downsampled_length.
  remember (nn.pooled_length 5 2 L) as L1 eqn:EL1.
  assert (12 <= L1)%nat as HL1.
  { subst L1. unfold nn.pooled_length.
    assert (11 <= (L + 2 * 2 - 5) / 5)%nat; [|lia].
    apply Nat.div_le_lower_bound; lia. }
  clear EL1.
  destruct (block_forward_ok training (u 1%nat)
              (conv_block_of (draw g) (allocated g + 3) 128 256 11 dropout) _ 128 L1 Hs2)
    as (x3 & H3 & Hs3 & Hl3); [cbn; lia ..|].
  rewrite H3. cbn [bind]. cbn in Hs3.
  replace (L1 + 10 - 11 + 1)%nat with L1 in Hs3 by lia.
  destruct (maxpool_forward_ok (nn.mkMaxPool1d 11 5) x3 256 L1 Hs3)
    as (x4 & H4 & Hs4 & Hl4); [cbn; lia ..|].
  rewrite H4. cbn [bind]. cbn [nn.pool_kernel nn.pool_padding] in Hs4.
  remember (nn.pooled_length 11 5 L1) as L2 eqn:EL2.
  assert (2 <= L2)%nat as HL2.
  { subst L2. unfold nn.pooled_length.
    assert (1 <= (L1 + 2 * 5 - 11) / 11)%nat; [|lia].
    apply Nat.div_le_lower_bound; lia. }
  clear EL2.
  destruct (block_forward_ok training (u 2%nat)
              (conv_block_of (draw g) (allocated g + 6) 256 512 21 dropout) _ 256 L2 Hs4)
    as (x5 & H5 & Hs5 & Hl5); [cbn; lia ..|].
  rewrite H5. cbn [bind]. cbn in Hs5.
  replace (L2 + 20 - 21 + 1)%nat with L2 in Hs5 by lia.
  assert (length x5 = length x) as Hlen by congruence.
  destruct x5 as [|s x5].
  - destruct x; [|discriminate]. cbn. do 2 eexists. split; [reflexivity|].
    repeat split; constructor.
  - rewrite (hd_shaped3 512 L2 _ Hs5) by discriminate.
    change (512 / 2)%nat with 256%nat.
    destruct (split_channels_ok 256 L2 (s :: x5) Hs5) as (h & a & Hsplit & Hh & Ha & Hlh & Hla).
    exists h, a. split; [exact Hsplit|]. split; [exact Hh|]. split; [exact Ha|].
    split; [now rewrite Hlh | now rewrite Hla].
Qed.

Lemma nth_error_imap_from {A B} (f : nat -> A -> B) l :
  forall k i, nth_error (imap_from k f l) i = option_map (f (k + i)%nat) (nth_error l i).
Proof.
  induction l as [|a l IH]; intros k [|i]; cbn; try reflexivity.
  - now rewrite Nat.add_0_r.
  - rewrite IH. now replace (S k + i)%nat with (k + S i)%nat by lia.
Qed.

Lemma default_acts_ok draw k n_hidden n_out :
  acts_ok (encoder_act draw k n_hidden None) n_hidden n_out.
Proof.
  intros i Hi. cbn [encoder_act]. unfold default_act_of.
  destruct (Nat.lt_ge_cases i (length n_hidden)) as [Hlt|Hge].
  - rewrite !app_nth1 by (rewrite ?imap_from_length; exact Hlt).
    destruct (nth_error n_hidden i) as [n|] eqn:En.
    2:{ apply nth_error_None in En. lia. }
    assert (nth_error (imap_from k (fun k n => nn.PReLU n (fun c => draw k c 0%nat 0%nat))
                                 n_hidden) i
            = Some (nn.PReLU n (fun c => draw (k + i)%nat c 0%nat 0%nat))) as E.
    { rewrite nth_error_imap_from, En. reflexivity. }
    rewrite (nth_error_nth _ _ _ E), (nth_error_nth _ _ _ En). cbn. now right.
  - rewrite app_nth2 by (rewrite imap_from_length; exact Hge).
    rewrite imap_from_length.
    replace (i - length n_hidden)%nat with 0%nat by lia. exact I.
Qed.

Lemma leaky_acts_ok n_hidden n_out :
  acts_ok (act_of n_hidden None) n_hidden n_out.
Proof.
  intros i Hi. cbn [act_of].
  destruct (nth_in_or_default i (repeat (nn.LeakyReLU (1 / 100)) (length n_hidden + 1))
                              nn.Identity) as [Hin|Hd].
  - apply repeat_spec in Hin. rewrite Hin. exact I.
  - rewrite Hd. exact I.
Qed.

Lemma nth_last_width (a b : nat) n_hidden :
  nth (length n_hidden + 1) ([a] ++ n_hidden ++ [b]) 0%nat = b.
Proof.
  rewrite Nat.add_1_r. cbn [app nth].
  rewrite app_nth2 by lia. now rewrite Nat.sub_diag.
Qed.

(** A dense block built by [MLP.__init__], on rows of its input width. *)
Lemma MLP_built_forward_ok draw n_in n_out n_hidden acts dropout k training u site x :
  Forall (fun row => length row = n_in) x ->
  acts_ok acts n_hidden n_out ->
  exists y,
    MLP.forward_from site training u
      (built_layers draw ([n_in] ++ n_hidden ++ [n_out]) acts dropout k
                    (seq 0 (length n_hidden + 1))) x = Ok y
    /\ Forall (fun row => length row = n_out) y
    /\ length y = length x.
Proof.
  intros Hx Hacts.
  destruct (MLP_forward_built draw ([n_in] ++ n_hidden ++ [n_out]) acts dropout training u
              (length n_hidden + 1) 0 k site x) as (y & Hy & Hry & Hly).
  - exact Hx.
  - intros i Hi. rewrite Nat.add_1_r. cbn [app nth]. apply Hacts. lia.
  - exists y. split; [exact Hy|]. split; [|exact Hly].
    cbn [Nat.add] in Hry. now rewrite nth_last_width in Hry.
Qed.

Lemma softmax_shaped3 C L a : shaped3 C L a -> shaped3 C L (nn.Softmax_forward a).
Proof.
  intros Ha. unfold nn.Softmax_forward. apply Forall_map.
  eapply Forall_impl; [|exact Ha]. intros s [Hlen Hrows]. split.
  - now rewrite length_map.
  - apply Forall_map. eapply Forall_impl; [|exact Hrows].
    intros row Hrow. now rewrite softmax_row_length.
Qed.

Lemma softmax_length a : length (nn.Softmax_forward a) = length a.
Proof. apply length_map. Qed.

(** The encoder returns a latent vector of width [n_latent] per sample
    when the spectra have at least 56 bins, the auxiliary features fit
    [n_aux] and the activations fit the widths of the dense block. *)
Lemma forward_trace_ok g instrument n_latent n_hidden act n_aux dropout
      training grad u x aux L :
  Forall (fun row => length row = L) x -> (56 <= L)%nat ->
  aux_ok n_aux (length x) aux ->
  acts_ok (encoder_act (draw g) (allocated g + 9) n_hidden act) n_hidden n_latent ->
  exists y tr,
    SpectrumEncoder.forward_trace
      (encoder_of g instrument n_latent n_hidden act n_aux dropout)
      training grad u x aux = Ok (y, tr)
    /\ Forall (fun row => length row = n_latent) y /\ length y = length x.
Proof.
  intros Hx HL Haux Hacts. unfold SpectrumEncoder.forward_trace.
  destruct (downsample_ok g instrument n_latent n_hidden act n_aux dropout training u x L Hx HL)
    as (h & a & Hd & Hh & Ha & Hlh & Hla).
  rewrite Hd. cbn [bind].
  destruct (attend_ok 256 (downsampled_length L) h (nn.Softmax_forward a) Hh
              (softmax_shaped3 _ _ _ Ha)) as (p & Hp & Hrp & Hlp).
  { rewrite softmax_length. congruence. }
  rewrite Hp. cbn [bind].
  assert (exists q, match aux with
                    | PyObj aux => SpectrumEncoder.cat_last p aux
                    | _ => Ok p
                    end = Ok q
                    /\ Forall (fun row => length row = (256 + n_aux)%nat) q
                    /\ length q = length x) as (q & Hq & Hrq & Hlq).
  { destruct aux as [| |aux]; cbn [aux_ok] in Haux.
    - subst n_aux. exists p. rewrite Nat.add_0_r. repeat split; [exact Hrp|congruence].
    - subst n_aux. exists p. rewrite Nat.add_0_r. repeat split; [exact Hrp|congruence].
    - destruct Haux as [Hla' Hra].
      destruct (cat_last_ok 256 n_aux p aux Hrp Hra) as (q & Hq & Hrq & Hlq); [congruence|].
      exists q. repeat split; [exact Hq|exact Hrq|congruence]. }
  rewrite Hq. cbn [bind]. unfold MLP.forward, encoder_of. cbn [SpectrumEncoder.mlp].
  destruct (MLP_built_forward_ok (draw g) (256 + n_aux) n_latent n_hidden
              (encoder_act (draw g) (allocated g + 9) n_hidden act) dropout
              (allocated g + 9 + encoder_act_tensors n_hidden act) training
              (fun i j k => u (3 + i)%nat j k 0%nat) 0 q Hrq Hacts) as (y & Hy & Hry & Hly).
  rewrite Hy. cbn [bind]. do 2 eexists. split; [reflexivity|]. split; [exact Hry|congruence].
Qed.

(** ** Absent auxiliary features *)

Lemma t2_binop_length f a b y :
  t2_binop f a b = Ok y -> length a = length b -> length y = length a.
Proof.
  intros H Hlen. unfold t2_binop in H. rewrite bzip_same_length in H by exact Hlen.
  apply mapM_length in H. rewrite H, length_combine. lia.
Qed.

(** The pooled vector has one entry per channel. *)
Lemma attend_rows C h a p :
  SpectrumEncoder.attend h a = Ok p ->
  Forall (channels C) h -> Forall (channels C) a -> length h = length a ->
  Forall (fun row => length row = C) p /\ length p = length h.
Proof.
  unfold SpectrumEncoder.attend. intros H Hh Ha Hlen. inv_bind H. injection H as <-.
  rewrite bzip_same_length in Hv by exact Hlen. split.
  - apply Forall_map.
    eapply (mapM_Forall_pres _ (fun q => channels C (fst q) /\ channels C (snd q)));
      [| |exact Hv].
    + intros [hs ws] r [(L1 & _ & Hl1 & _) (L2 & _ & Hl2 & _)] Hr. cbn [fst snd] in *.
      rewrite length_map. apply t2_binop_length in Hr; congruence.
    + exact (Forall_combine _ _ _ _ Hh Ha).
  - apply mapM_length in Hv. rewrite length_map, Hv, length_combine. lia.
Qed.

Lemma mapM_first_raises {A B} (f : A -> result B) a l e :
  f a = Raise e -> mapM f (a :: l) = Raise e.
Proof. intros H. unfold mapM, imapM. cbn. now rewrite H. Qed.

(** The first affine layer of a constructed encoder refuses rows that are
    not [256 + n_aux] wide. *)
Lemma encoder_mlp_refuses g instrument n_latent n_hidden act n_aux dropout training u p :
  p <> [] -> Forall (fun row => length row = 256%nat) p -> (0 < n_aux)%nat ->
  MLP.forward training u
    (SpectrumEncoder.mlp (encoder_of g instrument n_latent n_hidden act n_aux dropout)) p
  = Raise RuntimeError.
Proof.
  intros Hne Hrows Haux. unfold encoder_of, MLP.forward. cbn [SpectrumEncoder.mlp].
  rewrite Nat.add_1_r. cbn [seq built_layers app MLP.forward_from MLP.layer_forward].
  destruct p as [|row p]; [contradiction|].
  unfold nn.Linear_forward. rewrite (mapM_first_raises _ _ _ RuntimeError); [reflexivity|].
  apply linear_row_mismatch. apply Forall_inv in Hrows. cbn [nn.in_features nth app].
  rewrite Hrows. lia.
Qed.

Lemma forward_trace_absent_aux g instrument n_latent n_hidden act n_aux dropout
      training grad u x aux :
  (0 < n_aux)%nat -> x <> [] -> aux = PyNone \/ aux = PyFalse ->
  raises (SpectrumEncoder.forward_trace
            (encoder_of g instrument n_latent n_hidden act n_aux dropout)
            training grad u x aux).
Proof.
  intros Hn Hx Haux. unfold SpectrumEncoder.forward_trace.
  destruct (SpectrumEncoder._downsample _ training u x) as [[h a]|e] eqn:Hd;
    [|exists e; reflexivity].
  apply downsample_channels in Hd; [|reflexivity].
  destruct Hd as (Hh & Ha & Hlh & Hla). cbn [bind].
  destruct (SpectrumEncoder.attend h (nn.Softmax_forward a)) as [p|e] eqn:Hp;
    [|exists e; reflexivity].
  cbn [bind].
  apply (attend_rows 256) in Hp.
  - destruct Hp as [Hrp Hlp].
    assert (match aux with
            | PyObj aux => SpectrumEncoder.cat_last p aux
            | _ => Ok p
            end = Ok p) as -> by (destruct Haux; subst aux; reflexivity).
    cbn [bind]. rewrite encoder_mlp_refuses; [exists RuntimeError; reflexivity| |exact Hrp|exact Hn].
    intros ->. destruct x; [contradiction|]. cbn in Hlp. rewrite Hlh in Hlp. discriminate.
  - exact Hh.
  - clear -Ha. unfold nn.Softmax_forward. apply Forall_map.
    eapply Forall_impl; [|exact Ha]. intros s (L & HL & Hlen & Hrows).
    exists L. split; [exact HL|]. split.
    + now rewrite length_map.
    + apply Forall_map. eapply Forall_impl; [|exact Hrows].
      intros row Hrow. now rewrite softmax_row_length.
  - rewrite softmax_length. congruence.
Qed.

Lemma fmap_raises {A B} (f : A -> B) (r : result A) : raises r -> raises (fmap f r).
Proof. intros [e ->]. exists e. reflexivity. Qed.

Lemma forward_trace_absent_aux_error g instrument n_latent n_hidden act n_aux dropout
      training grad u x aux L :
  (0 < n_aux)%nat -> x <> [] -> aux = PyNone \/ aux = PyFalse ->
  Forall (fun row => length row = L) x -> (56 <= L)%nat ->
  SpectrumEncoder.forward_trace
    (encoder_of g instrument n_latent n_hidden act n_aux dropout)
    training grad u x aux = Raise RuntimeError.
Proof.
  intros Hn Hne Haux Hx HL. unfold SpectrumEncoder.forward_trace.
  destruct (downsample_ok g instrument n_latent n_hidden act n_aux dropout training u x L Hx HL)
    as (h & a & Hd & Hh & Ha & Hlh & Hla).
  rewrite Hd. cbn [bind].
  destruct (attend_ok 256 (downsampled_length L) h (nn.Softmax_forward a) Hh
              (softmax_shaped3 _ _ _ Ha)) as (p & Hp & Hrp & Hlp).
  { rewrite softmax_length. congruence. }
  rewrite Hp. cbn [bind].
  assert (match aux with
          | PyObj aux => SpectrumEncoder.cat_last p aux
          | _ => Ok p
          end = Ok p) as -> by (destruct Haux; subst aux; reflexivity).
  cbn [bind]. rewrite encoder_mlp_refuses; [reflexivity| |exact Hrp|exact Hn].
  intros ->. destruct x; [contradiction|]. cbn in Hlp. rewrite Hlh in Hlp. discriminate.
Qed.

Lemma flat_spectrum_rows L n :
  Forall (fun row => length row = L) (repeat (flat_spectrum L) n).
Proof.
  apply Forall_forall. intros row Hrow. apply repeat_spec in Hrow. subst row.
  apply repeat_length.
Qed.

Lemma small_encoder_init n_aux :
  SpectrumEncoder.__init__ PyNone 2 [3]%nat None n_aux 0 zero_generator =
    (mkGen (draw zero_generator) 14, Ok (small_encoder n_aux)).
Proof. apply (SpectrumEncoder_init_default PyNone 2 [3]%nat n_aux 0 zero_generator). lra. Qed.

(** ** The claims about the encoder *)

(** C9: the attention weights, the softmax of the key half [a] along the
    position axis, sum to 1 over the positions for each of the 256
    channels of each sample: for the halves that [_downsample] returns,
    and so for the attention weights of every forward call that returns. *)
Theorem attention_weights_sum_to_one :
  forall instrument n_latent n_hidden act n_aux dropout g g' e training u x,
    SpectrumEncoder.__init__ instrument n_latent n_hidden act n_aux dropout g = (g', Ok e) ->
    (forall h a,
        SpectrumEncoder._downsample e training u x = Ok (h, a) ->
        length (nn.Softmax_forward a) = length x
        /\ Forall (fun s => length s = 256%nat /\ Forall (fun row => Rsum row = 1) s)
                  (nn.Softmax_forward a))
    /\ (forall grad aux y tr,
           SpectrumEncoder.forward_trace e training grad u x aux = Ok (y, tr) ->
           length (SpectrumEncoder.attention tr) = length x
           /\ Forall (fun s => length s = 256%nat /\ Forall (fun row => Rsum row = 1) s)
                     (SpectrumEncoder.attention tr)).
Proof.
  intros instrument n_latent n_hidden act n_aux dropout g g' e training u x Hinit.
  apply SpectrumEncoder_init_inv in Hinit. subst e.
  assert (forall h a,
             SpectrumEncoder._downsample
               (encoder_of g instrument n_latent n_hidden act n_aux dropout) training u x
             = Ok (h, a) ->
             length (nn.Softmax_forward a) = length x
             /\ Forall (fun s => length s = 256%nat /\ Forall (fun row => Rsum row = 1) s)
                       (nn.Softmax_forward a)) as Hdown.
  { intros h a Hd. apply downsample_channels in Hd; [|reflexivity].
    destruct Hd as (_ & Ha & _ & Hla). split.
    - now rewrite softmax_length.
    - now apply softmax_channels. }
  split; [exact Hdown|].
  intros grad aux y tr Hf. apply forward_trace_attention in Hf.
  destruct Hf as (h & a & Hd & -> & _). exact (Hdown h a Hd).
Qed.

Lemma attention_weights_sum_to_one_witness :
  exists h a,
    SpectrumEncoder._downsample (small_encoder 0) false zero_noise [flat_spectrum 56] = Ok (h, a)
    /\ length (nn.Softmax_forward a) = 1%nat
    /\ Forall (fun s => length s = 256%nat /\ Forall (fun row => Rsum row = 1) s)
              (nn.Softmax_forward a).
Proof.
  destruct (downsample_ok zero_generator PyNone 2 [3]%nat None 0 0 false zero_noise
              [flat_spectrum 56] 56 (flat_spectrum_rows 56 1) (le_n 56))
    as (h & a & Hd & _).
  exists h, a. split; [exact Hd|].
  exact (proj1 (attention_weights_sum_to_one PyNone 2 [3]%nat None 0 0 zero_generator _ _
                  false zero_noise [flat_spectrum 56] (small_encoder_init 0)) h a Hd).
Defined.

(** C4, the code at the failing input: a forward call in training mode on
    attention weights that require a gradient registers the hook, and the
    backward pass then stores the gradient. In either mode the hook is
    registered exactly when the attention weights require a gradient. *)
Theorem attention_hook_ignores_training :
  forall e training requires_grad u x aux y tr grad,
    SpectrumEncoder.forward_trace e training requires_grad u x aux = Ok (y, tr) ->
    SpectrumEncoder.hook_registered tr = requires_grad
    /\ (training = true -> requires_grad = true ->
        SpectrumEncoder.attention_grad (SpectrumEncoder.backward_attention tr grad None)
        = Some grad).
Proof.
  intros e training requires_grad u x aux y tr grad Hf.
  apply forward_trace_attention in Hf. destruct Hf as (h & a & _ & _ & Hhook).
  assert (SpectrumEncoder.hook_registered tr = requires_grad) as Hreg.
  { rewrite Hhook. destruct training, requires_grad; reflexivity. }
  split; [exact Hreg|].
  intros _ Hg. unfold SpectrumEncoder.backward_attention. rewrite Hreg, Hg. reflexivity.
Qed.

Lemma attention_hook_ignores_training_witness :
  exists y tr,
    SpectrumEncoder.forward_trace (small_encoder 0) true true zero_noise
                                  [flat_spectrum 56] PyNone = Ok (y, tr)
    /\ SpectrumEncoder.hook_registered tr = true.
Proof.
  destruct (forward_trace_ok zero_generator PyNone 2 [3]%nat None 0 0 true true zero_noise
              [flat_spectrum 56] PyNone 56 (flat_spectrum_rows 56 1) (le_n 56) eq_refl
              (default_acts_ok _ _ _ _)) as (y & tr & Hf & _).
  exists y, tr. split; [exact Hf|].
  exact (proj1 (attention_hook_ignores_training _ _ _ _ _ _ _ _ [] Hf)).
Defined.

(** C3, the claim at a concrete encoder: with one auxiliary feature
    declared, the call without auxiliary features raises, while the call
    with a zero auxiliary vector returns. *)
Lemma absent_aux_is_not_zero_aux :
  SpectrumEncoder.forward (small_encoder 1) false false zero_noise
                          [flat_spectrum 56] PyNone = Raise RuntimeError
  /\ is_ok (SpectrumEncoder.forward (small_encoder 1) false false zero_noise
                                    [flat_spectrum 56] (PyObj [[0]])).
Proof.
  split.
  - unfold SpectrumEncoder.forward, small_encoder.
    rewrite (forward_trace_absent_aux_error _ _ _ _ _ _ _ _ _ _ _ _ 56);
      [reflexivity | lia | discriminate | now left | exact (flat_spectrum_rows 56 1) | lia].
  - unfold SpectrumEncoder.forward, small_encoder.
    destruct (forward_trace_ok zero_generator PyNone 2 [3]%nat None 1 0 false false zero_noise
                [flat_spectrum 56] (PyObj [[0]]) 56 (flat_spectrum_rows 56 1) (le_n 56))
      as (y & tr & Hf & _).
    + split; [reflexivity|]. repeat constructor.
    + apply default_acts_ok.
    + rewrite Hf. exists y. reflexivity.
Qed.

(** C3, amended: an encoder constructed with [n_aux > 0] does not accept
    a forward call without auxiliary features ([aux=None] or
    [aux=False]): on a batch of at least one spectrum the call raises
    instead of returning latent vectors.  On spectra of at least 56 bins
    the convolutional stage returns and it is the dense block that
    raises [RuntimeError]: its first affine layer was built for
    [256 + n_aux] inputs and refuses every batch of rows of the 256
    pooled features.  Absent auxiliary features are accepted by an
    encoder constructed with [n_aux = 0]: on spectra of at least 56 bins,
    with activations that fit the widths of its dense block, the call
    returns one latent vector of [n_latent] entries per sample. *)
Theorem absent_aux_requires_no_aux_features :
  forall instrument n_latent n_hidden act n_aux dropout g g' e training grad u x aux L,
    SpectrumEncoder.__init__ instrument n_latent n_hidden act n_aux dropout g = (g', Ok e) ->
    aux = PyNone \/ aux = PyFalse ->
    x <> [] ->
    ((0 < n_aux)%nat ->
     raises (SpectrumEncoder.forward e training grad u x aux)
     /\ (forall v pooled,
            pooled <> [] -> Forall (fun row => length row = 256%nat) pooled ->
            MLP.forward training v (SpectrumEncoder.mlp e) pooled = Raise RuntimeError)
     /\ (Forall (fun row => length row = L) x -> (56 <= L)%nat ->
         is_ok (SpectrumEncoder._downsample e training u x)
         /\ SpectrumEncoder.forward e training grad u x aux = Raise RuntimeError))
    /\ (n_aux = 0%nat ->
        Forall (fun row => length row = L) x -> (56 <= L)%nat ->
        acts_ok (encoder_act (draw g) (allocated g + 9) n_hidden act) n_hidden n_latent ->
        exists y,
          SpectrumEncoder.forward e training grad u x aux = Ok y
          /\ Forall (fun row => length row = n_latent) y
          /\ length y = length x).
Proof.
  intros instrument n_latent n_hidden act n_aux dropout g g' e training grad u x aux L
         Hinit Haux Hne.
  apply SpectrumEncoder_init_inv in Hinit. subst e. unfold SpectrumEncoder.forward. split.
  - intros Hn. split; [|split].
    + apply fmap_raises. now apply forward_trace_absent_aux.
    + intros v pooled Hp Hrows. now apply encoder_mlp_refuses.
    + intros Hx HL. split.
      * destruct (downsample_ok g instrument n_latent n_hidden act n_aux dropout
                    training u x L Hx HL) as (h & a & Hd & _).
        exists (h, a). exact Hd.
      * now rewrite (forward_trace_absent_aux_error _ _ _ _ _ _ _ _ _ _ _ _ L).
  - intros Hn Hx HL Hacts.
    destruct (forward_trace_ok g instrument n_latent n_hidden act n_aux dropout
                training grad u x aux L Hx HL) as (y & tr & Hf & Hry & Hly).
    + destruct Haux; subst aux; exact Hn.
    + exact Hacts.
    + exists y. rewrite Hf. auto.
Qed.

Lemma absent_aux_requires_no_aux_features_witness :
  raises (SpectrumEncoder.forward (small_encoder 1) true false zero_noise
                                  [flat_spectrum 56] PyNone).
Proof.
  exact (proj1 (proj1 (absent_aux_requires_no_aux_features
                         PyNone 2 [3]%nat None 1 0 zero_generator _ _ true false zero_noise
                         [flat_spectrum 56] PyNone 56 (small_encoder_init 1)
                         (or_introl eq_refl)
                         (fun H => @nil_cons _ (flat_spectrum 56) [] (eq_sym H)))
                      (Nat.lt_0_succ 0))).
Defined.

(** ** The claims about the composed model *)

Lemma BaseAutoencoder_init_agree encoder decoder g :
  SpectrumEncoder.n_latent encoder = SpectrumDecoder.n_latent decoder ->
  BaseAutoencoder.__init__ encoder decoder g = (g, Ok (BaseAutoencoder.mk encoder decoder)).
Proof.
  intros H. unfold BaseAutoencoder.__init__. rewrite H, Nat.eqb_refl. reflexivity.
Qed.

(** C6: [BaseAutoencoder.__init__] raises its assertion when the latent
    dimensions of the encoder and of the decoder differ, and otherwise
    returns the model that holds the two components as they were given;
    no parameter tensor is created or changed. *)
Theorem BaseAutoencoder_init_contract :
  forall encoder decoder g,
    BaseAutoencoder.__init__ encoder decoder g =
      if Nat.eqb (SpectrumEncoder.n_latent encoder) (SpectrumDecoder.n_latent decoder)
      then (g, Ok (BaseAutoencoder.mk encoder decoder))
      else (g, Raise AssertionError).
Proof.
  intros encoder decoder g. unfold BaseAutoencoder.__init__.
  destruct (Nat.eqb _ _); reflexivity.
Qed.

Lemma transform_no_redshift interp d spectrum instrument :
  SpectrumDecoder.transform interp d spectrum instrument None = Raise TypeError.
Proof. reflexivity. Qed.

Lemma bind_raises {A B} (m : result A) (k : A -> result B) :
  (forall a, raises (k a)) -> raises (bind m k).
Proof. intros H. destruct m as [a|e]; cbn; [apply H | exists e; reflexivity]. Qed.

(** C10: with the redshift omitted, [BaseAutoencoder.forward] and
    [BaseAutoencoder.loss] raise: [_forward] always calls
    [decoder.transform], whose first line evaluates [1 + z]. The decoder's
    own [forward] skips the transform when instrument and redshift are
    both absent. *)
Theorem forward_without_redshift_raises :
  forall interp m training requires_grad u x w instrument s aux individual,
    raises (BaseAutoencoder._forward interp m training requires_grad u x instrument None s aux)
    /\ raises (BaseAutoencoder.forward interp m training requires_grad u x instrument None s aux)
    /\ raises (BaseAutoencoder.loss interp m training requires_grad u x w instrument None s aux
                                    individual)
    /\ (forall spectrum,
           SpectrumDecoder.transform interp (BaseAutoencoder.decoder m) spectrum instrument None
           = Raise TypeError)
    /\ (forall v latent,
           SpectrumDecoder.forward interp (BaseAutoencoder.decoder m) training v latent
                                   PyNone None
           = SpectrumDecoder.decode (BaseAutoencoder.decoder m) training v latent).
Proof.
  intros interp m training requires_grad u x w instrument s aux individual.
  assert (raises (BaseAutoencoder._forward interp m training requires_grad u x instrument
                                           None s aux)) as H.
  { unfold BaseAutoencoder._forward. apply bind_raises. intros latent.
    apply bind_raises. intros rest. rewrite transform_no_redshift.
    exists TypeError. reflexivity. }
  assert (raises (BaseAutoencoder.forward interp m training requires_grad u x instrument
                                          None s aux)) as H'.
  { unfold BaseAutoencoder.forward. destruct H as [e ->]. exists e. reflexivity. }
  repeat split; try assumption.
  - unfold BaseAutoencoder.loss. destruct H' as [e ->]. exists e. reflexivity.
  - intros v latent. unfold SpectrumDecoder.forward.
    destruct (SpectrumDecoder.decode _ training v latent); reflexivity.
Qed.

(** C1, the code at the failing input: [transform] called without an
    instrument evaluates [instrument.lsf] on [None] after the
    interpolation, so it raises [AttributeError] instead of returning the
    resampled spectrum; with [z = 0] it does so for every spectrum that
    the interpolation accepts. *)
Theorem transform_without_instrument_raises :
  forall interp d spectrum z,
    raises (SpectrumDecoder.transform interp d spectrum PyNone z)
    /\ SpectrumDecoder.transform interp d spectrum PyNone (Some (ZNumber 0)) =
         match interp [map (fun w => w * (1 + 0)) (SpectrumDecoder.wave_rest d)] spectrum
                      (SpectrumDecoder.wave_rest d) with
         | Ok _ => Raise AttributeError
         | Raise e => Raise e
         end.
Proof.
  intros interp d spectrum z. split.
  - unfold SpectrumDecoder.transform. apply bind_raises. intros wave.
    apply bind_raises. intros resampled. exists AttributeError. reflexivity.
  - unfold SpectrumDecoder.transform. cbn [bind].
    destruct (interp _ spectrum (SpectrumDecoder.wave_rest d)); reflexivity.
Qed.

(** ** The loss *)

Lemma mapM_ext_Forall {A B} (f g : A -> result B) l :
  Forall (fun a => f a = g a) l -> mapM f l = mapM g l.
Proof.
  unfold mapM, imapM. generalize 0%nat.
  induction l as [|a l IH]; intros k H; cbn; [reflexivity|].
  inversion H as [|? ? Ha Hl]; subst. now rewrite Ha, (IH (S k) Hl).
Qed.

(** On two tensors of one shape a binary operation acts entry by entry. *)
Lemma t2_binop_same_shape f N L a b :
  shaped N L a -> shaped N L b ->
  t2_binop f a b
  = Ok (map (fun '(ra, rb) => map (fun '(x, y) => f x y) (combine ra rb)) (combine a b)).
Proof.
  intros [Ha Hra] [Hb Hrb]. unfold t2_binop.
  rewrite bzip_same_length by congruence.
  rewrite <- mapM_pure. apply mapM_ext_Forall.
  eapply Forall_impl; [|exact (Forall_combine _ _ _ _ Hra Hrb)].
  intros [ra rb] [H1 H2]. cbn [fst snd] in *.
  apply t1_binop_same_length. congruence.
Qed.

Lemma shaped_map (f : tensor1 -> tensor1) N L a :
  (forall row, length (f row) = length row) -> shaped N L a -> shaped N L (map f a).
Proof.
  intros Hf [Ha Hra]. split; [now rewrite length_map|].
  apply Forall_map. eapply Forall_impl; [|exact Hra].
  intros row Hrow. cbn beta. now rewrite Hf.
Qed.

Lemma shaped_zip (f : R -> R -> R) N L a b :
  shaped N L a -> shaped N L b ->
  shaped N L (map (fun '(ra, rb) => map (fun '(x, y) => f x y) (combine ra rb)) (combine a b)).
Proof.
  intros [Ha Hra] [Hb Hrb]. split.
  - rewrite length_map, length_combine. lia.
  - apply Forall_map. eapply Forall_impl; [|exact (Forall_combine _ _ _ _ Hra Hrb)].
    intros [ra rb] [H1 H2]. cbn [fst snd] in *.
    rewrite length_map, length_combine. lia.
Qed.

(** The bins of one sample as the code computes them and as the spec
    writes them. *)
Lemma row_loss_spec x :
  forall w r,
    map (fun '(hw, d2) => hw * d2)
        (combine (map (Rmult (1 / 2)) w)
                 (map (fun v => v * v) (map (fun '(a, b) => a - b) (combine x r))))
    = zip3 weighted_square x w r.
Proof.
  unfold zip3.
  induction x as [|a x IH]; intros [|b w] [|c r]; cbn [combine map]; try reflexivity.
  rewrite IH. f_equal. unfold weighted_square. ring.
Qed.

Lemma shape1_shaped N L x : shaped N L x -> x <> [] -> shape1 x = L.
Proof.
  intros [_ Hrows] Hne. destruct x as [|row x]; [contradiction|].
  apply Forall_inv in Hrows. exact Hrows.
Qed.

Lemma loss_rows_spec k x :
  forall w r,
    map (fun row => Rsum row / INR k)
        (map (fun '(ra, rb) => map (fun '(hw, d2) => hw * d2) (combine ra rb))
             (combine (map (map (Rmult (1 / 2))) w)
                      (map (map (fun v => v * v))
                           (map (fun '(ra, rb) => map (fun '(a, b) => a - b) (combine ra rb))
                                (combine x r)))))
    = loss_ind_spec k x w r.
Proof.
  unfold loss_ind_spec, zip3.
  induction x as [|a x IH]; intros [|b w] [|c r]; cbn [combine map]; try reflexivity.
  rewrite IH. f_equal. unfold per_sample_loss. now rewrite row_loss_spec.
Qed.

Lemma loss_formula N L x w r individual :
  shaped N L x -> shaped N L w -> shaped N L r ->
  BaseAutoencoder._loss x w r individual
  = Ok (if individual
        then BaseAutoencoder.PerSample (loss_ind_spec L x w r)
        else BaseAutoencoder.Summed (Rsum (loss_ind_spec L x w r))).
Proof.
  intros Hx Hw Hr. unfold BaseAutoencoder._loss.
  rewrite (t2_binop_same_shape Rminus N L) by assumption. cbn [bind].
  rewrite (t2_binop_same_shape Rmult N L).
  - cbn [bind]. rewrite loss_rows_spec.
    destruct x as [|row x].
    + destruct individual; reflexivity.
    + rewrite (shape1_shaped N L) by (assumption || discriminate).
      destruct individual; reflexivity.
  - apply shaped_map; [|exact Hw]. intros row. apply length_map.
  - apply shaped_map; [intros row; apply length_map|]. now apply shaped_zip.
Qed.

Lemma Rsum_zeros l : Forall (eq 0) l -> Rsum l = 0.
Proof.
  induction 1 as [|v l <- _ IH]; [reflexivity|]. rewrite Rsum_cons, IH. lra.
Qed.

Lemma row_loss_exact L x : forall w, per_sample_loss L x w x = 0.
Proof.
  intros w. unfold per_sample_loss. rewrite Rsum_zeros; [unfold Rdiv; apply Rmult_0_l|].
  unfold zip3. revert w.
  induction x as [|a x IH]; intros [|b w]; cbn [combine map]; constructor.
  - unfold weighted_square. ring.
  - apply IH.
Qed.

Lemma loss_exact L x : forall w, Forall (eq 0) (loss_ind_spec L x w x).
Proof.
  unfold loss_ind_spec, zip3.
  induction x as [|a x IH]; intros [|b w]; cbn [combine map]; constructor.
  - symmetry. apply row_loss_exact.
  - apply IH.
Qed.

Lemma loss_ind_spec_length N L x w r :
  shaped N L x -> shaped N L w -> shaped N L r -> length (loss_ind_spec L x w r) = N.
Proof.
  intros [Hx _] [Hw _] [Hr _]. unfold loss_ind_spec, zip3.
  rewrite length_map, !length_combine. lia.
Qed.

(** C2: for a batch [x] of [N] spectra of [L] bins, weights [w] and a
    reconstruction [r] of the same shape, the loss is, per sample, the sum
    over the bins of [0.5 * w * (x - r)^2] divided by [L]; the flag
    [individual] selects the vector of [N] per-sample losses, otherwise
    their sum is returned. [loss] is this function of the reconstruction
    that [forward] returns. With [r = x] every per-sample loss and the sum
    are 0. *)
Theorem loss_is_weighted_mean_square :
  forall N L x w r,
    shaped N L x -> shaped N L w -> shaped N L r ->
    BaseAutoencoder._loss x w r true
    = Ok (BaseAutoencoder.PerSample (loss_ind_spec L x w r))
    /\ BaseAutoencoder._loss x w r false
       = Ok (BaseAutoencoder.Summed (Rsum (loss_ind_spec L x w r)))
    /\ length (loss_ind_spec L x w r) = N
    /\ (forall interp m training requires_grad u instrument z s aux individual,
           BaseAutoencoder.forward interp m training requires_grad u x instrument z s aux
           = Ok r ->
           BaseAutoencoder.loss interp m training requires_grad u x w instrument z s aux
                                individual
           = Ok (if individual
                 then BaseAutoencoder.PerSample (loss_ind_spec L x w r)
                 else BaseAutoencoder.Summed (Rsum (loss_ind_spec L x w r))))
    /\ (r = x ->
        Forall (eq 0) (loss_ind_spec L x w r) /\ Rsum (loss_ind_spec L x w r) = 0).
Proof.
  intros N L x w r Hx Hw Hr.
  split; [exact (loss_formula N L x w r true Hx Hw Hr)|].
  split; [exact (loss_formula N L x w r false Hx Hw Hr)|].
  split; [exact (loss_ind_spec_length N L x w r Hx Hw Hr)|].
  split.
  - intros interp m training requires_grad u instrument z s aux individual Hf.
    unfold BaseAutoencoder.loss. rewrite Hf. cbn [bind].
    exact (loss_formula N L x w r individual Hx Hw Hr).
  - intros ->. split; [apply loss_exact|]. apply Rsum_zeros, loss_exact.
Qed.

Lemma ones_shaped N L : shaped N L (repeat (repeat 1 L) N).
Proof.
  split; [apply repeat_length|].
  apply Forall_forall. intros row Hrow. apply repeat_spec in Hrow. subst row.
  apply repeat_length.
Qed.

Lemma loss_is_weighted_mean_square_witness :
  BaseAutoencoder._loss (repeat (repeat 1 200) 4) (repeat (repeat 1 200) 4)
                        (repeat (repeat 1 200) 4) false
  = Ok (BaseAutoencoder.Summed
          (Rsum (loss_ind_spec 200 (repeat (repeat 1 200) 4) (repeat (repeat 1 200) 4)
                               (repeat (repeat 1 200) 4))))
  /\ Rsum (loss_ind_spec 200 (repeat (repeat 1 200) 4) (repeat (repeat 1 200) 4)
                         (repeat (repeat 1 200) 4)) = 0.
Proof.
  pose proof (loss_is_weighted_mean_square 4 200 _ _ _ (ones_shaped 4 200) (ones_shaped 4 200)
                (ones_shaped 4 200)) as (_ & Hsum & _ & _ & Hzero).
  split; [exact Hsum|]. exact (proj2 (Hzero eq_refl)).
Defined.

(** ** Evaluation mode *)

Lemma imap_from_id {A} (f : nat -> A -> A) l :
  (forall i a, f i a = a) -> forall k, imap_from k f l = l.
Proof.
  intros H. induction l as [|a l IH]; intros k; cbn; [reflexivity|]. now rewrite H, IH.
Qed.

Lemma dropout2_eval p u x : nn.Dropout_forward2 p false u x = x.
Proof.
  unfold nn.Dropout_forward2, imap. apply imap_from_id. intros j row.
  apply imap_from_id. reflexivity.
Qed.

Lemma dropout3_eval p u x : nn.Dropout_forward3 p false u x = x.
Proof.
  unfold nn.Dropout_forward3, imap. apply imap_from_id. intros j s.
  apply imap_from_id. intros c row. apply imap_from_id. reflexivity.
Qed.

Lemma MLP_forward_eval m :
  forall site u x, MLP.forward_from site false u m x = without_dropout m x.
Proof.
  induction m as [|l m IH]; intros site u x; [reflexivity|].
  cbn [MLP.forward_from without_dropout].
  destruct l as [l|a|p]; cbn [MLP.layer_forward].
  - destruct (nn.Linear_forward l x); cbn [bind]; [apply IH|reflexivity].
  - destruct (mapM (MLP.activation_row a) x); cbn [bind]; [apply IH|reflexivity].
  - rewrite dropout2_eval. cbn [bind]. apply IH.
Qed.

Lemma block_forward_eval u b x :
  SpectrumEncoder.block_forward false u b x = block_without_dropout b x.
Proof.
  unfold SpectrumEncoder.block_forward, block_without_dropout.
  destruct (nn.Conv1d_forward _ x) as [x1|e]; cbn [bind]; [|reflexivity].
  destruct (nn.InstanceNorm1d_forward _ x1) as [x2|e]; cbn [bind]; [|reflexivity].
  destruct (nn.PReLU_forward3 _ _ x2) as [x3|e]; cbn [bind]; [|reflexivity].
  now rewrite dropout3_eval.
Qed.

Lemma downsample_eval e u u' x :
  SpectrumEncoder._downsample e false u x = SpectrumEncoder._downsample e false u' x.
Proof.
  unfold SpectrumEncoder._downsample. now rewrite !block_forward_eval.
Qed.

Lemma forward_trace_eval e grad u u' x aux :
  SpectrumEncoder.forward_trace e false grad u x aux
  = SpectrumEncoder.forward_trace e false grad u' x aux.
Proof.
  unfold SpectrumEncoder.forward_trace, MLP.forward.
  rewrite (downsample_eval e u u').
  destruct (SpectrumEncoder._downsample e false u' x) as [[h a]|err]; cbn [bind]; [|reflexivity].
  destruct (SpectrumEncoder.attend h (nn.Softmax_forward a)) as [p|err]; cbn [bind];
    [|reflexivity].
  destruct (match aux with
            | PyObj aux => SpectrumEncoder.cat_last p aux
            | _ => Ok p
            end) as [q|err]; cbn [bind]; [|reflexivity].
  now rewrite !MLP_forward_eval.
Qed.

Lemma autoencoder_forward_eval interp m grad u u' x instrument z s aux :
  BaseAutoencoder._forward interp m false grad u x instrument z s aux
  = BaseAutoencoder._forward interp m false grad u' x instrument z s aux.
Proof.
  unfold BaseAutoencoder._forward, BaseAutoencoder.encode, BaseAutoencoder.decode,
    SpectrumEncoder.forward, SpectrumDecoder.forward, SpectrumDecoder.decode, MLP.forward.
  rewrite (forward_trace_eval _ grad u u').
  destruct (match s with
            | Some s0 => Ok s0
            | None => fmap fst (SpectrumEncoder.forward_trace _ false grad u' x aux)
            end) as [latent|err]; cbn [bind]; [|reflexivity].
  now rewrite !MLP_forward_eval.
Qed.

Lemma built_layers_without_dropout draw n_ act p p' range :
  forall k x,
    without_dropout (built_layers draw n_ act p k range) x
    = without_dropout (built_layers draw n_ act p' k range) x.
Proof.
  induction range as [|i range IH]; intros k x; [reflexivity|].
  cbn [built_layers app without_dropout MLP.layer_forward].
  destruct (nn.Linear_forward _ x) as [x1|e]; cbn [bind]; [|reflexivity].
  destruct (mapM _ x1) as [x2|e]; cbn [bind]; [|reflexivity].
  apply IH.
Qed.

Lemma forward_trace_eval_dropout g instrument n_latent n_hidden act n_aux p p' grad u u' x aux :
  SpectrumEncoder.forward_trace (encoder_of g instrument n_latent n_hidden act n_aux p)
                                false grad u x aux
  = SpectrumEncoder.forward_trace (encoder_of g instrument n_latent n_hidden act n_aux p')
                                  false grad u' x aux.
Proof.
  assert (SpectrumEncoder._downsample (encoder_of g instrument n_latent n_hidden act n_aux p)
                                      false u x
          = SpectrumEncoder._downsample (encoder_of g instrument n_latent n_hidden act n_aux p')
                                        false u' x) as Hd by reflexivity.
  unfold SpectrumEncoder.forward_trace, MLP.forward. rewrite Hd.
  destruct (SpectrumEncoder._downsample _ false u' x) as [[h a]|err]; cbn [bind]; [|reflexivity].
  destruct (SpectrumEncoder.attend h (nn.Softmax_forward a)) as [pooled|err]; cbn [bind];
    [|reflexivity].
  destruct (match aux with
            | PyObj aux => SpectrumEncoder.cat_last pooled aux
            | _ => Ok pooled
            end) as [q|err]; cbn [bind]; [|reflexivity].
  rewrite !MLP_forward_eval. unfold encoder_of. cbn [SpectrumEncoder.mlp].
  now rewrite (built_layers_without_dropout _ _ _ p p').
Qed.

(** C8: in evaluation mode a dropout layer returns its input, whatever
    its probability and the random draws, and the forward computations of
    the dense block, of the encoder and of the autoencoder do not depend
    on the draws: two calls with the same inputs and parameters return the
    same result. An encoder built with another dropout probability, and
    otherwise the same parameters, returns the same latent vectors. *)
Theorem evaluation_mode_is_deterministic :
  forall interp m requires_grad u u' x instrument z s aux,
    (forall p v y, nn.Dropout_forward2 p false v y = y)
    /\ (forall p v y, nn.Dropout_forward3 p false v y = y)
    /\ (forall mlp site site' v v' y,
           MLP.forward_from site false v mlp y = MLP.forward_from site' false v' mlp y)
    /\ SpectrumEncoder.forward (BaseAutoencoder.encoder m) false requires_grad u x aux
       = SpectrumEncoder.forward (BaseAutoencoder.encoder m) false requires_grad u' x aux
    /\ BaseAutoencoder.forward interp m false requires_grad u x instrument z s aux
       = BaseAutoencoder.forward interp m false requires_grad u' x instrument z s aux
    /\ (forall w individual,
           BaseAutoencoder.loss interp m false requires_grad u x w instrument z s aux individual
           = BaseAutoencoder.loss interp m false requires_grad u' x w instrument z s aux
                                  individual)
    /\ (forall g enc_instrument n_latent n_hidden act n_aux p p',
           SpectrumEncoder.forward
             (encoder_of g enc_instrument n_latent n_hidden act n_aux p)
             false requires_grad u x aux
           = SpectrumEncoder.forward
               (encoder_of g enc_instrument n_latent n_hidden act n_aux p')
               false requires_grad u' x aux).
Proof.
  intros interp m requires_grad u u' x instrument z s aux.
  split; [intros; apply dropout2_eval|].
  split; [intros; apply dropout3_eval|].
  split; [intros; now rewrite !MLP_forward_eval|].
  split; [unfold SpectrumEncoder.forward; now rewrite (forward_trace_eval _ _ u u')|].
  assert (BaseAutoencoder.forward interp m false requires_grad u x instrument z s aux
          = BaseAutoencoder.forward interp m false requires_grad u' x instrument z s aux) as Hf.
  { unfold BaseAutoencoder.forward. now rewrite (autoencoder_forward_eval _ _ _ u u'). }
  split; [exact Hf|].
  split; [intros w individual; unfold BaseAutoencoder.loss; now rewrite Hf|].
  intros g enc_instrument n_latent n_hidden act n_aux p p'.
  unfold SpectrumEncoder.forward.
  now rewrite (forward_trace_eval_dropout g enc_instrument n_latent n_hidden act n_aux p p'
                 requires_grad u u' x aux).
Qed.

(** ** Permuting the batch *)

Lemma equi_bind {A B} (actA : A -> A) (validA : A -> Prop)
      (actB : B -> B) (validB : B -> Prop) (r r' : result A) (k k' : A -> result B) :
  equi actA validA r r' ->
  (forall y, validA y -> equi actB validB (k y) (k' (actA y))) ->
  equi actB validB (bind r k) (bind r' k').
Proof.
  intros Hr Hk. destruct r as [y|e]; cbn in *.
  - destruct Hr as [Hy ->]. cbn. now apply Hk.
  - destruct Hr as [e' ->]. exists e'. reflexivity.
Qed.

Lemma equi_weaken {B} (act : B -> B) (valid valid' : B -> Prop) (r r' : result B) :
  equi act valid r r' -> (forall y, valid y -> valid' y) -> equi act valid' r r'.
Proof. intros H Hv. destruct r; cbn in *; [destruct H; auto | exact H]. Qed.

Lemma flat_map_ext_in {A B} (f g : A -> list B) l :
  (forall a, In a l -> f a = g a) -> flat_map f l = flat_map g l.
Proof.
  intros H. rewrite !flat_map_concat_map. f_equal. now apply map_ext_in.
Qed.

Section Permuted.

Variable p : list nat.
Variable N : nat.
Hypothesis Hp : Permutation p (seq 0 N).

Lemma in_perm i : In i p <-> (i < N)%nat.
Proof.
  split; intros H.
  - apply (Permutation_in _ Hp) in H. apply in_seq in H. lia.
  - apply (Permutation_in _ (Permutation_sym Hp)). apply in_seq. lia.
Qed.

Lemma length_perm : length p = N.
Proof. rewrite (Permutation_length Hp). apply length_seq. Qed.

Lemma permute_gather {A} (q : list nat) (l : list A) (d : A) :
  Forall (fun i => (i < length l)%nat) q ->
  permute q l = map (fun i => nth i l d) q.
Proof.
  induction 1 as [|i q Hi _ IH]; [reflexivity|].
  unfold permute in *. cbn [flat_map map]. rewrite IH.
  destruct (nth_error l i) as [a|] eqn:E.
  - now rewrite (nth_error_nth _ _ d E).
  - apply nth_error_None in E. lia.
Qed.

Lemma perm_in_range {A} (l : list A) :
  length l = N -> Forall (fun i => (i < length l)%nat) p.
Proof. intros Hl. apply Forall_forall. intros i Hi. apply in_perm in Hi. lia. Qed.

Lemma permute_length {A} (l : list A) : length l = N -> length (permute p l) = N.
Proof.
  intros Hl. destruct l as [|d l].
  - cbn in Hl. subst N. pose proof (Permutation_nil (Permutation_sym Hp)) as Hnil.
    now rewrite Hnil.
  - rewrite (permute_gather p (d :: l) d (perm_in_range _ Hl)).
    rewrite length_map. apply length_perm.
Qed.

Lemma permute_map {A B} (f : A -> B) (q : list nat) (l : list A) :
  permute q (map f l) = map f (permute q l).
Proof.
  unfold permute. induction q as [|i q IH]; [reflexivity|].
  cbn [flat_map]. rewrite map_app, IH, nth_error_map.
  now destruct (nth_error l i).
Qed.

Lemma permute_combine {A B} (q : list nat) (a : list A) (b : list B) :
  length a = length b ->
  permute q (combine a b) = combine (permute q a) (permute q b).
Proof.
  intros Hlen. unfold permute. induction q as [|i q IH]; [reflexivity|].
  cbn [flat_map]. rewrite IH.
  destruct (nth_error a i) as [x|] eqn:Ea, (nth_error b i) as [y|] eqn:Eb.
  - assert (nth_error (combine a b) i = Some (x, y)) as ->; [|reflexivity].
    clear -Ea Eb. revert i b Ea Eb.
    induction a as [|x' a IHa]; intros [|i] [|y' b] Ea Eb; cbn in *; try discriminate.
    + congruence.
    + now apply IHa.
  - apply nth_error_None in Eb.
    assert (i < length a)%nat by (apply nth_error_Some; congruence). lia.
  - apply nth_error_None in Ea.
    assert (i < length b)%nat by (apply nth_error_Some; congruence). lia.
  - assert (nth_error (combine a b) i = None) as ->; [|reflexivity].
    apply nth_error_None. rewrite length_combine. apply nth_error_None in Ea. lia.
Qed.

Lemma Permutation_permute {A} (l : list A) :
  length l = N -> Permutation (permute p l) l.
Proof.
  intros Hl. unfold permute.
  rewrite (Permutation_flat_map _ Hp). subst N. clear.
  induction l as [|a l IH] using rev_ind; [reflexivity|].
  rewrite length_app. cbn [length]. rewrite Nat.add_1_r, seq_S, flat_map_app.
  cbn [flat_map Nat.add]. rewrite nth_error_app2, Nat.sub_diag by lia. cbn [nth_error].
  rewrite app_nil_r. apply Permutation_app_tail.
  rewrite <- IH at 2.
  rewrite (flat_map_ext_in
             (fun i => match nth_error (l ++ [a]) i with Some a0 => [a0] | None => [] end)
             (fun i => match nth_error l i with Some a0 => [a0] | None => [] end));
    [reflexivity|].
  intros i Hi. apply in_seq in Hi. rewrite nth_error_app1 by lia. reflexivity.
Qed.

Lemma Forall_permute {A} (P : A -> Prop) (q : list nat) (l : list A) :
  Forall P l -> Forall P (permute q l).
Proof.
  intros Hl. unfold permute. apply Forall_flat_map. apply Forall_forall. intros i _.
  destruct (nth_error l i) as [a|] eqn:E; [|constructor].
  constructor; [|constructor]. apply nth_error_In in E.
  rewrite Forall_forall in Hl. now apply Hl.
Qed.

End Permuted.

Lemma imapM_from_nth {A B} (F : nat -> A -> result B) l :
  forall k y,
    imapM_from k F l = Ok y ->
    forall i a, nth_error l i = Some a ->
                exists b, F (k + i)%nat a = Ok b /\ nth_error y i = Some b.
Proof.
  induction l as [|a0 l IH]; intros k y H i a Hi.
  - destruct i; discriminate.
  - cbn in H. inv_bind H. inv_bind H. injection H as <-.
    destruct i as [|i]; cbn in Hi.
    + injection Hi as <-. rewrite Nat.add_0_r. eauto.
    + destruct (IH _ _ Hv0 i a Hi) as (b & Hb & Hy).
      exists b. split; [|exact Hy]. now replace (k + S i)%nat with (S k + i)%nat by lia.
Qed.

Lemma imapM_from_fails {A B} (F : nat -> A -> result B) l :
  forall k e,
    imapM_from k F l = Raise e ->
    exists i a e', nth_error l i = Some a /\ F (k + i)%nat a = Raise e'.
Proof.
  induction l as [|a0 l IH]; intros k e H; [discriminate|].
  cbn in H. destruct (F k a0) as [b|e0] eqn:E0.
  - cbn in H. destruct (imapM_from (S k) F l) as [bs|e1] eqn:E1; [discriminate|].
    destruct (IH _ _ E1) as (i & a & e' & Hi & Hf).
    exists (S i), a, e'. split; [exact Hi|].
    now replace (k + S i)%nat with (S k + i)%nat by lia.
  - exists 0%nat, a0, e0. rewrite Nat.add_0_r. auto.
Qed.

Lemma imapM_pure {A B} (f : nat -> A -> B) l :
  forall k, imapM_from k (fun j a => Ok (f j a)) l = Ok (imap_from k f l).
Proof. induction l as [|a l IH]; intros k; cbn; [reflexivity|]. now rewrite IH. Qed.

Section Gather.

Context {A B : Type}.
Variable F : nat -> A -> result B.
Variable P : list nat.
Variable l : list A.

(** The samples at the indices [q], the tail of [P], computed with the
    index that each had in [l]. *)
Lemma imapM_gather_Ok (y : list B) :
  (forall i a, nth_error l i = Some a -> exists b, F i a = Ok b /\ nth_error y i = Some b) ->
  forall q pre,
    P = pre ++ q ->
    Forall (fun i => (i < length l)%nat) q ->
    imapM_from (length pre) (fun j => F (nth j P 0%nat)) (permute q l) = Ok (permute q y).
Proof.
  intros Hy. induction q as [|i q IH]; intros pre HP Hq; [reflexivity|].
  inversion Hq as [|? ? Hi Hq']; subst.
  destruct (nth_error l i) as [a|] eqn:Ea.
  2:{ apply nth_error_None in Ea. lia. }
  destruct (Hy i a Ea) as (b & Hb & Hyb).
  unfold permute in *. cbn [flat_map]. rewrite Ea, Hyb. cbn [app imapM_from].
  rewrite app_nth2, Nat.sub_diag by lia. cbn [nth]. rewrite Hb. cbn [bind].
  specialize (IH (pre ++ [i])). rewrite length_app, Nat.add_1_r in IH.
  rewrite IH; [reflexivity| |exact Hq'].
  now rewrite <- app_assoc.
Qed.

Lemma imapM_gather_Raise i a e :
  nth_error l i = Some a -> F i a = Raise e ->
  forall q pre,
    P = pre ++ q ->
    Forall (fun i => (i < length l)%nat) q ->
    In i q ->
    raises (imapM_from (length pre) (fun j => F (nth j P 0%nat)) (permute q l)).
Proof.
  intros Ha Hf. induction q as [|i' q IH]; intros pre HP Hq Hin; [contradiction|].
  inversion Hq as [|? ? Hi Hq']; subst.
  destruct (nth_error l i') as [a'|] eqn:Ea.
  2:{ apply nth_error_None in Ea. lia. }
  unfold permute in *. cbn [flat_map]. rewrite Ea. cbn [app imapM_from].
  rewrite app_nth2, Nat.sub_diag by lia. cbn [nth].
  destruct (F i' a') as [b|e'] eqn:Eb; [|exists e'; reflexivity].
  cbn [bind]. destruct Hin as [->|Hin]; [congruence|].
  specialize (IH (pre ++ [i'])). rewrite length_app, Nat.add_1_r in IH.
  destruct IH as [e'' ->]; [now rewrite <- app_assoc|exact Hq'|exact Hin|].
  exists e''. reflexivity.
Qed.

End Gather.

Section Equivariance.

Variable p : list nat.
Variable N : nat.
Hypothesis Hp : Permutation p (seq 0 N).

(** The central fact: an operation that handles the samples one by one,
    sample [j] with its own index, commutes with the permutation when the
    indices are carried along. *)
Lemma imapM_equi {A B} (F : nat -> A -> result B) (l : list A) :
  length l = N ->
  equi (permute p) (fun y => length y = N)
       (imapM F l) (imapM (fun j => F (nth j p 0%nat)) (permute p l)).
Proof.
  intros Hl. unfold equi, imapM.
  destruct (imapM_from 0 F l) as [y|e] eqn:E.
  - split.
    + apply imapM_from_length in E. congruence.
    + apply (imapM_gather_Ok F p l y) with (pre := []).
      * intros i a Hi. exact (imapM_from_nth F l 0 y E i a Hi).
      * reflexivity.
      * now apply (perm_in_range p N Hp).
  - destruct (imapM_from_fails F l 0 e E) as (i & a & e' & Hi & Hf).
    apply (imapM_gather_Raise F p l i a e' Hi Hf p []).
    + reflexivity.
    + now apply (perm_in_range p N Hp).
    + apply (in_perm p N Hp). rewrite <- Hl. apply nth_error_Some. congruence.
Qed.

Lemma mapM_equi {A B} (f : A -> result B) (l : list A) :
  length l = N ->
  equi (permute p) (fun y => length y = N) (mapM f l) (mapM f (permute p l)).
Proof. intros Hl. exact (imapM_equi (fun _ => f) l Hl). Qed.

Lemma imap_permute {A B} (f : nat -> A -> B) (l : list A) :
  length l = N ->
  permute p (imap f l) = imap (fun j => f (nth j p 0%nat)) (permute p l).
Proof.
  intros Hl. pose proof (imapM_equi (fun j a => Ok (f j a)) l Hl) as H.
  unfold equi, imapM in H. rewrite imapM_pure in H. destruct H as [_ H].
  rewrite (imapM_pure (fun j => f (nth j p 0%nat))) in H. now injection H.
Qed.

End Equivariance.

Lemma permute_nil {A} (q : list nat) : permute q (@nil A) = [].
Proof.
  unfold permute. induction q as [|i q IH]; [reflexivity|].
  cbn [flat_map]. rewrite IH. now destruct i.
Qed.

Lemma equi_strengthen {B} (act : B -> B) (valid valid' : B -> Prop) (r r' : result B) :
  equi act valid r r' -> (forall y, r = Ok y -> valid' y) ->
  equi act (fun y => valid y /\ valid' y) r r'.
Proof.
  intros H Hv. destruct r as [y|e]; cbn in *; [|exact H].
  destruct H as [Hy H]. repeat split; auto.
Qed.

Lemma equi_Ok {B} (act : B -> B) (valid : B -> Prop) (y y' : B) :
  valid y -> y' = act y -> equi act valid (Ok y) (Ok y').
Proof. intros Hv ->. split; [exact Hv|reflexivity]. Qed.

Section EncoderStages.

Variable p : list nat.
Variable N : nat.
Hypothesis Hp : Permutation p (seq 0 N).

Lemma dropout3_permute q training (u : nat -> nat -> nat -> R) (x : tensor3) :
  length x = N ->
  permute p (nn.Dropout_forward3 q training u x)
  = nn.Dropout_forward3 q training (fun j => u (nth j p 0%nat)) (permute p x).
Proof. intros Hx. unfold nn.Dropout_forward3. now rewrite (imap_permute p N Hp). Qed.

Lemma dropout2_permute q training (u : nat -> nat -> R) (x : tensor2) :
  length x = N ->
  permute p (nn.Dropout_forward2 q training u x)
  = nn.Dropout_forward2 q training (fun j => u (nth j p 0%nat)) (permute p x).
Proof. intros Hx. unfold nn.Dropout_forward2. now rewrite (imap_permute p N Hp). Qed.

Lemma block_forward_equi training (u : nat -> nat -> nat -> R) b (x : tensor3) :
  length x = N ->
  equi (permute p) (fun y => length y = N)
       (SpectrumEncoder.block_forward training u b x)
       (SpectrumEncoder.block_forward training (fun j => u (nth j p 0%nat)) b (permute p x)).
Proof.
  intros Hx. unfold SpectrumEncoder.block_forward.
  eapply equi_bind; [exact (mapM_equi p N Hp _ x Hx)|]. intros x1 H1. cbn beta in H1.
  eapply equi_bind; [exact (mapM_equi p N Hp _ x1 H1)|]. intros x2 H2. cbn beta in H2.
  eapply equi_bind; [exact (mapM_equi p N Hp _ x2 H2)|]. intros x3 H3. cbn beta in H3.
  apply equi_Ok.
  - now rewrite dropout3_length.
  - symmetry. now apply dropout3_permute.
Qed.

Lemma split_channels_equi C (x : tensor3) :
  length x = N -> Forall (channels C) x ->
  equi (permute_pair p) (fun ha => length (fst ha) = N /\ length (snd ha) = N)
       (SpectrumEncoder.split_channels (length (hd [] x) / 2) x)
       (SpectrumEncoder.split_channels (length (hd [] (permute p x)) / 2) (permute p x)).
Proof.
  intros Hx Hc.
  assert (length (hd [] (permute p x)) = length (hd [] x)) as ->.
  { destruct x as [|s x].
    - now rewrite permute_nil.
    - rewrite (hd_channels C (s :: x) Hc) by discriminate.
      apply (hd_channels C); [now apply Forall_permute|].
      intros Hnil. pose proof (permute_length p N Hp (s :: x) Hx) as Hl.
      rewrite Hnil in Hl. cbn in Hl, Hx. lia. }
  unfold SpectrumEncoder.split_channels.
  eapply equi_bind; [exact (mapM_equi p N Hp _ x Hx)|]. intros xs Hxs. cbn beta in Hxs.
  apply equi_Ok.
  - cbn [fst snd]. now rewrite !length_map.
  - unfold permute_pair. cbn [fst snd]. now rewrite !permute_map.
Qed.

Lemma downsample_equi e training (u : nn.noise) (x : tensor2) :
  length x = N ->
  equi (permute_pair p) (fun ha => length (fst ha) = N /\ length (snd ha) = N)
       (SpectrumEncoder._downsample e training u x)
       (SpectrumEncoder._downsample e training (permute_noise p u) (permute p x)).
Proof.
  intros Hx. unfold SpectrumEncoder._downsample.
  assert (length (unsqueeze1 x) = N) as H0 by (unfold unsqueeze1; now rewrite length_map).
  assert (unsqueeze1 (permute p x) = permute p (unsqueeze1 x)) as ->
      by (unfold unsqueeze1; now rewrite permute_map).
  eapply equi_bind; [exact (block_forward_equi training (u 0%nat) _ _ H0)|].
  intros x1 H1. cbn beta in H1.
  eapply equi_bind; [exact (mapM_equi p N Hp _ x1 H1)|]. intros x2 H2. cbn beta in H2.
  eapply equi_bind; [exact (block_forward_equi training (u 1%nat) _ _ H2)|].
  intros x3 H3. cbn beta in H3.
  eapply equi_bind; [exact (mapM_equi p N Hp _ x3 H3)|]. intros x4 H4. cbn beta in H4.
  eapply equi_bind.
  - apply equi_strengthen; [exact (block_forward_equi training (u 2%nat) _ _ H4)|].
    intros x5 H5. exact (proj1 (block_forward_channels _ _ _ _ _ H5)).
  - intros x5 [H5 Hc]. cbn beta in H5, Hc. now apply (split_channels_equi _ x5 H5 Hc).
Qed.

Lemma attend_equi (h a : tensor3) :
  length h = N -> length a = N ->
  equi (permute p) (fun y => length y = N)
       (SpectrumEncoder.attend h a)
       (SpectrumEncoder.attend (permute p h) (permute p a)).
Proof.
  intros Hh Ha. unfold SpectrumEncoder.attend.
  rewrite !bzip_same_length
    by (rewrite ?(permute_length p N Hp) by assumption; congruence).
  rewrite <- permute_combine by congruence.
  eapply equi_bind.
  - apply (mapM_equi p N Hp). rewrite length_combine. lia.
  - intros ha Hha. cbn beta in Hha. apply equi_Ok.
    + now rewrite length_map.
    + now rewrite permute_map.
Qed.

Lemma cat_aux_equi (x : tensor2) (aux : pyopt tensor2) :
  length x = N ->
  match aux with PyObj a => length a = N | _ => True end ->
  equi (permute p) (fun y => length y = N)
       (match aux with
        | PyObj aux => SpectrumEncoder.cat_last x aux
        | _ => Ok x
        end)
       (match permute_aux p aux with
        | PyObj aux => SpectrumEncoder.cat_last (permute p x) aux
        | _ => Ok (permute p x)
        end).
Proof.
  intros Hx Haux. destruct aux as [| |a]; cbn [permute_aux];
    try (apply equi_Ok; [exact Hx|reflexivity]).
  unfold SpectrumEncoder.cat_last.
  rewrite !(permute_length p N Hp) by assumption.
  rewrite Hx, Haux, Nat.eqb_refl. apply equi_Ok.
  - rewrite length_map, length_combine. lia.
  - rewrite permute_map, permute_combine by congruence. reflexivity.
Qed.

Lemma layer_forward_equi training (v : nat -> nat -> R) l (x : tensor2) :
  length x = N ->
  equi (permute p) (fun y => length y = N)
       (MLP.layer_forward training v l x)
       (MLP.layer_forward training (fun j => v (nth j p 0%nat)) l (permute p x)).
Proof.
  intros Hx. destruct l as [l|a|q]; cbn [MLP.layer_forward].
  - exact (mapM_equi p N Hp _ x Hx).
  - exact (mapM_equi p N Hp _ x Hx).
  - apply equi_Ok.
    + unfold nn.Dropout_forward2. now rewrite imap_length.
    + symmetry. now apply dropout2_permute.
Qed.

Lemma MLP_forward_equi training (v : nat -> nat -> nat -> R) m :
  forall site (x : tensor2),
    length x = N ->
    equi (permute p) (fun y => length y = N)
         (MLP.forward_from site training v m x)
         (MLP.forward_from site training (fun i j => v i (nth j p 0%nat)) m (permute p x)).
Proof.
  induction m as [|l m IH]; intros site x Hx; cbn [MLP.forward_from].
  - now apply equi_Ok.
  - eapply equi_bind; [exact (layer_forward_equi training (v site) l x Hx)|].
    intros y Hy. now apply IH.
Qed.

Lemma forward_trace_equi e training grad (u : nn.noise) (x : tensor2) aux :
  length x = N ->
  match aux with PyObj a => length a = N | _ => True end ->
  equi (permute_traced p) (fun yt => length (fst yt) = N)
       (SpectrumEncoder.forward_trace e training grad u x aux)
       (SpectrumEncoder.forward_trace e training grad (permute_noise p u) (permute p x)
                                      (permute_aux p aux)).
Proof.
  intros Hx Haux. unfold SpectrumEncoder.forward_trace.
  eapply equi_bind; [exact (downsample_equi e training u x Hx)|].
  intros [h a] [Hh Ha]. cbn [fst snd permute_pair] in *.
  assert (nn.Softmax_forward (permute p a) = permute p (nn.Softmax_forward a)) as ->
      by (unfold nn.Softmax_forward; now rewrite permute_map).
  eapply equi_bind.
  { apply attend_equi; [exact Hh|now rewrite softmax_length]. }
  intros pooled Hpooled. cbn beta in Hpooled.
  eapply equi_bind; [exact (cat_aux_equi pooled aux Hpooled Haux)|].
  intros q Hq. cbn beta in Hq.
  eapply equi_bind.
  { exact (MLP_forward_equi training (fun i j k => u (3 + i)%nat j k 0%nat)
             (SpectrumEncoder.mlp e) 0 q Hq). }
  intros y Hy. cbn beta in Hy. apply equi_Ok; [exact Hy|reflexivity].
Qed.

End EncoderStages.

Lemma Rsum_Permutation l l' : Permutation l l' -> Rsum l = Rsum l'.
Proof.
  induction 1 as [|v l l' _ IH|v v' l|l l' l'' _ IH1 _ IH2];
    rewrite ?Rsum_cons; try lra; congruence.
Qed.

Section ModelStages.

Variable p : list nat.
Variable N : nat.
Hypothesis Hp : Permutation p (seq 0 N).

Lemma t2_binop_equi f (a b : tensor2) :
  length a = N -> length b = N ->
  equi (permute p) (fun y => length y = N)
       (t2_binop f a b) (t2_binop f (permute p a) (permute p b)).
Proof.
  intros Ha Hb. unfold t2_binop.
  rewrite !bzip_same_length
    by (rewrite ?(permute_length p N Hp) by assumption; congruence).
  rewrite <- permute_combine by congruence.
  apply (mapM_equi p N Hp). rewrite length_combine. lia.
Qed.

Lemma shape1_permute L (x : tensor2) :
  length x = N -> Forall (fun row => length row = L) x ->
  shape1 (permute p x) = shape1 x.
Proof.
  intros Hx Hrows. destruct x as [|row x].
  - now rewrite permute_nil.
  - unfold shape1. cbn [hd]. rewrite (Forall_inv Hrows).
    pose proof (Forall_permute _ p _ Hrows) as Hperm.
    pose proof (permute_length p N Hp _ Hx) as Hl.
    destruct (permute p (row :: x)) as [|row' x']; [cbn in Hl, Hx; lia|].
    exact (Forall_inv Hperm).
Qed.

Lemma loss_equi L (x w r : tensor2) individual :
  length x = N -> length w = N -> length r = N ->
  Forall (fun row => length row = L) x ->
  equi (permute_loss p) (fun _ => True)
       (BaseAutoencoder._loss x w r individual)
       (BaseAutoencoder._loss (permute p x) (permute p w) (permute p r) individual).
Proof.
  intros Hx Hw Hr Hrows. unfold BaseAutoencoder._loss.
  rewrite (shape1_permute L x Hx Hrows).
  eapply equi_bind; [exact (t2_binop_equi Rminus x r Hx Hr)|].
  intros d Hd. cbn beta in Hd.
  rewrite <- !permute_map.
  eapply equi_bind.
  { apply t2_binop_equi; now rewrite length_map. }
  intros q Hq. cbn beta in Hq. rewrite <- permute_map.
  destruct individual; (apply equi_Ok; [exact I|]); cbn [permute_loss]; [reflexivity|].
  f_equal. apply Rsum_Permutation. apply (Permutation_permute p N Hp).
  now rewrite length_map.
Qed.

End ModelStages.

(** ** Construction of the decoder and of the composed model *)

Lemma SpectrumDecoder_init_ok wave_rest n_latent n_hidden act dropout g :
  0 <= dropout <= 1 ->
  length (act_of n_hidden act) = (length n_hidden + 1)%nat ->
  SpectrumDecoder.__init__ wave_rest n_latent n_hidden act dropout g =
    (mkGen (draw g) (allocated g + 2 * (length n_hidden + 1)),
     Ok (decoder_of g wave_rest n_latent n_hidden act dropout)).
Proof.
  intros Hp Hlen. unfold SpectrumDecoder.__init__, cbind.
  rewrite MLP_init_ok by assumption. reflexivity.
Qed.

(** The constructor of [SpectrumAutoencoder] returns the composed model:
    the encoder and the decoder it builds share [n_latent]. *)
Lemma SpectrumAutoencoder_init_ok instrument wave_rest n_latent n_aux n_hidden act g :
  length (act_of n_hidden act) = (length n_hidden + 1)%nat ->
  exists g' m,
    SpectrumAutoencoder.__init__ instrument wave_rest n_latent n_aux n_hidden act g
    = (g', Ok m)
    /\ SpectrumEncoder.n_latent (BaseAutoencoder.encoder m) = n_latent
    /\ SpectrumDecoder.n_latent (BaseAutoencoder.decoder m) = n_latent.
Proof.
  intros Hlen. unfold SpectrumAutoencoder.__init__, cbind.
  rewrite SpectrumEncoder_init_default by lra.
  rewrite SpectrumDecoder_init_ok by (try exact Hlen; lra).
  rewrite BaseAutoencoder_init_agree by reflexivity.
  do 2 eexists. split; [reflexivity|]. split; reflexivity.
Qed.

(** ** The reconstruction that the loss compares with *)

Lemma two_spectra_shaped : shaped 2 56 [flat_spectrum 56; repeat 1 56].
Proof.
  split; [reflexivity|]. repeat constructor; apply repeat_length.
Qed.

Lemma transform_without_instrument_raises_any interp d y z instrument :
  instrument = PyNone \/ instrument = PyFalse ->
  raises (SpectrumDecoder.transform interp d y instrument z).
Proof.
  intros H. unfold SpectrumDecoder.transform. apply bind_raises. intros wave.
  apply bind_raises. intros resampled. exists AttributeError.
  destruct H; subst instrument; reflexivity.
Qed.









(** * Further properties of the module *)

(** ** The dense block *)

Lemma built_layers_refuse draw n_in rest_widths act dropout k m training u row x :
  length row <> n_in ->
  MLP.forward training u
    (built_layers draw (n_in :: rest_widths) act dropout k (seq 0 (S m))) (row :: x)
  = Raise RuntimeError.
Proof.
  intros Hrow. unfold MLP.forward.
  cbn [seq built_layers app MLP.forward_from MLP.layer_forward].
  unfold nn.Linear_forward. rewrite (mapM_first_raises _ _ _ RuntimeError); [reflexivity|].
  apply linear_row_mismatch. cbn [nn.in_features nth]. exact Hrow.
Qed.

(** X1: for a dropout probability in [0, 1], [MLP.__init__] with its
    default activations returns a dense block that maps a batch of rows of
    width [n_in] to as many rows of width [n_out], in either mode; on a
    batch whose first row has another width its first affine layer
    raises. *)
Theorem MLP_maps_widths :
  forall n_in n_out n_hidden dropout g training u (x : tensor2),
    0 <= dropout <= 1 ->
    exists g' m,
      MLP.__init__ n_in n_out n_hidden None dropout g = (g', Ok m)
      /\ (Forall (fun row => length row = n_in) x ->
          exists y, MLP.forward training u m x = Ok y
                    /\ Forall (fun row => length row = n_out) y
                    /\ length y = length x)
      /\ (forall row rest, x = row :: rest -> length row <> n_in ->
                           MLP.forward training u m x = Raise RuntimeError).
Proof.
  intros n_in n_out n_hidden dropout g training u x Hp.
  do 2 eexists. split; [|split].
  - apply MLP_init_ok; [exact Hp|]. cbn [act_of]. apply repeat_length.
  - intros Hx. apply MLP_built_forward_ok; [exact Hx|apply leaky_acts_ok].
  - intros row rest -> Hrow. rewrite Nat.add_1_r. cbn [app].
    now apply built_layers_refuse.
Qed.

Lemma MLP_maps_widths_witness :
  exists g' m y,
    MLP.__init__ 2 3 [4]%nat None (1 / 2) zero_generator = (g', Ok m)
    /\ MLP.forward true (fun _ _ _ => 0) m [[1; 2]] = Ok y
    /\ Forall (fun row => length row = 3%nat) y
    /\ length y = 1%nat.
Proof.
  destruct (MLP_maps_widths 2 3 [4]%nat (1 / 2) zero_generator true (fun _ _ _ => 0)
              [[1; 2]]) as (g' & m & Hm & Hok & _); [lra|].
  destruct Hok as (y & Hy & Hrows & Hl); [repeat constructor|].
  exists g', m, y. repeat split; assumption.
Defined.

(** ** SpeculatorActivation *)

Lemma sigmoid_between t : 0 < nn.sigmoid t < 1.
Proof.
  unfold nn.sigmoid. pose proof (exp_pos (- t)) as He.
  assert (1 / (1 + exp (- t)) * (1 + exp (- t)) = 1) as H by (field; lra).
  split; nra.
Qed.

Lemma speculator_entry_between beta gamma plus_one x :
  Rmin (gamma * x) x + plus_one_offset plus_one
  <= SpeculatorActivation.entry beta gamma plus_one x
  <= Rmax (gamma * x) x + plus_one_offset plus_one.
Proof.
  pose proof (sigmoid_between (beta * x)) as [H0 H1].
  pose proof (Rmin_l (gamma * x) x). pose proof (Rmin_r (gamma * x) x).
  pose proof (Rmax_l (gamma * x) x). pose proof (Rmax_r (gamma * x) x).
  unfold SpeculatorActivation.entry, plus_one_offset.
  set (s := nn.sigmoid (beta * x)) in *.
  destruct plus_one; split; nra.
Qed.

Lemma speculator_entry_origin beta gamma plus_one :
  SpeculatorActivation.entry beta gamma plus_one 0 = plus_one_offset plus_one.
Proof. unfold SpeculatorActivation.entry, plus_one_offset. destruct plus_one; ring. Qed.

(** X2: on a sample with as many features as the activation has
    parameters, [SpeculatorActivation.forward] keeps the width, and every
    output lies between [gamma * x] and [x] (shifted by 1 with
    [plus_one]), whatever [beta] and [gamma] are; the input 0 is mapped to
    0 (to 1 with [plus_one]). *)
Theorem SpeculatorActivation_between :
  forall n beta gamma plus_one v,
    length v = n ->
    exists y,
      SpeculatorActivation.forward_row n beta gamma plus_one v = Ok y
      /\ length y = n
      /\ forall i x,
          nth_error v i = Some x ->
          exists o,
            nth_error y i = Some o
            /\ Rmin (gamma i * x) x + plus_one_offset plus_one <= o
               <= Rmax (gamma i * x) x + plus_one_offset plus_one
            /\ (x = 0 -> o = plus_one_offset plus_one).
Proof.
  intros n beta gamma plus_one v Hv. unfold SpeculatorActivation.forward_row.
  rewrite Hv, Nat.eqb_refl. eexists. split; [reflexivity|]. split.
  - now rewrite imap_length.
  - intros i x Hi. unfold imap. rewrite nth_error_imap_from, Hi. cbn [option_map Nat.add].
    eexists. split; [reflexivity|]. split.
    + apply speculator_entry_between.
    + intros ->. apply speculator_entry_origin.
Qed.

Lemma SpeculatorActivation_between_witness :
  exists y,
    SpeculatorActivation.forward_row 2 (fun _ => 1) (fun _ => 0) true [0; 1] = Ok y
    /\ length y = 2%nat.
Proof.
  destruct (SpeculatorActivation_between 2 (fun _ => 1) (fun _ => 0) true [0; 1] eq_refl)
    as (y & Hy & Hlen & _).
  exists y. split; [exact Hy|exact Hlen].
Defined.

(** ** Construction of the encoder and of the composed model *)

(** X3: with a dropout probability in [0, 1],
    [SpectrumEncoder.__init__] with no [act] list returns an encoder, with
    256 pooled features, the attributes it was given, and
    [9 + len(n_hidden) + 2 * (len(n_hidden) + 1)] parameter tensors
    created; with an explicit list it returns when the list has
    [len(n_hidden) + 1] entries, and otherwise the assertion of its dense
    block is raised, after the nine parameter tensors of the three
    convolutional blocks have been created. A dropout probability outside
    [0, 1] is refused with [ValueError] by the [nn.Dropout] of the first
    convolutional block, after the three parameter tensors of that block
    have been created, whatever the [act] list is. *)
Theorem SpectrumEncoder_init_contract :
  forall instrument n_latent n_hidden act n_aux dropout g,
    let built e g' :=
      SpectrumEncoder.__init__ instrument n_latent n_hidden act n_aux dropout g = (g', Ok e)
      /\ SpectrumEncoder.instrument e = instrument
      /\ SpectrumEncoder.n_latent e = n_latent
      /\ SpectrumEncoder.n_aux e = n_aux
      /\ SpectrumEncoder.n_feature e = 256%nat
      /\ length (SpectrumEncoder.mlp e) = (3 * (length n_hidden + 1))%nat in
    (0 <= dropout <= 1 ->
     match act with
     | None =>
         exists e, built e (mkGen (draw g)
                                  (allocated g + 9 + length n_hidden
                                   + 2 * (length n_hidden + 1)))
     | Some l =>
         if Nat.eqb (length l) (length n_hidden + 1)
         then exists e, built e (mkGen (draw g) (allocated g + 9
                                                 + 2 * (length n_hidden + 1)))
         else SpectrumEncoder.__init__ instrument n_latent n_hidden act n_aux dropout g
              = (mkGen (draw g) (allocated g + 9), Raise AssertionError)
     end)
    /\ (~ 0 <= dropout <= 1 ->
        SpectrumEncoder.__init__ instrument n_latent n_hidden act n_aux dropout g
        = (mkGen (draw g) (allocated g + 3), Raise ValueError)).
Proof.
  intros instrument n_latent n_hidden act n_aux dropout g built.
  split; [|apply SpectrumEncoder_init_refuses_dropout].
  intros Hp. destruct act as [l|].
  - destruct (Nat.eqb (length l) (length n_hidden + 1)) eqn:E.
    + apply Nat.eqb_eq in E. eexists. unfold built. split.
      * rewrite (SpectrumEncoder_init_ok instrument n_latent n_hidden (Some l))
          by assumption.
        cbn [encoder_act_tensors]. now rewrite Nat.add_0_r.
      * cbn. rewrite length_built_layers, length_seq. auto.
    + apply Nat.eqb_neq in E. unfold SpectrumEncoder.__init__.
      unfold cbind at 1. rewrite conv_blocks_eval by exact Hp. cbn [map firstn last].
      unfold cbind at 1. rewrite (encoder_act_eval n_hidden (Some l)). cbn [draw allocated].
      unfold cbind at 1. cbn [encoder_act encoder_act_tensors]. rewrite Nat.add_0_r.
      now rewrite MLP_init_mismatch by exact E.
  - eexists. unfold built. split.
    + apply SpectrumEncoder_init_default. exact Hp.
    + cbn. rewrite length_built_layers, length_seq. auto.
Qed.

Lemma SpectrumEncoder_init_contract_witness :
  (exists e,
      SpectrumEncoder.__init__ PyNone 2 [3]%nat None 1 (1 / 2) zero_generator
      = (mkGen (draw zero_generator) 14, Ok e)
      /\ SpectrumEncoder.n_feature e = 256%nat)
  /\ SpectrumEncoder.__init__ PyNone 2 [3]%nat None 1 (3 / 2) zero_generator
     = (mkGen (draw zero_generator) 3, Raise ValueError).
Proof.
  split.
  - destruct (proj1 (SpectrumEncoder_init_contract PyNone 2 [3]%nat None 1 (1 / 2)
                       zero_generator)) as (e & He & _ & _ & _ & Hf & _); [lra|].
    exists e. split; [exact He|exact Hf].
  - apply (proj2 (SpectrumEncoder_init_contract PyNone 2 [3]%nat None 1 (3 / 2)
                    zero_generator)). lra.
Defined.

Lemma SpectrumAutoencoder_init_eval instrument wave_rest n_latent n_aux n_hidden act g :
  length (act_of n_hidden act) = (length n_hidden + 1)%nat ->
  SpectrumAutoencoder.__init__ instrument wave_rest n_latent n_aux n_hidden act g
  = (mkGen (draw g) (allocated g + 20 + 2 * (length n_hidden + 1)),
     Ok (BaseAutoencoder.mk
           (encoder_of g instrument n_latent [128; 64; 32]%nat None n_aux 0)
           (decoder_of (mkGen (draw g) (allocated g + 20)) wave_rest n_latent n_hidden act 0))).
Proof.
  intros Hlen. unfold SpectrumAutoencoder.__init__. unfold cbind at 1.
  rewrite SpectrumEncoder_init_default by lra. cbn [length].
  replace (allocated g + 9 + 3 + 2 * (3 + 1))%nat with (allocated g + 20)%nat by lia.
  unfold cbind at 1. rewrite SpectrumDecoder_init_ok by (try exact Hlen; lra).
  cbn [draw allocated].
  now rewrite BaseAutoencoder_init_agree by reflexivity.
Qed.

(** X4: [SpectrumAutoencoder.__init__] never trips the latent-dimension
    assertion of [BaseAutoencoder]: it hands the same [n_latent] to the
    encoder and to the decoder. It returns the composed model whenever the
    decoder's [act] list is absent or has [len(n_hidden) + 1] entries, the
    encoder having the hidden widths (128, 64, 32) and the instrument, the
    decoder the rest-frame grid; otherwise the assertion of the decoder's
    dense block is raised, after the 20 parameter tensors of the encoder
    have been created. *)
Theorem SpectrumAutoencoder_init_contract :
  forall instrument wave_rest n_latent n_aux n_hidden act g,
    if Nat.eqb (length (act_of n_hidden act)) (length n_hidden + 1)
    then
      exists g' m,
        SpectrumAutoencoder.__init__ instrument wave_rest n_latent n_aux n_hidden act g
        = (g', Ok m)
        /\ SpectrumEncoder.n_latent (BaseAutoencoder.encoder m) = n_latent
        /\ SpectrumDecoder.n_latent (BaseAutoencoder.decoder m) = n_latent
        /\ SpectrumEncoder.n_aux (BaseAutoencoder.encoder m) = n_aux
        /\ SpectrumEncoder.instrument (BaseAutoencoder.encoder m) = instrument
        /\ autoencoder_wave_rest m = wave_rest
        /\ autoencoder_wave_obs m = match instrument with
                                    | PyObj i => Ok (wave_obs i)
                                    | _ => Raise AttributeError
                                    end
    else
      SpectrumAutoencoder.__init__ instrument wave_rest n_latent n_aux n_hidden act g
      = (mkGen (draw g) (allocated g + 20), Raise AssertionError).
Proof.
  intros instrument wave_rest n_latent n_aux n_hidden act g.
  destruct (Nat.eqb (length (act_of n_hidden act)) (length n_hidden + 1)) eqn:E.
  - apply Nat.eqb_eq in E. do 2 eexists. split.
    + apply SpectrumAutoencoder_init_eval. exact E.
    + cbn. repeat split; reflexivity.
  - apply Nat.eqb_neq in E. destruct act as [l|].
    2:{ exfalso. apply E. cbn. apply repeat_length. }
    unfold SpectrumAutoencoder.__init__. unfold cbind at 1.
    rewrite SpectrumEncoder_init_default by lra. cbn [length].
    replace (allocated g + 9 + 3 + 2 * (3 + 1))%nat with (allocated g + 20)%nat by lia.
    unfold cbind at 1. unfold SpectrumDecoder.__init__, cbind at 1.
    now rewrite MLP_init_mismatch by exact E.
Qed.

(** ** Counting the trainable parameters *)

Lemma MLP_n_parameters_cons l m :
  MLP_n_parameters (l :: m) = (numel_Layer l + MLP_n_parameters m)%Z.
Proof. reflexivity. Qed.

Lemma built_parameters_shift draw draw' a0 n_ b0 act dropout dropout' m :
  forall a k k',
    MLP_n_parameters (built_layers draw (a0 :: n_) (b0 :: act) dropout k (seq (S a) m))
    = MLP_n_parameters (built_layers draw' n_ act dropout' k' (seq a m)).
Proof.
  induction m as [|m IH]; intros a k k'; [reflexivity|].
  cbn [seq built_layers app]. rewrite !MLP_n_parameters_cons, (IH (S a) _ (S (S k'))).
  cbn [numel_Layer numel_Linear nn.in_features nn.out_features Nat.add nth]. reflexivity.
Qed.

Lemma default_dense_parameters n_hidden :
  forall draw draw' n_in n_out dropout k k',
    MLP_n_parameters
      (built_layers draw (n_in :: n_hidden ++ [n_out])
                    (default_act_of draw' k' n_hidden ++ [nn.Identity]) dropout k
                    (seq 0 (length n_hidden + 1)))
    = (affine_parameters n_in (n_hidden ++ [n_out]) + Zsum (map Z.of_nat n_hidden))%Z.
Proof.
  induction n_hidden as [|n rest IH]; intros draw draw' n_in n_out dropout k k'.
  - cbn. unfold MLP_n_parameters. cbn. unfold numel_Linear. cbn [nn.in_features nn.out_features].
    lia.
  - cbn [length Nat.add app]. unfold default_act_of. cbn [imap_from app].
    cbn [seq built_layers]. cbn [app]. rewrite !MLP_n_parameters_cons.
    fold (default_act_of draw' (S k') rest).
    rewrite (built_parameters_shift draw draw n_in (n :: rest ++ [n_out]) _
               (default_act_of draw' (S k') rest ++ [nn.Identity]) dropout dropout
               (length rest + 1) 0 (S (S k)) 0).
    rewrite IH.
    cbn [numel_Layer numel_Activation nth Nat.add affine_parameters map Zsum fold_right].
    unfold numel_Linear. cbn [nn.in_features nn.out_features].
    fold (Zsum (map Z.of_nat rest)). lia.
Qed.

Lemma leaky_dense_parameters n_hidden :
  forall draw n_in n_out dropout k,
    MLP_n_parameters
      (built_layers draw (n_in :: n_hidden ++ [n_out])
                    (repeat (nn.LeakyReLU (1 / 100)) (length n_hidden + 1)) dropout k
                    (seq 0 (length n_hidden + 1)))
    = affine_parameters n_in (n_hidden ++ [n_out]).
Proof.
  induction n_hidden as [|n rest IH]; intros draw n_in n_out dropout k.
  - cbn. unfold MLP_n_parameters. cbn. unfold numel_Linear. cbn [nn.in_features nn.out_features].
    lia.
  - cbn [length Nat.add app repeat]. cbn [seq built_layers]. cbn [app].
    rewrite !MLP_n_parameters_cons.
    rewrite (built_parameters_shift draw draw n_in (n :: rest ++ [n_out]) _
               (repeat (nn.LeakyReLU (1 / 100)) (length rest + 1)) dropout dropout
               (length rest + 1) 0 (S (S k)) 0).
    rewrite IH.
    cbn [numel_Layer numel_Activation nth Nat.add affine_parameters].
    unfold numel_Linear. cbn [nn.in_features nn.out_features]. lia.
Qed.

Lemma conv_parameters g instrument n_latent n_hidden act n_aux dropout :
  let e := encoder_of g instrument n_latent n_hidden act n_aux dropout in
  (numel_ConvBlock (SpectrumEncoder.conv1 e)
   + numel_ConvBlock (SpectrumEncoder.conv2 e)
   + numel_ConvBlock (SpectrumEncoder.conv3 e) = 3115392)%Z.
Proof. reflexivity. Qed.

(** X5: every encoder that [SpectrumEncoder.__init__] returns with the
    default activations has [3115392 + affine + sum(n_hidden)] trainable
    parameters of its own: 3115392 in the three convolutional blocks
    (filters, biases and PReLU slopes; the instance normalisation has
    none), the weights and biases of the dense block from [256 + n_aux]
    inputs through [n_hidden] to [n_latent], and one PReLU slope per
    hidden unit; the dropout layers have none. The instrument is the
    record of the spec, a grid and two functions, which holds no
    parameter. *)
Theorem encoder_parameter_count :
  forall instrument n_latent n_hidden n_aux dropout g g' e,
    SpectrumEncoder.__init__ instrument n_latent n_hidden None n_aux dropout g = (g', Ok e) ->
    encoder_n_parameters e
    = (3115392 + affine_parameters (256 + n_aux) (n_hidden ++ [n_latent])
       + Zsum (map Z.of_nat n_hidden))%Z.
Proof.
  intros instrument n_latent n_hidden n_aux dropout g g' e He.
  apply SpectrumEncoder_init_inv in He. subst e.
  unfold encoder_n_parameters.
  rewrite (conv_parameters g instrument n_latent n_hidden None n_aux dropout).
  unfold encoder_of. cbn [SpectrumEncoder.mlp encoder_act app].
  rewrite default_dense_parameters. lia.
Qed.

Lemma encoder_parameter_count_witness :
  encoder_n_parameters (small_encoder 1) = 3116177%Z.
Proof.
  rewrite (encoder_parameter_count PyNone 2 [3]%nat 1 0 zero_generator _ _
             (small_encoder_init 1)).
  reflexivity.
Defined.

(** X6: for a model built by [SpectrumAutoencoder.__init__] with the
    decoder's default activations, the decoder has the weights and biases
    of its dense block from [n_latent] inputs through [n_hidden] to one
    output per rest-frame wavelength (the wavelength grid, a buffer, is
    not counted), and [n_parameter] of the model is the sum of the counts
    of its encoder and decoder. *)
Theorem autoencoder_parameter_count :
  forall instrument wave_rest n_latent n_aux n_hidden g,
    exists g' m,
      SpectrumAutoencoder.__init__ instrument wave_rest n_latent n_aux n_hidden None g
      = (g', Ok m)
      /\ decoder_n_parameters (BaseAutoencoder.decoder m)
         = affine_parameters n_latent (n_hidden ++ [length wave_rest])
      /\ autoencoder_n_parameter m
         = (3115392 + affine_parameters (256 + n_aux) [128; 64; 32; n_latent]%nat + 224
            + affine_parameters n_latent (n_hidden ++ [length wave_rest]))%Z.
Proof.
  intros instrument wave_rest n_latent n_aux n_hidden g.
  do 2 eexists. split.
  { apply SpectrumAutoencoder_init_eval. cbn. apply repeat_length. }
  assert (decoder_n_parameters
            (decoder_of (mkGen (draw g) (allocated g + 20)) wave_rest n_latent n_hidden None 0)
          = affine_parameters n_latent (n_hidden ++ [length wave_rest])) as Hdec.
  { unfold decoder_n_parameters, decoder_of. cbn [SpectrumDecoder.mlp act_of app].
    apply leaky_dense_parameters. }
  split; [exact Hdec|].
  unfold autoencoder_n_parameter. cbn [BaseAutoencoder.encoder BaseAutoencoder.decoder].
  rewrite Hdec. unfold encoder_n_parameters.
  rewrite (conv_parameters g instrument n_latent [128; 64; 32]%nat None n_aux 0).
  change (MLP_n_parameters
            (SpectrumEncoder.mlp
               (encoder_of g instrument n_latent [128; 64; 32]%nat None n_aux 0)))
    with (MLP_n_parameters
            (built_layers (draw g) ((256 + n_aux)%nat :: [128; 64; 32]%nat ++ [n_latent])
                          (default_act_of (draw g) (allocated g + 9) [128; 64; 32]%nat
                           ++ [nn.Identity]) 0 (allocated g + 9 + 3)
                          (seq 0 (length [128; 64; 32]%nat + 1)))).
  rewrite (default_dense_parameters [128; 64; 32]%nat). cbn [app map Zsum fold_right]. lia.
Qed.

(** ** The shortest spectrum that the encoder accepts *)

Lemma mapM_cons_inv {A B} (f : A -> result B) a l y :
  mapM f (a :: l) = Ok y -> exists b bs, y = b :: bs /\ f a = Ok b.
Proof.
  unfold mapM, imapM. cbn. intros H. inv_bind H. inv_bind H. injection H as <-. eauto.
Qed.

Lemma conv1d_sample_fits c s y :
  nn.conv1d_sample c s = Ok y ->
  (nn.kernel_size c <= nn.positions s + 2 * nn.padding c)%nat.
Proof.
  unfold nn.conv1d_sample. destruct (negb _); [discriminate|].
  destruct (Nat.ltb_spec (nn.positions s + 2 * nn.padding c) (nn.kernel_size c));
    [discriminate|]. intros _. assumption.
Qed.

Lemma instance_norm_sample_fits m s y :
  nn.instance_norm_sample m s = Ok y -> nn.positions s <> 1%nat.
Proof.
  unfold nn.instance_norm_sample. destruct (Nat.eqb_spec (nn.positions s) 1); [discriminate|].
  intros _. assumption.
Qed.

(** What a block that returns says about the first sample of the batch. *)
Lemma block_first_sample training u b s x y C L :
  SpectrumEncoder.block_forward training u b (s :: x) = Ok y ->
  shaped C L s -> (0 < C)%nat -> (0 < nn.out_channels (SpectrumEncoder.conv b))%nat ->
  let L' := (L + 2 * nn.padding (SpectrumEncoder.conv b)
             - nn.kernel_size (SpectrumEncoder.conv b) + 1)%nat in
  exists s' y',
    y = s' :: y'
    /\ shaped (nn.out_channels (SpectrumEncoder.conv b)) L' s'
    /\ (nn.kernel_size (SpectrumEncoder.conv b)
        <= L + 2 * nn.padding (SpectrumEncoder.conv b))%nat
    /\ L' <> 1%nat.
Proof.
  intros H Hs HC Hout L'. unfold SpectrumEncoder.block_forward in H.
  inv_bind H. inv_bind H. inv_bind H. injection H as <-.
  apply mapM_cons_inv in Hv. destruct Hv as (s1 & r1 & -> & Hs1).
  apply mapM_cons_inv in Hv0. destruct Hv0 as (s2 & r2 & -> & Hs2).
  apply mapM_cons_inv in Hv1. destruct Hv1 as (s3 & r3 & -> & Hs3).
  pose proof (conv1d_sample_fits _ _ _ Hs1) as Hfit.
  pose proof (conv1d_sample_shape _ _ _ Hs1) as Hsh1.
  rewrite (positions_shaped _ _ _ Hs HC) in Hfit, Hsh1. fold L' in Hsh1.
  pose proof (instance_norm_sample_fits _ _ _ Hs2) as Hone.
  rewrite (positions_shaped _ _ _ Hsh1 Hout) in Hone.
  pose proof (instance_norm_sample_shape _ _ _ _ _ Hs2 Hsh1) as Hsh2.
  pose proof (prelu3_sample_shape _ _ _ _ _ _ Hs3 Hsh2) as Hsh3.
  unfold nn.Dropout_forward3, imap. cbn [imap_from].
  do 2 eexists. split; [reflexivity|]. split; [|split; assumption].
  now apply dropout3_sample_shape.
Qed.

Lemma pool_first_sample m s x y C L :
  nn.MaxPool1d_forward m (s :: x) = Ok y -> shaped C L s -> (0 < C)%nat ->
  exists s' y',
    y = s' :: y'
    /\ shaped C (nn.pooled_length (nn.pool_kernel m) (nn.pool_padding m) L) s'.
Proof.
  intros H Hs HC. apply mapM_cons_inv in H. destruct H as (s' & y' & -> & Hs').
  exists s', y'. split; [reflexivity|]. eapply maxpool_sample_shape; eauto.
Qed.

Lemma downsample_needs_56 g instrument n_latent n_hidden act n_aux dropout
      training u row x h a :
  SpectrumEncoder._downsample (encoder_of g instrument n_latent n_hidden act n_aux dropout)
                              training u (row :: x) = Ok (h, a) ->
  (56 <= length row)%nat.
Proof.
  intros H. unfold SpectrumEncoder._downsample, encoder_of in H.
  cbn [SpectrumEncoder.conv1 SpectrumEncoder.conv2 SpectrumEncoder.conv3
       SpectrumEncoder.pool1 SpectrumEncoder.pool2 unsqueeze1 map] in H.
  inv_bind H. inv_bind H. inv_bind H. inv_bind H. inv_bind H. clear H.
  set (L := length row) in *.
  assert (shaped 1 L [row]) as H0 by (split; [reflexivity|repeat constructor]).
  destruct (block_first_sample _ _ _ _ _ _ 1 L Hv H0) as (s1 & r1 & -> & Hs1 & Hk1 & Hn1);
    [cbn; lia ..|].
  cbn in Hs1, Hk1, Hn1.
  destruct (pool_first_sample _ _ _ _ 128 _ Hv0 Hs1) as (s2 & r2 & -> & Hs2); [lia|].
  cbn [nn.pool_kernel nn.pool_padding] in Hs2.
  remember (nn.pooled_length 5 2 (L + 4 - 5 + 1)) as L1 eqn:EL1.
  destruct (block_first_sample _ _ _ _ _ _ 128 L1 Hv1 Hs2) as (s3 & r3 & -> & Hs3 & Hk3 & Hn3);
    [cbn; lia ..|].
  cbn in Hs3, Hk3, Hn3.
  destruct (pool_first_sample _ _ _ _ 256 _ Hv2 Hs3) as (s4 & r4 & -> & Hs4); [lia|].
  cbn [nn.pool_kernel nn.pool_padding] in Hs4.
  remember (nn.pooled_length 11 5 (L1 + 10 - 11 + 1)) as L2 eqn:EL2.
  destruct (block_first_sample _ _ _ _ _ _ 256 L2 Hv3 Hs4) as (s5 & r5 & -> & Hs5 & Hk5 & Hn5);
    [cbn; lia ..|].
  cbn in Hk5, Hn5.
  unfold nn.pooled_length in EL1, EL2.
  destruct (Nat.lt_ge_cases L 56) as [Hlt|Hge]; [exfalso|exact Hge].
  assert ((L + 4 - 5 + 1 + 2 * 2 - 5) / 5 < 11)%nat as Hq1
      by (apply Nat.Div0.div_lt_upper_bound; lia).
  assert ((L1 + 10 - 11 + 1 + 2 * 5 - 11) / 11 = 0)%nat as Hq2
      by (apply Nat.div_small; lia).
  lia.
Qed.

(** X7: an encoder accepts no spectrum of fewer than 56 bins: on a batch
    whose first spectrum is shorter, [forward] raises in either mode and
    whatever the auxiliary features are (the two pooling layers leave a
    single position, which the instance normalisation of the third block
    refuses; an empty spectrum is refused by the first convolution). With
    56 bins, the default activations and fitting auxiliary features it
    returns. *)
Theorem encoder_needs_56_bins :
  forall instrument n_latent n_hidden act n_aux dropout g g' e
         training requires_grad u row x aux,
    SpectrumEncoder.__init__ instrument n_latent n_hidden act n_aux dropout g = (g', Ok e) ->
    ((length row < 56)%nat ->
     raises (SpectrumEncoder.forward e training requires_grad u (row :: x) aux))
    /\ (act = None ->
        Forall (fun r => length r = 56%nat) (row :: x) ->
        aux_ok n_aux (length (row :: x)) aux ->
        is_ok (SpectrumEncoder.forward e training requires_grad u (row :: x) aux)).
Proof.
  intros instrument n_latent n_hidden act n_aux dropout g g' e training requires_grad u
         row x aux Hinit.
  apply SpectrumEncoder_init_inv in Hinit. subst e. split.
  - intros Hshort. unfold SpectrumEncoder.forward. apply fmap_raises.
    unfold SpectrumEncoder.forward_trace.
    destruct (SpectrumEncoder._downsample _ training u (row :: x)) as [[h a]|err] eqn:Hd.
    + apply downsample_needs_56 in Hd. lia.
    + exists err. reflexivity.
  - intros -> Hrows Haux.
    destruct (forward_trace_ok g instrument n_latent n_hidden None n_aux dropout
                training requires_grad u (row :: x) aux 56 Hrows (le_n 56) Haux
                (default_acts_ok _ _ _ _)) as (y & tr & Hf & _).
    exists y. unfold SpectrumEncoder.forward. now rewrite Hf.
Qed.

Lemma encoder_needs_56_bins_witness :
  raises (SpectrumEncoder.forward (small_encoder 0) false false zero_noise
                                  [flat_spectrum 55] PyNone).
Proof.
  apply (proj1 (encoder_needs_56_bins PyNone 2 [3]%nat None 0 0 zero_generator _ _
                  false false zero_noise (flat_spectrum 55) [] PyNone
                  (small_encoder_init 0))).
  unfold flat_spectrum. rewrite repeat_length. lia.
Defined.

(** ** The size of the attention maps *)

Lemma downsampled_length_closed L :
  (1 <= L)%nat -> downsampled_length L = ((L - 1) / 55 + 1)%nat.
Proof.
  intros HL. unfold downsampled_length, nn.pooled_length.
  replace (L + 2 * 2 - 5)%nat with (L - 1)%nat by lia.
  replace ((L - 1) / 5 + 1 + 2 * 5 - 11)%nat with ((L - 1) / 5)%nat by lia.
  now rewrite Nat.Div0.div_div.
Qed.

(** X8: on a batch of spectra of [L >= 56] bins, [_downsample] returns
    the value half [h] and the key half [a] with one entry per sample,
    256 channels each, and [(L - 1) // 55 + 1] positions per channel: the
    two pooling layers divide the resolution by 5 and by 11, the
    convolutions keep it. The attention weights of [forward] have the same
    shape. *)
Theorem attention_map_shape :
  forall instrument n_latent n_hidden act n_aux dropout g g' e training u x L,
    SpectrumEncoder.__init__ instrument n_latent n_hidden act n_aux dropout g = (g', Ok e) ->
    Forall (fun row => length row = L) x -> (56 <= L)%nat ->
    exists h a,
      SpectrumEncoder._downsample e training u x = Ok (h, a)
      /\ shaped3 256 ((L - 1) / 55 + 1) h
      /\ shaped3 256 ((L - 1) / 55 + 1) a
      /\ shaped3 256 ((L - 1) / 55 + 1) (nn.Softmax_forward a)
      /\ length h = length x /\ length a = length x.
Proof.
  intros instrument n_latent n_hidden act n_aux dropout g g' e training u x L Hinit Hx HL.
  apply SpectrumEncoder_init_inv in Hinit. subst e.
  destruct (downsample_ok g instrument n_latent n_hidden act n_aux dropout training u x L Hx HL)
    as (h & a & Hd & Hh & Ha & Hlh & Hla).
  rewrite downsampled_length_closed in Hh, Ha by lia.
  exists h, a. repeat split; try assumption. now apply softmax_shaped3.
Qed.

Lemma attention_map_shape_witness :
  exists h a,
    SpectrumEncoder._downsample (small_encoder 0) true zero_noise [flat_spectrum 111]
    = Ok (h, a)
    /\ shaped3 256 3 a.
Proof.
  destruct (attention_map_shape PyNone 2 [3]%nat None 0 0 zero_generator _ _ true zero_noise
              [flat_spectrum 111] 111 (small_encoder_init 0) (flat_spectrum_rows 111 1))
    as (h & a & Hd & _ & Ha & _); [lia|].
  exists h, a. split; [exact Hd|exact Ha].
Defined.

(** ** The rest-frame round trip *)

(** X9: for a model built by [SpectrumAutoencoder.__init__] (default
    decoder activations), on a batch of spectra of [L >= 56] bins with
    auxiliary features that fit [n_aux], [encode] returns one latent
    vector of [n_latent] entries per sample and [decode] of these returns
    one rest-frame spectrum per sample with exactly one flux per
    rest-frame wavelength, whatever the batch size, the mode and the
    length [L] of the input. *)
Theorem rest_frame_round_trip_shape :
  forall instrument wave_rest n_latent n_aux n_hidden g interp
         training requires_grad u x aux L,
    Forall (fun row => length row = L) x -> (56 <= L)%nat ->
    aux_ok n_aux (length x) aux ->
    exists g' m s r,
      SpectrumAutoencoder.__init__ instrument wave_rest n_latent n_aux n_hidden None g
      = (g', Ok m)
      /\ BaseAutoencoder.encode m training requires_grad u x aux = Ok s
      /\ shaped (length x) n_latent s
      /\ BaseAutoencoder.decode interp m training u s = Ok r
      /\ shaped (length x) (length wave_rest) r.
Proof.
  intros instrument wave_rest n_latent n_aux n_hidden g interp training requires_grad u
         x aux L Hx HL Haux.
  destruct (forward_trace_ok g instrument n_latent [128; 64; 32]%nat None n_aux 0
              training requires_grad u x aux L Hx HL Haux (default_acts_ok _ _ _ _))
    as (s & tr & Hs & Hrs & Hls).
  set (m := BaseAutoencoder.mk
              (encoder_of g instrument n_latent [128; 64; 32]%nat None n_aux 0)
              (decoder_of (mkGen (draw g) (allocated g + 20)) wave_rest n_latent n_hidden
                          None 0)).
  destruct (MLP_built_forward_ok (draw g) n_latent (length wave_rest) n_hidden
              (act_of n_hidden None) 0 (allocated g + 20) training
              (BaseAutoencoder.decoder_noise m u) 0 s Hrs (leaky_acts_ok _ _))
    as (r & Hr & Hrr & Hlr).
  exists (mkGen (draw g) (allocated g + 20 + 2 * (length n_hidden + 1))), m, s, r.
  split; [apply SpectrumAutoencoder_init_eval; cbn; apply repeat_length|].
  split; [unfold BaseAutoencoder.encode, SpectrumEncoder.forward; cbn; now rewrite Hs|].
  split; [now split|].
  split.
  - unfold BaseAutoencoder.decode, SpectrumDecoder.forward, SpectrumDecoder.decode, MLP.forward.
    change (SpectrumDecoder.mlp (BaseAutoencoder.decoder m))
      with (built_layers (draw g) ([n_latent] ++ n_hidden ++ [length wave_rest])
                         (act_of n_hidden None) 0 (allocated g + 20)
                         (seq 0 (length n_hidden + 1))).
    now rewrite Hr.
  - split; [congruence|exact Hrr].
Qed.

Lemma rest_frame_round_trip_shape_witness :
  exists g' m s r,
    SpectrumAutoencoder.__init__ PyNone (flat_spectrum 7) 2 0 [4]%nat None zero_generator
    = (g', Ok m)
    /\ BaseAutoencoder.encode m false false zero_noise [flat_spectrum 60] PyNone = Ok s
    /\ BaseAutoencoder.decode hold_first m false zero_noise s = Ok r
    /\ shaped 1 7 r.
Proof.
  destruct (rest_frame_round_trip_shape PyNone (flat_spectrum 7) 2 0 [4]%nat zero_generator
              hold_first false false zero_noise [flat_spectrum 60] PyNone 60
              (flat_spectrum_rows 60 1)) as (g' & m & s & r & Hm & Hs & _ & Hr & Hsh);
    [lia|reflexivity|].
  exists g', m, s, r. repeat split; try assumption; apply Hsh.
Defined.

(** ** The optional arguments of the decoder *)

(** X10: [SpectrumDecoder.forward] returns an observed-frame spectrum
    only when it is given both an instrument and a redshift. With an
    instrument and no redshift it hands [z = None] on to [transform]
    (whose own default [z = 0] is not used), which raises [TypeError] as
    soon as the dense block has returned; with a redshift and no
    instrument (or [False]) it raises, too; with neither it is [decode]. *)
Theorem decoder_forward_needs_instrument_and_redshift :
  forall interp d training u s i z,
    SpectrumDecoder.forward interp d training u s (PyObj i) None
    = match SpectrumDecoder.decode d training u s with
      | Ok _ => Raise TypeError
      | Raise e => Raise e
      end
    /\ raises (SpectrumDecoder.forward interp d training u s PyNone (Some z))
    /\ raises (SpectrumDecoder.forward interp d training u s PyFalse (Some z))
    /\ SpectrumDecoder.forward interp d training u s PyNone None
       = SpectrumDecoder.decode d training u s.
Proof.
  intros interp d training u s i z. unfold SpectrumDecoder.forward.
  split; [|split; [|split]].
  - destruct (SpectrumDecoder.decode d training u s); reflexivity.
  - apply bind_raises. intros y.
    apply (transform_without_instrument_raises_any interp d y (Some z) PyNone). now left.
  - apply bind_raises. intros y.
    apply (transform_without_instrument_raises_any interp d y (Some z) PyFalse). now right.
  - destruct (SpectrumDecoder.decode d training u s); reflexivity.
Qed.

(** ** A latent vector given in advance *)

(** X11: when [_forward] is given a latent batch [s], the encoder is not
    run: the result does not depend on the spectra, on the auxiliary
    features or on whether gradients are required; the triple it returns
    holds [s] itself, [decode(s)] and the transform of that. Without a
    latent batch, [forward] is [encode] followed by [forward] on the
    latent batch that [encode] returned. *)
Theorem forward_with_given_latent :
  forall interp m training requires_grad requires_grad' u x x' instrument z s aux aux',
    BaseAutoencoder._forward interp m training requires_grad u x instrument z (Some s) aux
    = BaseAutoencoder._forward interp m training requires_grad' u x' instrument z (Some s) aux'
    /\ (forall latent rest obs,
           BaseAutoencoder._forward interp m training requires_grad u x instrument z
                                    (Some s) aux = Ok (latent, rest, obs) ->
           latent = s
           /\ BaseAutoencoder.decode interp m training u s = Ok rest
           /\ BaseAutoencoder.forward interp m training requires_grad u x instrument z
                                      (Some s) aux = Ok obs)
    /\ BaseAutoencoder.forward interp m training requires_grad u x instrument z None aux
       = (latent <- BaseAutoencoder.encode m training requires_grad u x aux ;;
          BaseAutoencoder.forward interp m training requires_grad u x instrument z
                                  (Some latent) aux).
Proof.
  intros interp m training requires_grad requires_grad' u x x' instrument z s aux aux'.
  split; [reflexivity|]. split.
  - intros latent rest obs H. unfold BaseAutoencoder.forward. rewrite H. cbn [bind].
    unfold BaseAutoencoder._forward in H. cbn [bind] in H.
    inv_bind H. inv_bind H. injection H as <- <- <-. auto.
  - unfold BaseAutoencoder.forward, BaseAutoencoder._forward.
    destruct (BaseAutoencoder.encode m training requires_grad u x aux); reflexivity.
Qed.

(** ** Sign and masking of the loss *)

Lemma Rinv_INR_nonneg L : 0 <= / INR L.
Proof.
  destruct L as [|L].
  - cbn. rewrite Rinv_0. lra.
  - left. apply Rinv_0_lt_compat. apply lt_0_INR. lia.
Qed.

Lemma Rsum_nonneg l : Forall (fun v => 0 <= v) l -> 0 <= Rsum l.
Proof.
  induction 1 as [|v l Hv _ IH]; [cbn; lra|]. rewrite Rsum_cons. lra.
Qed.

Lemma row_loss_nonneg L x :
  forall w r, Forall (fun b => 0 <= b) w -> 0 <= per_sample_loss L x w r.
Proof.
  intros w r Hw. unfold per_sample_loss, Rdiv.
  apply Rmult_le_pos; [|apply Rinv_INR_nonneg].
  apply Rsum_nonneg. unfold zip3. revert w r Hw.
  induction x as [|a x IH]; intros [|b w] [|c r] Hw; cbn [combine map]; try constructor.
  - unfold weighted_square. apply Forall_inv in Hw.
    pose proof (pow2_ge_0 (a - c)). nra.
  - apply IH. now apply Forall_inv_tail in Hw.
Qed.

Lemma loss_ind_nonneg L x :
  forall w r,
    Forall (Forall (fun b => 0 <= b)) w ->
    Forall (fun v => 0 <= v) (loss_ind_spec L x w r).
Proof.
  unfold loss_ind_spec, zip3.
  induction x as [|a x IH]; intros [|b w] [|c r] Hw; cbn [combine map]; try constructor.
  - apply row_loss_nonneg. now apply Forall_inv in Hw.
  - apply IH. now apply Forall_inv_tail in Hw.
Qed.

(** X12: with inverse-variance weights, none of them negative, no
    per-sample loss is negative and neither is the summed loss, for every
    input and every reconstruction of the shape of the input. *)
Theorem loss_is_not_negative :
  forall N L x w r,
    shaped N L x -> shaped N L w -> shaped N L r ->
    Forall (Forall (fun b => 0 <= b)) w ->
    exists loss_ind,
      BaseAutoencoder._loss x w r true = Ok (BaseAutoencoder.PerSample loss_ind)
      /\ BaseAutoencoder._loss x w r false = Ok (BaseAutoencoder.Summed (Rsum loss_ind))
      /\ Forall (fun v => 0 <= v) loss_ind
      /\ 0 <= Rsum loss_ind.
Proof.
  intros N L x w r Hx Hw Hr Hpos.
  exists (loss_ind_spec L x w r).
  split; [exact (loss_formula N L x w r true Hx Hw Hr)|].
  split; [exact (loss_formula N L x w r false Hx Hw Hr)|].
  pose proof (loss_ind_nonneg L x w r Hpos) as H.
  split; [exact H|now apply Rsum_nonneg].
Qed.

Lemma ones_nonneg N L : Forall (Forall (fun b => 0 <= b)) (repeat (repeat 1 L) N).
Proof.
  apply Forall_forall. intros row Hrow. apply repeat_spec in Hrow. subst row.
  apply Forall_forall. intros b Hb. apply repeat_spec in Hb. subst b. lra.
Qed.

Lemma loss_is_not_negative_witness :
  exists loss_ind,
    BaseAutoencoder._loss (repeat (repeat 1 3) 2) (repeat (repeat 1 3) 2)
                          (repeat (repeat 1 3) 2) true
    = Ok (BaseAutoencoder.PerSample loss_ind)
    /\ Forall (fun v => 0 <= v) loss_ind.
Proof.
  destruct (loss_is_not_negative 2 3 _ _ _ (ones_shaped 2 3) (ones_shaped 2 3)
              (ones_shaped 2 3) (ones_nonneg 2 3)) as (v & Hv & _ & Hpos & _).
  exists v. split; [exact Hv|exact Hpos].
Defined.

Lemma row_loss_masked x :
  forall x' w r,
    length x = length x' ->
    Forall (fun '(a, a', b) => b = 0 \/ a = a') (combine (combine x x') w) ->
    zip3 weighted_square x w r = zip3 weighted_square x' w r.
Proof.
  unfold zip3.
  induction x as [|a x IH]; intros [|a' x'] [|b w] [|c r] Hlen H; cbn [combine map];
    try reflexivity; try discriminate.
  cbn [combine] in H. pose proof (Forall_inv H) as H0. cbn beta iota in H0.
  f_equal.
  - unfold weighted_square. destruct H0 as [-> | ->]; ring.
  - apply IH; [cbn in Hlen; lia|]. now apply Forall_inv_tail in H.
Qed.

Lemma loss_ind_masked L x :
  forall x' w r,
    Forall2 (fun a a' => length a = length a') x x' ->
    agree_where_weighted x x' w ->
    loss_ind_spec L x w r = loss_ind_spec L x' w r.
Proof.
  unfold loss_ind_spec, zip3, agree_where_weighted.
  induction x as [|a x IH]; intros x' w r Hlen H; inversion Hlen as [|? a' ? x'' Ha Hx]; subst.
  - reflexivity.
  - destruct w as [|b w]; [reflexivity|]. destruct r as [|c r]; [reflexivity|].
    cbn [combine map] in *. pose proof (Forall_inv H) as H0. cbn beta iota in H0.
    f_equal.
    + unfold per_sample_loss. now rewrite (row_loss_masked a a' b c Ha H0).
    + apply IH; [exact Hx|]. now apply Forall_inv_tail in H.
Qed.

Lemma shaped_same_rows N L (x x' : tensor2) :
  shaped N L x -> shaped N L x' -> Forall2 (fun a a' => length a = length a') x x'.
Proof.
  intros [Hx Hrx] [Hx' Hrx']. revert N x' Hx Hx' Hrx'.
  induction Hrx as [|a x Ha _ IH]; intros N [|a' x'] Hx Hx' Hrx'; cbn in *;
    try constructor; try lia.
  - apply Forall_inv in Hrx'. congruence.
  - apply (IH (length x)); [reflexivity|lia|]. now apply Forall_inv_tail in Hrx'.
Qed.

(** X13: bins of weight zero are masked: two batches of input spectra
    that differ only where the weight is zero have the same per-sample
    losses and the same summed loss against any reconstruction. The
    divisor stays the total number of bins. *)
Theorem loss_ignores_masked_bins :
  forall N L x x' w r individual,
    shaped N L x -> shaped N L x' -> shaped N L w -> shaped N L r ->
    agree_where_weighted x x' w ->
    BaseAutoencoder._loss x w r individual = BaseAutoencoder._loss x' w r individual.
Proof.
  intros N L x x' w r individual Hx Hx' Hw Hr Hagree.
  rewrite (loss_formula N L x w r individual Hx Hw Hr).
  rewrite (loss_formula N L x' w r individual Hx' Hw Hr).
  now rewrite (loss_ind_masked L x x' w r (shaped_same_rows N L x x' Hx Hx') Hagree).
Qed.

Lemma loss_ignores_masked_bins_witness :
  BaseAutoencoder._loss [[1; 5]] [[1; 0]] [[2; 2]] true
  = BaseAutoencoder._loss [[1; 7]] [[1; 0]] [[2; 2]] true.
Proof.
  apply (loss_ignores_masked_bins 1 2);
    try (split; [reflexivity|constructor; [reflexivity|constructor]]).
  unfold agree_where_weighted. cbn [combine].
  constructor; [|constructor].
  constructor; [right; reflexivity|].
  constructor; [left; reflexivity|constructor].
Defined.

(** ** Independence of the samples in the encoder *)

(** X14: the encoder alone treats the samples independently, with no
    assumption on anything outside the module: permuting the batch axis of
    the spectra (and of the auxiliary features and dropout draws that
    belong to each sample) permutes the latent vectors and the attention
    maps in the same way, for every encoder, in either mode; when the call
    raises, so does the permuted call. *)
Theorem encoder_treats_samples_independently :
  forall e training requires_grad u x aux p,
    Permutation p (seq 0 (length x)) ->
    match aux with PyObj a => length a = length x | _ => True end ->
    match SpectrumEncoder.forward_trace e training requires_grad u x aux with
    | Ok (y, tr) =>
        SpectrumEncoder.forward_trace e training requires_grad (permute_noise p u)
                                      (permute p x) (permute_aux p aux)
        = Ok (permute p y,
              SpectrumEncoder.mkTrace (permute p (SpectrumEncoder.attention tr))
                                      (SpectrumEncoder.hook_registered tr))
        /\ SpectrumEncoder.forward e training requires_grad (permute_noise p u)
                                   (permute p x) (permute_aux p aux)
           = Ok (permute p y)
        /\ length y = length x
    | Raise _ =>
        raises (SpectrumEncoder.forward e training requires_grad (permute_noise p u)
                                        (permute p x) (permute_aux p aux))
    end.
Proof.
  intros e training requires_grad u x aux p Hp Haux.
  pose proof (forward_trace_equi p (length x) Hp e training requires_grad u x aux
                eq_refl Haux) as H.
  unfold equi in H. unfold SpectrumEncoder.forward.
  destruct (SpectrumEncoder.forward_trace e training requires_grad u x aux) as [[y tr]|err].
  - destruct H as [Hlen H]. cbn [fst snd permute_traced] in *.
    rewrite H. split; [reflexivity|]. split; [reflexivity|exact Hlen].
  - now apply fmap_raises.
Qed.

Lemma encoder_treats_samples_independently_witness :
  exists y tr,
    SpectrumEncoder.forward_trace (small_encoder 0) true true zero_noise
                                  [flat_spectrum 56; repeat 1 56] PyNone = Ok (y, tr)
    /\ SpectrumEncoder.forward (small_encoder 0) true true
                               (permute_noise [1; 0]%nat zero_noise)
                               (permute [1; 0]%nat [flat_spectrum 56; repeat 1 56])
                               (permute_aux [1; 0]%nat PyNone)
       = Ok (permute [1; 0]%nat y).
Proof.
  destruct (forward_trace_ok zero_generator PyNone 2 [3]%nat None 0 0 true true zero_noise
              [flat_spectrum 56; repeat 1 56] PyNone 56 (proj2 two_spectra_shaped) (le_n 56)
              eq_refl (default_acts_ok _ _ _ _)) as (y & tr & Hf & _).
  exists y, tr. split; [exact Hf|].
  pose proof (encoder_treats_samples_independently (small_encoder 0) true true zero_noise
                [flat_spectrum 56; repeat 1 56] PyNone [1; 0]%nat
                (perm_swap 0%nat 1%nat []) I) as H.
  unfold small_encoder in H at 1. rewrite Hf in H. exact (proj1 (proj2 H)).
Defined.

(** ** An instrument on the rest-frame grid *)

Lemma map_unit_redshift (l : tensor1) : map (fun w => w * (1 + 0)) l = l.
Proof.
  induction l as [|v l IH]; [reflexivity|]. cbn [map]. rewrite IH. f_equal. ring.
Qed.

(** X15: at redshift 0, for an instrument that observes on the
    rest-frame grid and has neither line-spread function nor calibration,
    [transform] hands the rest grid to the interpolation as both the
    source and the target grid, and returns what the interpolation
    returns; with an interpolation that is exact at its knots the
    rest-frame spectra come back unchanged, and for a single spectrum it
    is enough that the interpolation is exact at its knots on single
    spectra. *)
Theorem transform_identity_instrument :
  forall interp d i y,
    wave_obs i = SpectrumDecoder.wave_rest d ->
    lsf i = None -> calibration i = None ->
    SpectrumDecoder.transform interp d y (PyObj i) (Some (ZNumber 0))
    = interp [SpectrumDecoder.wave_rest d] y (SpectrumDecoder.wave_rest d)
    /\ (exact_at_knots interp (SpectrumDecoder.wave_rest d) ->
        Forall (fun row => length row = length (SpectrumDecoder.wave_rest d)) y ->
        SpectrumDecoder.transform interp d y (PyObj i) (Some (ZNumber 0)) = Ok y)
    /\ (exact_at_knots_of_one interp (SpectrumDecoder.wave_rest d) ->
        forall row, y = [row] -> length row = length (SpectrumDecoder.wave_rest d) ->
        SpectrumDecoder.transform interp d y (PyObj i) (Some (ZNumber 0)) = Ok y).
Proof.
  intros interp d i y Hgrid Hlsf Hcal.
  assert (SpectrumDecoder.transform interp d y (PyObj i) (Some (ZNumber 0))
          = interp [SpectrumDecoder.wave_rest d] y (SpectrumDecoder.wave_rest d)) as H.
  { unfold SpectrumDecoder.transform. cbn [bind]. rewrite map_unit_redshift, Hgrid, Hlsf, Hcal.
    destruct (interp _ y (SpectrumDecoder.wave_rest d)); reflexivity. }
  split; [exact H|]. split.
  - intros Hexact Hy. rewrite H. now apply Hexact.
  - intros Hexact row -> Hrow. rewrite H. now apply Hexact.
Qed.

Lemma transform_identity_instrument_witness :
  SpectrumDecoder.transform pass_through
    (decoder_of zero_generator (flat_spectrum 56) 2 [4]%nat None 0)
    [repeat 1 56] (PyObj plain_instrument) (Some (ZNumber 0))
  = Ok [repeat 1 56].
Proof.
  apply (proj2 (proj2 (transform_identity_instrument pass_through
                         (decoder_of zero_generator (flat_spectrum 56) 2 [4]%nat None 0)
                         plain_instrument [repeat 1 56] eq_refl eq_refl eq_refl))
           (fun row _ => eq_refl) (repeat 1 56)).
  - reflexivity.
  - cbn [decoder_of SpectrumDecoder.wave_rest].
    unfold flat_spectrum. now rewrite !repeat_length.
Defined.

(** ** No active dropout by default *)

Lemma dropout_entry_zero training u x : 0 <= u -> nn.dropout_entry 0 training u x = x.
Proof.
  intros Hu. unfold nn.dropout_entry. destruct training; [|reflexivity].
  destruct (Rlt_dec u 0); [lra|]. rewrite Rminus_0_r, Rinv_1. ring.
Qed.

Lemma dropout2_zero training (u : nat -> nat -> R) x :
  (forall j k, 0 <= u j k) -> nn.Dropout_forward2 0 training u x = x.
Proof.
  intros Hu. unfold nn.Dropout_forward2, imap. apply imap_from_id. intros j row.
  apply imap_from_id. intros k v. now apply dropout_entry_zero.
Qed.

Lemma dropout3_zero training (u : nat -> nat -> nat -> R) x :
  (forall j c t, 0 <= u j c t) -> nn.Dropout_forward3 0 training u x = x.
Proof.
  intros Hu. unfold nn.Dropout_forward3, imap. apply imap_from_id. intros j s.
  apply imap_from_id. intros c row. apply imap_from_id. intros t v.
  now apply dropout_entry_zero.
Qed.

Lemma MLP_forward_zero_dropout draw n_ act training (u : nat -> nat -> nat -> R) range :
  (forall i j k, 0 <= u i j k) ->
  forall k site x,
    MLP.forward_from site training u (built_layers draw n_ act 0 k range) x
    = without_dropout (built_layers draw n_ act 0 k range) x.
Proof.
  intros Hu. induction range as [|i range IH]; intros k site x; [reflexivity|].
  cbn [built_layers app MLP.forward_from without_dropout MLP.layer_forward].
  destruct (nn.Linear_forward _ x) as [x1|e]; cbn [bind]; [|reflexivity].
  destruct (mapM _ x1) as [x2|e]; cbn [bind]; [|reflexivity].
  rewrite dropout2_zero by (intros j c; apply Hu). apply IH.
Qed.

Lemma block_forward_zero_dropout draw k f_in f s training (u : nat -> nat -> nat -> R) x :
  (forall j c t, 0 <= u j c t) ->
  SpectrumEncoder.block_forward training u (conv_block_of draw k f_in f s 0) x
  = block_without_dropout (conv_block_of draw k f_in f s 0) x.
Proof.
  intros Hu. unfold SpectrumEncoder.block_forward, block_without_dropout.
  destruct (nn.Conv1d_forward _ x) as [x1|e]; cbn [bind]; [|reflexivity].
  destruct (nn.InstanceNorm1d_forward _ x1) as [x2|e]; cbn [bind]; [|reflexivity].
  destruct (nn.PReLU_forward3 _ _ x2) as [x3|e]; cbn [bind]; [|reflexivity].
  cbn [conv_block_of SpectrumEncoder.drop]. now rewrite dropout3_zero.
Qed.

Lemma SpectrumAutoencoder_init_inv instrument wave_rest n_latent n_aux n_hidden act g g' m :
  SpectrumAutoencoder.__init__ instrument wave_rest n_latent n_aux n_hidden act g = (g', Ok m) ->
  m = BaseAutoencoder.mk
        (encoder_of g instrument n_latent [128; 64; 32]%nat None n_aux 0)
        (decoder_of (mkGen (draw g) (allocated g + 20)) wave_rest n_latent n_hidden act 0).
Proof.
  intros H.
  destruct (Nat.eq_dec (length (act_of n_hidden act)) (length n_hidden + 1)) as [E|E].
  - rewrite SpectrumAutoencoder_init_eval in H by exact E. now inversion H.
  - exfalso. destruct act as [l|].
    2:{ apply E. cbn. apply repeat_length. }
    unfold SpectrumAutoencoder.__init__ in H. unfold cbind at 1 in H.
    rewrite SpectrumEncoder_init_default in H by lra. cbn [length] in H.
    unfold cbind at 1 in H. unfold SpectrumDecoder.__init__, cbind at 1 in H.
    rewrite MLP_init_mismatch in H by exact E. discriminate H.
Qed.

Lemma bind_ext {A B} (m : result A) (k k' : A -> result B) :
  (forall a, k a = k' a) -> bind m k = bind m k'.
Proof. intros H. destruct m; [apply H|reflexivity]. Qed.

Lemma downsample_zero_dropout g instrument n_latent n_hidden act n_aux training
      (u : nn.noise) x :
  (forall s j c t, 0 <= u s j c t) ->
  SpectrumEncoder._downsample (encoder_of g instrument n_latent n_hidden act n_aux 0)
                              training u x
  = SpectrumEncoder._downsample (encoder_of g instrument n_latent n_hidden act n_aux 0)
                                false u x.
Proof.
  intros Hu. unfold SpectrumEncoder._downsample, encoder_of.
  cbn [SpectrumEncoder.conv1 SpectrumEncoder.conv2 SpectrumEncoder.conv3].
  rewrite !block_forward_zero_dropout by (intros; apply Hu).
  apply bind_ext; intros x0. apply bind_ext; intros x1.
  rewrite !block_forward_zero_dropout by (intros; apply Hu).
  apply bind_ext; intros x2. apply bind_ext; intros x3.
  now rewrite !block_forward_zero_dropout by (intros; apply Hu).
Qed.

Lemma forward_trace_zero_dropout g instrument n_latent n_hidden act n_aux training grad
      (u : nn.noise) x aux :
  (forall s j c t, 0 <= u s j c t) ->
  SpectrumEncoder.forward_trace (encoder_of g instrument n_latent n_hidden act n_aux 0)
                                training grad u x aux
  = SpectrumEncoder.forward_trace (encoder_of g instrument n_latent n_hidden act n_aux 0)
                                  false grad u x aux.
Proof.
  intros Hu. destruct training; [|reflexivity].
  unfold SpectrumEncoder.forward_trace, MLP.forward.
  rewrite (downsample_zero_dropout _ _ _ _ _ _ true u x Hu).
  destruct (SpectrumEncoder._downsample _ false u x) as [[h a]|err]; cbn [bind]; [|reflexivity].
  destruct (SpectrumEncoder.attend h (nn.Softmax_forward a)) as [pooled|err]; cbn [bind];
    [|reflexivity].
  destruct (match aux with
            | PyObj aux => SpectrumEncoder.cat_last pooled aux
            | _ => Ok pooled
            end) as [q|err]; cbn [bind]; [|reflexivity].
  unfold encoder_of. cbn [SpectrumEncoder.mlp].
  now rewrite !MLP_forward_zero_dropout by (intros; apply Hu).
Qed.

(** X16: a model built by [SpectrumAutoencoder] has no active dropout:
    the constructor passes no dropout probability on, so every dropout
    layer of the encoder and of the decoder has p = 0, and with draws that
    are not negative (torch draws them from [0, 1)) the latent vectors, the
    reconstruction and the loss are the same in training mode as in
    evaluation mode. *)
Theorem default_autoencoder_has_no_active_dropout :
  forall interp instrument wave_rest n_latent n_aux n_hidden act g g' m
         training requires_grad (u : nn.noise) x inst z s aux,
    (forall site j c t, 0 <= u site j c t) ->
    SpectrumAutoencoder.__init__ instrument wave_rest n_latent n_aux n_hidden act g
    = (g', Ok m) ->
    BaseAutoencoder.encode m training requires_grad u x aux
    = BaseAutoencoder.encode m false requires_grad u x aux
    /\ BaseAutoencoder.forward interp m training requires_grad u x inst z s aux
       = BaseAutoencoder.forward interp m false requires_grad u x inst z s aux
    /\ (forall w individual,
           BaseAutoencoder.loss interp m training requires_grad u x w inst z s aux individual
           = BaseAutoencoder.loss interp m false requires_grad u x w inst z s aux individual).
Proof.
  intros interp instrument wave_rest n_latent n_aux n_hidden act g g' m
         training requires_grad u x inst z s aux Hu Hm.
  apply SpectrumAutoencoder_init_inv in Hm. subst m.
  assert (forall y,
             BaseAutoencoder.encode
               (BaseAutoencoder.mk
                  (encoder_of g instrument n_latent [128; 64; 32]%nat None n_aux 0)
                  (decoder_of (mkGen (draw g) (allocated g + 20)) wave_rest n_latent
                              n_hidden act 0))
               training requires_grad u y aux
             = BaseAutoencoder.encode
                 (BaseAutoencoder.mk
                    (encoder_of g instrument n_latent [128; 64; 32]%nat None n_aux 0)
                    (decoder_of (mkGen (draw g) (allocated g + 20)) wave_rest n_latent
                                n_hidden act 0))
                 false requires_grad u y aux) as He.
  { intros y. unfold BaseAutoencoder.encode, SpectrumEncoder.forward.
    cbn [BaseAutoencoder.encoder].
    now rewrite (forward_trace_zero_dropout _ _ _ _ _ _ training requires_grad u y aux Hu). }
  split; [apply He|].
  match goal with
  | |- ?l = ?r /\ _ => assert (l = r) as Hf
  end.
  { unfold BaseAutoencoder.forward, BaseAutoencoder._forward. rewrite He.
    destruct (match s with
              | Some s0 => Ok s0
              | None => BaseAutoencoder.encode _ false requires_grad u x aux
              end) as [latent|err]; cbn [bind]; [|reflexivity].
    unfold BaseAutoencoder.decode, SpectrumDecoder.forward, SpectrumDecoder.decode, MLP.forward.
    cbn [BaseAutoencoder.decoder decoder_of SpectrumDecoder.mlp].
    rewrite MLP_forward_zero_dropout
      by (intros; unfold BaseAutoencoder.decoder_noise; apply Hu).
    now rewrite MLP_forward_eval. }
  split; [exact Hf|].
  intros w individual. unfold BaseAutoencoder.loss. now rewrite Hf.
Qed.

Lemma default_autoencoder_has_no_active_dropout_witness :
  exists g' m,
    SpectrumAutoencoder.__init__ (PyObj plain_instrument) (flat_spectrum 56) 2 0 [4]%nat None
                                 zero_generator = (g', Ok m)
    /\ BaseAutoencoder.forward hold_first m true false zero_noise [flat_spectrum 56]
                               PyNone (Some (ZNumber 0)) None PyNone
       = BaseAutoencoder.forward hold_first m false false zero_noise [flat_spectrum 56]
                                 PyNone (Some (ZNumber 0)) None PyNone.
Proof.
  pose proof (SpectrumAutoencoder_init_eval (PyObj plain_instrument) (flat_spectrum 56) 2 0
                [4]%nat None zero_generator eq_refl) as Hm.
  eexists _, _. split; [exact Hm|].
  exact (proj1 (proj2 (default_autoencoder_has_no_active_dropout
                         hold_first _ _ _ _ _ _ _ _ _ true false zero_noise
                         [flat_spectrum 56] PyNone (Some (ZNumber 0)) None PyNone
                         (fun _ _ _ _ => Rle_refl 0) Hm))).
Defined.
